(** * Granite measurement system: calculation engine, slab-entry
    persistence and cache helper

    A shallow embedding of
    - [src/utils/calculationEngine.js] (module [CalculationEngine], and
      its adjusters in the arithmetic of doubles in module [Binary64]),
    - the [SlabEntry] model and the handlers [createSlabEntry] and
      [batchCreateSlabEntries] of the slab entry controller, with the
      tables, constraints and the [update_measurement_sheet_total]
      trigger of [server/database/schema.sql] (module [Persistence]),
    - the [cache] helper of [server/config/redis.js] (module [Cache]),
    together with the properties the specification states about them,
    and of the code around them:
    - the other validators of a dimension and the validation of a
      request for a new slab entry (modules [Validators], [Request]),
    - [retry_strategy] and the key patterns of the Redis client
      (module [Redis]),
    - the [MeasurementSheet] model and the cache calls of the
      [SlabEntry] model (module [Sheets]),
    - [SlabEntry.findById] and [SlabEntry.findByMeasurementSheetId]
      (module [Queries]),
    - the default of [measurement_sheet_number] (module [SheetNumber]),
    - the handler of [src/pages/MeasurementSheetView.js] that deletes
      a slab entry (module [SheetView]).

    JavaScript numbers are modelled by [number]: a finite value is a
    rational, and [NaN], [+Infinity] and [-Infinity] are kept as
    separate values; the sign of zero is not tracked.  The operations
    of module [JS] are exact on finite values; module [Binary64] rounds
    their results to the nearest double, and the properties of the
    adjusters are stated for both, within the range where the two
    agree or with the inputs that tell them apart. *)

From Stdlib Require Import ZArith QArith Qround Qabs Lqa Lia Bool List String.
From Stdlib Require DecimalString.
From stdpp Require Import gmap strings.

Import ListNotations.

(** ** JavaScript numbers *)

Module JS.

Local Open Scope Q_scope.

Inductive number : Type :=
| Fin (q : Q)
| NaN
| PosInf
| NegInf.

Coercion Fin : Q >-> number.

(** The same number: rationals are compared by value. *)
Definition same (a b : number) : Prop :=
  match a, b with
  | Fin p, Fin q => p == q
  | NaN, NaN => True
  | PosInf, PosInf => True
  | NegInf, NegInf => True
  | _, _ => False
  end.

Definition Qltb (p q : Q) : bool := negb (Qle_bool q p).

(** [a < b] *)
Definition lt (a b : number) : bool :=
  match a, b with
  | NaN, _ | _, NaN => false
  | Fin p, Fin q => Qltb p q
  | Fin _, PosInf => true
  | Fin _, NegInf => false
  | PosInf, _ => false
  | NegInf, NegInf => false
  | NegInf, _ => true
  end.

(** [a > b] *)
Definition gt (a b : number) : bool := lt b a.

(** [a <= b] *)
Definition le (a b : number) : bool :=
  match a, b with
  | NaN, _ | _, NaN => false
  | Fin p, Fin q => Qle_bool p q
  | Fin _, PosInf => true
  | Fin _, NegInf => false
  | PosInf, PosInf => true
  | PosInf, _ => false
  | NegInf, _ => true
  end.

(** [a === b] on numbers *)
Definition strict_eq (a b : number) : bool :=
  match a, b with
  | Fin p, Fin q => Qeq_bool p q
  | PosInf, PosInf => true
  | NegInf, NegInf => true
  | _, _ => false
  end.

(** [a !== b] on numbers *)
Definition strict_neq (a b : number) : bool := negb (strict_eq a b).

Definition isNaN (a : number) : bool :=
  match a with NaN => true | _ => false end.

Definition isFinite (a : number) : bool :=
  match a with Fin _ => true | _ => false end.

Definition neg (a : number) : number :=
  match a with
  | Fin q => Fin (- q)
  | NaN => NaN
  | PosInf => NegInf
  | NegInf => PosInf
  end.

(** [a + b] *)
Definition add (a b : number) : number :=
  match a, b with
  | NaN, _ | _, NaN => NaN
  | Fin p, Fin q => Fin (p + q)
  | PosInf, NegInf | NegInf, PosInf => NaN
  | PosInf, _ | _, PosInf => PosInf
  | NegInf, _ | _, NegInf => NegInf
  end.

(** [a - b] *)
Definition sub (a b : number) : number := add a (neg b).

(** The sign of a rational: -1, 0 or 1. *)
Definition Qsgn (q : Q) : Z := Z.sgn (Qnum q).

(** An infinity of the given sign; [NaN] for sign 0. *)
Definition inf_of_sign (s : Z) : number :=
  match s with
  | Z0 => NaN
  | Zpos _ => PosInf
  | Zneg _ => NegInf
  end.

Definition sign (a : number) : Z :=
  match a with
  | Fin q => Qsgn q
  | NaN => 0%Z
  | PosInf => 1%Z
  | NegInf => (-1)%Z
  end.

(** [a * b] *)
Definition mul (a b : number) : number :=
  match a, b with
  | NaN, _ | _, NaN => NaN
  | Fin p, Fin q => Fin (p * q)
  | _, _ => inf_of_sign (sign a * sign b)
  end.

(** [a / b] *)
Definition div (a b : number) : number :=
  match a, b with
  | NaN, _ | _, NaN => NaN
  | Fin p, Fin q =>
      if Qeq_bool q 0 then inf_of_sign (Qsgn p) else Fin (p / q)
  | Fin _, _ => Fin 0
  | _, Fin q => inf_of_sign (sign a * (if Qeq_bool q 0 then 1 else Qsgn q))
  | _, _ => NaN
  end.

(** Truncation of a rational toward zero. *)
Definition Qtrunc (q : Q) : Z := Z.quot (Qnum q) (Zpos (Qden q)).

(** [a % b]: the remainder has the sign of the dividend. *)
Definition rem (a b : number) : number :=
  match a, b with
  | Fin p, Fin q =>
      if Qeq_bool q 0 then NaN else Fin (p - q * inject_Z (Qtrunc (p / q)))
  | Fin p, PosInf | Fin p, NegInf => Fin p
  | _, _ => NaN
  end.

(** [Math.max(a, b)] *)
Definition Math_max (a b : number) : number :=
  match a, b with
  | NaN, _ | _, NaN => NaN
  | _, _ => if lt a b then b else a
  end.

(** [Math.round(a)]: the nearest integer, halves rounded up. *)
Definition Math_round (a : number) : number :=
  match a with
  | Fin q => Fin (inject_Z (Qfloor (q + (1 # 2))))
  | _ => a
  end.

(** An integer as a number. *)
Definition of_Z (z : Z) : number := Fin (inject_Z z).

End JS.

Declare Scope js_scope.
Delimit Scope js_scope with js.
Bind Scope js_scope with JS.number.
Infix "<" := JS.lt : js_scope.
Infix ">" := JS.gt : js_scope.
Infix "<=" := JS.le : js_scope.
Infix "===" := JS.strict_eq (at level 70, no associativity) : js_scope.
Infix "!==" := JS.strict_neq (at level 70, no associativity) : js_scope.
Infix "+" := JS.add : js_scope.
Infix "-" := JS.sub : js_scope.
Infix "*" := JS.mul : js_scope.
Infix "/" := JS.div : js_scope.

(** ** The calculation engine ([src/utils/calculationEngine.js]) *)

Module CalculationEngine.

Import JS.
Local Open Scope js_scope.
Local Open Scope string_scope.

(** *** Thrown errors and completions *)

(** A JavaScript [Error] with the properties the engine sets on it.
    [type] and [details] are [None] while they are undefined. *)
#[local] Set Warnings "-register-all".
Inductive Error : Type :=
  mkError {
    message : string;
    type : option string;
    details : option (list string);
    originalError : option Error
  }.

(** [new Error(msg)] *)
Definition new_Error (msg : string) : Error := mkError msg None None None.

(** How a call completes: it returns a value or throws an error. *)
Inductive completion (A : Type) : Type :=
| Return (a : A)
| Throw (e : Error).

Arguments Return {A} a.
Arguments Throw {A} e.

(** [try { body } catch (error) { handler }] *)
Definition try_catch {A : Type} (body : completion A)
  (handler : Error -> completion A) : completion A :=
  match body with
  | Return a => Return a
  | Throw e => handler e
  end.

(** *** Constants ([src/utils/constants.js]) *)

Module CUSTOMER_TYPES.
Definition RETAIL := "retail".
Definition GRANITE_SHOPS := "granite_shops".
Definition BUILDERS := "builders".
Definition OUTSTATION_PARTIES := "outstation_parties".
Definition EXPORTERS := "exporters".

(** [Object.values(CUSTOMER_TYPES)], in declaration order. *)
Definition values : list string :=
  [RETAIL; GRANITE_SHOPS; BUILDERS; OUTSTATION_PARTIES; EXPORTERS].
End CUSTOMER_TYPES.

(** [array.includes(s)] on an array of strings *)
Definition includes (l : list string) (s : string) : bool :=
  existsb (String.eqb s) l.

(** [array.join(sep)] on an array of strings *)
Definition join (sep : string) (l : list string) : string :=
  String.concat sep l.

(** *** Divisibility adjusters *)

Definition maxIterations : nat := 100.

(** The loop
    [while (processed % 3 !== 0 && processed > 0 && iterations < maxIterations)
       { processed -= 1; iterations++; }]
    as a function of the loop variables.  [fuel] bounds the number of
    turns; [divisibility_loop_exit] below shows that [maxIterations]
    turns always reach a state where the loop condition is false. *)
Definition loop_condition (processed : number) (iterations : nat) : bool :=
  (rem processed (Fin 3) !== Fin 0) && (processed > Fin 0)
  && (iterations <? maxIterations)%nat.

Fixpoint divisibility_loop (fuel : nat) (processed : number) (iterations : nat)
  : number * nat :=
  match fuel with
  | O => (processed, iterations)
  | S fuel' =>
      if loop_condition processed iterations
      then divisibility_loop fuel' (processed - Fin 1) (S iterations)
      else (processed, iterations)
  end.

(** [processLengthForDivisibility].  Nothing in the body can throw on a
    number, so the surrounding [try]/[catch] is never entered. *)
Definition processLengthForDivisibility (length : number) : number :=
  if length < Fin 3 then Fin 0
  else
    let '(processedLength, iterations) :=
      divisibility_loop maxIterations (length - Fin 3) 0 in
    if (maxIterations <=? iterations)%nat then Fin 0
    else Math_max processedLength (Fin 0).

(** [processBreadthForDivisibility] *)
Definition processBreadthForDivisibility (breadth : number) : number :=
  if breadth < Fin 2 then Fin 0
  else
    let '(processedBreadth, iterations) :=
      divisibility_loop maxIterations (breadth - Fin 2) 0 in
    if (maxIterations <=? iterations)%nat then Fin 0
    else Math_max processedBreadth (Fin 0).

(** *** Calculation strategies *)

(** The numeric part of a calculation result.  The display strings
    [calculationSteps] and [rawCalculation] are built from these numbers
    and the inputs by string formatting only; they are left out. *)
Record CalculationResult : Type :=
  mkResult {
    finalLength : number;
    finalBreadth : number;
    squareFeet : number
  }.

(** Nothing in these bodies throws but the defensive check itself; its
    error is caught by the strategy's own [catch] and thrown again with
    the strategy's name in front. *)
Definition calculateRetail (length breadth : number)
  : completion CalculationResult :=
  try_catch
    (let finalLength := length in
     let finalBreadth := breadth in
     let squareInches := finalLength * finalBreadth in
     let squareFeet := squareInches / Fin 144 in
     if negb (isFinite squareFeet) || (squareFeet < Fin 0)
     then Throw (new_Error "Invalid calculation result")
     else Return (mkResult finalLength finalBreadth
                    (Math_round (squareFeet * Fin 100) / Fin 100)))
    (fun error =>
       Throw (new_Error ("Retail calculation failed: " ++ message error))).

Definition calculateGraniteShops (length breadth : number)
  : completion CalculationResult :=
  try_catch
    (let finalLength := processLengthForDivisibility length in
     let finalBreadth := processBreadthForDivisibility breadth in
     let squareInches := finalLength * finalBreadth in
     let squareFeet := squareInches / Fin 144 in
     if negb (isFinite squareFeet) || (squareFeet < Fin 0)
     then Throw (new_Error "Invalid calculation result")
     else Return (mkResult finalLength finalBreadth
                    (Math_round (squareFeet * Fin 100) / Fin 100)))
    (fun error =>
       Throw (new_Error ("Granite Shops calculation failed: " ++ message error))).

Definition calculateBuilders (length breadth : number)
  : completion CalculationResult :=
  try_catch
    (let finalLength := processLengthForDivisibility length in
     let finalBreadth := breadth in
     let squareInches := finalLength * finalBreadth in
     let squareFeet := squareInches / Fin 144 in
     if negb (isFinite squareFeet) || (squareFeet < Fin 0)
     then Throw (new_Error "Invalid calculation result")
     else Return (mkResult finalLength finalBreadth
                    (Math_round (squareFeet * Fin 100) / Fin 100)))
    (fun error =>
       Throw (new_Error ("Builders calculation failed: " ++ message error))).

Definition calculateExporters (length breadth : number)
  : completion CalculationResult :=
  try_catch
    (let finalLength := Math_max (length - Fin 3) (Fin 0) in
     let finalBreadth := Math_max (breadth - Fin 2) (Fin 0) in
     let squareInches := finalLength * finalBreadth in
     let squareFeet := squareInches / Fin 144 in
     if negb (isFinite squareFeet) || (squareFeet < Fin 0)
     then Throw (new_Error "Invalid calculation result")
     else Return (mkResult finalLength finalBreadth
                    (Math_round (squareFeet * Fin 100) / Fin 100)))
    (fun error =>
       Throw (new_Error ("Exporters calculation failed: " ++ message error))).

Definition calculateOutstationParties (length breadth : number)
  : completion CalculationResult :=
  calculateGraniteShops length breadth.

(** *** The entry point *)

(** A [length] or [breadth] argument as [calculateSquareFeet] inspects it:
    it is compared with [null], [undefined] and the empty string, and
    otherwise only read through [parseFloat].  Any other argument is
    therefore represented by the number [parseFloat] yields for it (for
    a number argument, that number; [NaN] for text that is no number). *)
Inductive argument : Type :=
| Null
| Undefined
| EmptyString
| Value (parsed : number).

Definition parseFloat (a : argument) : number :=
  match a with
  | Value parsed => parsed
  | Null | Undefined | EmptyString => NaN
  end.

(** [a === null || a === undefined || a === ''] *)
Definition is_missing (a : argument) : bool :=
  match a with
  | Null | Undefined | EmptyString => true
  | Value _ => false
  end.

(** The messages pushed for one dimension; [name] is ["Length"] or
    ["Breadth"]. *)
Definition validate_dimension (name : string) (a : argument) : list string :=
  if is_missing a then [name ++ " is required"]
  else
    let num := parseFloat a in
    if isNaN num then [name ++ " must be a valid number"]
    else if num <= Fin 0 then [name ++ " must be greater than 0"]
    else if num > Fin 10000 then [name ++ " cannot exceed 10,000 inches"]
    else [].

(** [!customerType]: the type is [None] for [null] or [undefined]. *)
Definition is_falsy (customerType : option string) : bool :=
  match customerType with
  | None => true
  | Some s => String.eqb s ""
  end.

Definition validate_customerType (customerType : option string) : list string :=
  match customerType with
  | None => ["Customer type is required"]
  | Some s =>
      if is_falsy customerType then ["Customer type is required"]
      else if negb (includes CUSTOMER_TYPES.values s)
      then ["Invalid customer type: " ++ s ++ ". Valid types are: "
              ++ join ", " CUSTOMER_TYPES.values]
      else []
  end.

(** The array [validationErrors] when the three checks are done. *)
Definition validationErrors (length breadth : argument)
  (customerType : option string) : list string :=
  validate_dimension "Length" length
  ++ validate_dimension "Breadth" breadth
  ++ validate_customerType customerType.

(** The [switch] over the customer type. *)
Definition route (customerType : option string) (numLength numBreadth : number)
  : completion CalculationResult :=
  let unsupported (shown : string) :=
    Throw (mkError ("Unsupported customer type: " ++ shown)
             (Some "unsupported_customer_type") None None) in
  match customerType with
  | None => unsupported "null"
  | Some s =>
      if String.eqb s CUSTOMER_TYPES.RETAIL
      then calculateRetail numLength numBreadth
      else if String.eqb s CUSTOMER_TYPES.GRANITE_SHOPS
      then calculateGraniteShops numLength numBreadth
      else if String.eqb s CUSTOMER_TYPES.BUILDERS
      then calculateBuilders numLength numBreadth
      else if String.eqb s CUSTOMER_TYPES.EXPORTERS
      then calculateExporters numLength numBreadth
      else if String.eqb s CUSTOMER_TYPES.OUTSTATION_PARTIES
      then calculateOutstationParties numLength numBreadth
      else unsupported s
  end.

(** [calculationEngine.calculateSquareFeet] *)
Definition calculateSquareFeet (length breadth : argument)
  (customerType : option string) : completion CalculationResult :=
  try_catch
    (let validationErrors := validationErrors length breadth customerType in
     if (0 <? List.length validationErrors)%nat
     then Throw (mkError "Validation failed" (Some "validation")
                   (Some validationErrors) None)
     else
       let numLength := parseFloat length in
       let numBreadth := parseFloat breadth in
       route customerType numLength numBreadth)
    (fun error =>
       if negb (bool_decide (type error = Some "validation"))
       then Throw (mkError ("Calculation failed: " ++ message error)
                     (Some "calculation") None (Some error))
       else Throw error).

(** [calculationEngine.processLength] *)
Definition processLength (length : number) (customerType : string) : number :=
  if String.eqb customerType CUSTOMER_TYPES.RETAIL then length
  else if String.eqb customerType CUSTOMER_TYPES.GRANITE_SHOPS
          || String.eqb customerType CUSTOMER_TYPES.BUILDERS
          || String.eqb customerType CUSTOMER_TYPES.OUTSTATION_PARTIES
  then processLengthForDivisibility length
  else if String.eqb customerType CUSTOMER_TYPES.EXPORTERS
  then Math_max (length - Fin 3) (Fin 0)
  else length.

(** [calculationEngine.processBreadth] *)
Definition processBreadth (breadth : number) (customerType : string) : number :=
  if String.eqb customerType CUSTOMER_TYPES.RETAIL
     || String.eqb customerType CUSTOMER_TYPES.BUILDERS
  then breadth
  else if String.eqb customerType CUSTOMER_TYPES.GRANITE_SHOPS
          || String.eqb customerType CUSTOMER_TYPES.OUTSTATION_PARTIES
  then processBreadthForDivisibility breadth
  else if String.eqb customerType CUSTOMER_TYPES.EXPORTERS
  then Math_max (breadth - Fin 2) (Fin 0)
  else breadth.

(** *** The closed form of the specification *)

(** The closed form the specification proposes for the loop:
    [v - (v % 3)], for [v = raw - subtrahend]. *)
Definition closed_form (v : number) : number :=
  v - rem v (Fin 3).

(** *** Vocabulary of the specification *)

(** The tail the four strategies share, given the final dimensions:
    area, defensive check, rounding to two decimal places. *)
Definition area_result (strategy : string) (finalLength finalBreadth : number)
  : completion CalculationResult :=
  try_catch
    (let squareInches := finalLength * finalBreadth in
     let squareFeet := squareInches / Fin 144 in
     if negb (isFinite squareFeet) || (squareFeet < Fin 0)
     then Throw (new_Error "Invalid calculation result")
     else Return (mkResult finalLength finalBreadth
                    (Math_round (squareFeet * Fin 100) / Fin 100)))
    (fun error =>
       Throw (new_Error (strategy ++ " calculation failed: " ++ message error))).

Local Open Scope Q_scope.

(** [q] is an integer multiple of 3. *)
Definition multiple_of_3 (q : Q) : Prop := exists k : Z, q == inject_Z (3 * k).

(** What an adjuster returns once the loop has returned
    [(processed, iterations)]. *)
Definition after_loop (r : number * nat) : number :=
  if (maxIterations <=? snd r)%nat then Fin 0 else Math_max (fst r) (Fin 0).

(** The property of the specification: the value is [0] or a multiple
    of 3 ([r % 3 === 0]). *)
Definition zero_or_divisible (r : number) : Prop :=
  strict_eq r (Fin 0) = true \/ strict_eq (rem r (Fin 3)) (Fin 0) = true.

(** A call returns the result with these three numbers. *)
Definition result_is (c : completion CalculationResult)
  (final_length final_breadth area : number) : Prop :=
  match c with
  | Return r =>
      same (finalLength r) final_length
      /\ same (finalBreadth r) final_breadth
      /\ same (squareFeet r) area
  | Throw _ => False
  end.

(** A call returns, and the area it returns is finite and not negative. *)
Definition returns_area (c : completion CalculationResult) : Prop :=
  exists r q, c = Return r /\ squareFeet r = Fin q /\ 0 <= q.

(** A call throws an error of type ['validation']. *)
Definition throws_validation (c : completion CalculationResult) : Prop :=
  match c with
  | Throw e => type e = Some "validation"%string
  | Return _ => False
  end.

(** The rule of the specification for a dimension: present, numeric,
    [> 0] and [<= 10,000]. *)
Definition dimension_valid (a : argument) : bool :=
  match a with
  | Value (Fin q) => Qltb 0 q && Qle_bool q 10000
  | _ => false
  end.

(** The rule for the customer type: a recognized token. *)
Definition customerType_valid (customerType : option string) : bool :=
  match customerType with
  | Some s => includes CUSTOMER_TYPES.values s
  | None => false
  end.

(** The number of violated rules among the three arguments. *)
Definition violations (length breadth : argument)
  (customerType : option string) : nat :=
  (if dimension_valid length then 0 else 1)
  + (if dimension_valid breadth then 0 else 1)
  + (if customerType_valid customerType then 0 else 1).

End CalculationEngine.

(** ** The adjusters in the arithmetic of doubles

    A JavaScript number is a double (IEEE 754 binary64): the result of
    [-] is the double nearest to the exact difference.  [JS.sub] above
    is exact; this module rounds, so that the two can be compared.  On
    whole numbers up to [2 ^ 53] they agree (see
    [adjusters_exact_on_safe_integers]); beyond, a subtraction of 1 can
    leave the value as it is.  The remainder [%], the comparisons and
    [Math.max] are exact on doubles and are those of [JS]. *)

Module Binary64.

Import JS CalculationEngine.
Local Open Scope Q_scope.

(** [2 ^ e] *)
Definition pow2 (e : Z) : Q :=
  if (0 <=? e)%Z then inject_Z (2 ^ e) else / inject_Z (2 ^ (- e)).

(** The largest [e] with [2 ^ e <= q], for a positive [q]. *)
Definition floor_log2 (q : Q) : Z :=
  let e := (Z.log2 (Qnum q) - Z.log2 (Zpos (Qden q)))%Z in
  if Qle_bool (pow2 e) q then e else (e - 1)%Z.

(** The nearest whole number, a tie going to the even one. *)
Definition nearest_even (q : Q) : Z :=
  let f := Qfloor q in
  match Qcompare (q - inject_Z f) (1 # 2) with
  | Lt => f
  | Gt => (f + 1)%Z
  | Eq => if Z.even f then f else (f + 1)%Z
  end.

(** The exponent of the last of the 53 bits of the double nearest to
    [q]; subnormal numbers end at [2 ^ -1074]. *)
Definition ulp_exponent (q : Q) : Z :=
  Z.max (floor_log2 (Qabs q) - 52) (-1074).

(** The double nearest to [q] (round to nearest, ties to even); an
    infinity from [2 ^ 1024] on. *)
Definition round (q : Q) : number :=
  let q := Qred q in
  if Qeq_bool q 0 then Fin 0
  else
    let e := ulp_exponent q in
    let rounded := inject_Z (nearest_even (q / pow2 e)) * pow2 e in
    if Qle_bool (pow2 1024) (Qabs rounded) then inf_of_sign (Qsgn q)
    else Fin rounded.

(** [a - b] on doubles *)
Definition sub (a b : number) : number :=
  match JS.sub a b with
  | Fin q => round q
  | r => r
  end.

(** The loop of the adjusters, as in [CalculationEngine], with the
    subtraction of doubles. *)
Fixpoint divisibility_loop (fuel : nat) (processed : number) (iterations : nat)
  : number * nat :=
  match fuel with
  | O => (processed, iterations)
  | S fuel' =>
      if loop_condition processed iterations
      then divisibility_loop fuel' (sub processed (Fin 1)) (S iterations)
      else (processed, iterations)
  end.

(** [processLengthForDivisibility] *)
Definition processLengthForDivisibility (length : number) : number :=
  if lt length (Fin 3) then Fin 0
  else
    let '(processedLength, iterations) :=
      divisibility_loop maxIterations (sub length (Fin 3)) 0 in
    if (maxIterations <=? iterations)%nat then Fin 0
    else Math_max processedLength (Fin 0).

(** [processBreadthForDivisibility] *)
Definition processBreadthForDivisibility (breadth : number) : number :=
  if lt breadth (Fin 2) then Fin 0
  else
    let '(processedBreadth, iterations) :=
      divisibility_loop maxIterations (sub breadth (Fin 2)) 0 in
    if (maxIterations <=? iterations)%nat then Fin 0
    else Math_max processedBreadth (Fin 0).

(** The closed form [v - (v % 3)] of the specification, on doubles. *)
Definition closed_form (v : number) : number :=
  sub v (rem v (Fin 3)).

End Binary64.

(** ** Slab entries and sheet totals
    (the [SlabEntry] model, the slab entry controller,
    [server/database/schema.sql])

    The database is a value that every method takes and returns.  A
    method runs from start to end on its own: the interleaving of
    concurrent transactions is not modelled. *)

Module Persistence.

Local Open Scope Q_scope.

(** *** Tables *)

(** Identifiers are opaque; only their equality is used. *)
Abbreviation uuid := nat (only parsing).

(** [DECIMAL(p,2)] columns hold exact decimal values.  A row and the
    tuple of an [INSERT] hold the values as the columns store them: the
    conversion of a parameter to the type of its column (the rounding
    to two decimal places, the ranges of [DECIMAL(8,2)],
    [DECIMAL(10,2)] and [INTEGER], the lengths of [VARCHAR(50)] and
    [VARCHAR(5)]) comes before and can make the statement fail.  It is
    not modelled, so apart from the examples, whose values the columns
    hold as they are, no property below says that an [INSERT] or an
    [UPDATE] succeeds: they say what holds whether it succeeds or
    fails, or what holds when it has succeeded. *)
Abbreviation decimal := Q (only parsing).

(** A row of [measurement_sheets].  The slab-entry operations read [id]
    and write [total_square_feet]; the other columns are left out. *)
Record sheet_row : Type :=
  mkSheet {
    sheet_id : uuid;
    total_square_feet : decimal
  }.

(** A row of [slab_entries] (timestamps left out). *)
Record slab_row : Type :=
  mkSlab {
    id : uuid;
    measurement_sheet_id : uuid;
    serial_number : Z;
    block_number : string;
    length : decimal;
    breadth : decimal;
    slab_category : string;
    final_length : decimal;
    final_breadth : decimal;
    square_feet : decimal;
    calculation_details : option string
  }.

(** The database: both tables in insertion order, and the number of
    identifiers [uuid_generate_v4()] has produced so far (each call
    yields an identifier not produced before). *)
Record database : Type :=
  mkDb {
    measurement_sheets : list sheet_row;
    slab_entries : list slab_row;
    uuids_generated : nat
  }.

(** *** SQL expressions *)

Definition COALESCE {A : Type} (x : option A) (default : A) : A :=
  match x with
  | Some a => a
  | None => default
  end.

(** [MAX(...)]: [NULL] over no rows. *)
Definition MAX (l : list Z) : option Z :=
  match l with
  | [] => None
  | x :: l' => Some (fold_left Z.max l' x)
  end.

(** [SUM(...)]: [NULL] over no rows. *)
Definition SUM (l : list decimal) : option decimal :=
  match l with
  | [] => None
  | x :: l' => Some (fold_left Qplus l' x)
  end.

(** [SELECT * FROM slab_entries WHERE measurement_sheet_id = sid] *)
Definition entries_of_sheet (sid : uuid) (db : database) : list slab_row :=
  List.filter (fun r => Nat.eqb (measurement_sheet_id r) sid) (slab_entries db).

(** [SELECT id FROM measurement_sheets WHERE id = sid] *)
Definition select_sheet (sid : uuid) (db : database) : list sheet_row :=
  List.filter (fun s => Nat.eqb (sheet_id s) sid) (measurement_sheets db).

(** *** The trigger function [update_measurement_sheet_total] *)

(** [COALESCE(x, y)] where both may be [NULL]. *)
Definition COALESCE_null {A : Type} (x y : option A) : option A :=
  match x with
  | Some a => Some a
  | None => y
  end.

(** [NEW] and [OLD] are [None] where the trigger has no such row; the
    owning sheet is [COALESCE(NEW.measurement_sheet_id,
    OLD.measurement_sheet_id)]. *)
Definition owning_sheet (NEW OLD : option slab_row) : option uuid :=
  COALESCE_null (option_map measurement_sheet_id NEW)
    (option_map measurement_sheet_id OLD).

(** [SELECT COALESCE(SUM(square_feet), 0) FROM slab_entries
     WHERE measurement_sheet_id = sid] *)
Definition recomputed_total (sid : uuid) (db : database) : decimal :=
  COALESCE (SUM (map square_feet (entries_of_sheet sid db))) 0.

Definition update_measurement_sheet_total (NEW OLD : option slab_row)
  (db : database) : database :=
  match owning_sheet NEW OLD with
  | None => db
  | Some sid =>
      let total := recomputed_total sid db in
      mkDb
        (map (fun s => if Nat.eqb (sheet_id s) sid
                       then mkSheet (sheet_id s) total else s)
           (measurement_sheets db))
        (slab_entries db)
        (uuids_generated db)
  end.

(** The [AFTER ... FOR EACH ROW] triggers of one statement: they run
    when the statement has changed all its rows, once per changed row,
    given as pairs [(NEW, OLD)]. *)
Definition fire_row_triggers (events : list (option slab_row * option slab_row))
  (db : database) : database :=
  fold_left (fun d ev => update_measurement_sheet_total (fst ev) (snd ev) d)
    events db.

(** *** Constraints of [slab_entries] *)

Definition valid_categories : list string := ["F"; "LD"; "D"; "S"]%string.

(** [CHECK (length > 0)], [CHECK (breadth > 0)],
    [CHECK (slab_category IN ('F', 'LD', 'D', 'S'))] *)
Definition row_checks (r : slab_row) : bool :=
  JS.Qltb 0 (length r) && JS.Qltb 0 (breadth r)
  && existsb (String.eqb (slab_category r)) valid_categories.

(** [REFERENCES measurement_sheets(id)] *)
Definition foreign_key_ok (r : slab_row) (db : database) : bool :=
  existsb (fun s => Nat.eqb (sheet_id s) (measurement_sheet_id r))
    (measurement_sheets db).

(** [UNIQUE(measurement_sheet_id, serial_number)] against the rows
    already in [rows]. *)
Definition unique_ok (r : slab_row) (rows : list slab_row) : bool :=
  negb (existsb (fun r' => Nat.eqb (measurement_sheet_id r') (measurement_sheet_id r)
                           && Z.eqb (serial_number r') (serial_number r))
          rows).

(** *** Statements *)

(** A statement either succeeds with the new database and the rows of
    its [RETURNING] clause, or fails and changes nothing. *)
Inductive statement_result : Type :=
| Done (db : database) (returning : list slab_row)
| Failed.

(** The values of one [VALUES (...)] tuple: every column but [id]. *)
Record insert_values : Type :=
  mkValues {
    v_measurement_sheet_id : uuid;
    v_serial_number : Z;
    v_block_number : string;
    v_length : decimal;
    v_breadth : decimal;
    v_slab_category : string;
    v_final_length : decimal;
    v_final_breadth : decimal;
    v_square_feet : decimal;
    v_calculation_details : option string
  }.

Definition row_of_values (new_id : uuid) (v : insert_values) : slab_row :=
  mkSlab new_id (v_measurement_sheet_id v) (v_serial_number v)
    (v_block_number v) (v_length v) (v_breadth v) (v_slab_category v)
    (v_final_length v) (v_final_breadth v) (v_square_feet v)
    (v_calculation_details v).

(** Adds the tuples one after the other; [None] when a constraint
    rejects one of them. *)
Fixpoint insert_rows (vs : list insert_values) (db : database)
  : option (database * list slab_row) :=
  match vs with
  | [] => Some (db, [])
  | v :: vs' =>
      let r := row_of_values (uuids_generated db) v in
      if row_checks r && foreign_key_ok r db && unique_ok r (slab_entries db)
      then
        match insert_rows vs'
                (mkDb (measurement_sheets db) (slab_entries db ++ [r])
                   (S (uuids_generated db))) with
        | Some (db', rs) => Some (db', r :: rs)
        | None => None
        end
      else None
  end.

(** [INSERT INTO slab_entries (...) VALUES ... RETURNING *].  A
    statement with no tuple at all is a syntax error. *)
Definition INSERT (vs : list insert_values) (db : database) : statement_result :=
  match vs with
  | [] => Failed
  | _ =>
      match insert_rows vs db with
      | Some (db', rs) =>
          Done (fire_row_triggers (map (fun r => (Some r, None)) rs) db') rs
      | None => Failed
      end
  end.

(** The [SET] list of the [UPDATE] statements: a [None] parameter keeps
    the column ([col = COALESCE($i, col)]). *)
Record updateData : Type :=
  mkUpdate {
    u_blockNumber : option string;
    u_length : option decimal;
    u_breadth : option decimal;
    u_slabCategory : option string;
    u_finalLength : option decimal;
    u_finalBreadth : option decimal;
    u_squareFeet : option decimal;
    u_calculationDetails : option string
  }.

Definition set_columns (u : updateData) (r : slab_row) : slab_row :=
  mkSlab (id r) (measurement_sheet_id r) (serial_number r)
    (COALESCE (u_blockNumber u) (block_number r))
    (COALESCE (u_length u) (length r))
    (COALESCE (u_breadth u) (breadth r))
    (COALESCE (u_slabCategory u) (slab_category r))
    (COALESCE (u_finalLength u) (final_length r))
    (COALESCE (u_finalBreadth u) (final_breadth r))
    (COALESCE (u_squareFeet u) (square_feet r))
    (COALESCE_null (u_calculationDetails u) (calculation_details r)).

(** [UPDATE slab_entries SET ... WHERE id = target RETURNING *] *)
Definition UPDATE (u : updateData) (target : uuid) (db : database)
  : statement_result :=
  let hit := List.filter (fun r => Nat.eqb (id r) target) (slab_entries db) in
  if forallb (fun r => row_checks (set_columns u r)) hit
  then
    Done
      (fire_row_triggers (map (fun r => (Some (set_columns u r), Some r)) hit)
         (mkDb (measurement_sheets db)
            (map (fun r => if Nat.eqb (id r) target then set_columns u r else r)
               (slab_entries db))
            (uuids_generated db)))
      (map (set_columns u) hit)
  else Failed.

(** [DELETE FROM slab_entries WHERE id = ANY(targets) RETURNING ...];
    [WHERE id = $1] is the case of one target. *)
Definition DELETE (targets : list uuid) (db : database) : statement_result :=
  let hit (r : slab_row) := existsb (Nat.eqb (id r)) targets in
  let deleted := List.filter hit (slab_entries db) in
  Done
    (fire_row_triggers (map (fun r => (None, Some r)) deleted)
       (mkDb (measurement_sheets db)
          (List.filter (fun r => negb (hit r)) (slab_entries db))
          (uuids_generated db)))
    deleted.

(** *** The [SlabEntry] model *)

(** How an [async] method settles. *)
Inductive failure : Type :=
| Error (message : string)
| DatabaseError.

Inductive outcome (A : Type) : Type :=
| Resolved (a : A)
| Rejected (e : failure).

Arguments Resolved {A} a.
Arguments Rejected {A} e.

(** The object passed to [create], and each element of the array passed
    to [batchCreate]. *)
Record slabEntryData : Type :=
  mkData {
    measurementSheetId : uuid;
    blockNumber : string;
    d_length : decimal;
    d_breadth : decimal;
    slabCategory : string;
    finalLength : decimal;
    finalBreadth : decimal;
    squareFeet : decimal;
    calculationDetails : option string
  }.

Definition values_of (sid : uuid) (serialNumber : Z) (d : slabEntryData)
  : insert_values :=
  mkValues sid serialNumber (blockNumber d) (d_length d) (d_breadth d)
    (slabCategory d) (finalLength d) (finalBreadth d) (squareFeet d)
    (calculationDetails d).

(** The value of [COALESCE(MAX(serial_number), 0)] over the entries of
    a sheet. *)
Definition max_serial (sid : uuid) (db : database) : Z :=
  COALESCE (MAX (map serial_number (entries_of_sheet sid db))) 0%Z.

(** The end of the query that reads it: nothing, as in the controller,
    or [FOR UPDATE], as in the [SlabEntry] model. *)
Inductive locking_clause : Type :=
| NoLock
| FOR_UPDATE.

(** [SELECT COALESCE(MAX(serial_number), 0) ... FROM slab_entries
     WHERE measurement_sheet_id = sid], with the given end.  PostgreSQL
    does not accept a locking clause on a query with an aggregate
    function: whatever the table holds, the statement fails with
    "FOR UPDATE is not allowed with aggregate functions" and returns no
    row.  [None] is that error. *)
Definition serial_query (lock : locking_clause) (sid : uuid) (db : database)
  : option Z :=
  match lock with
  | NoLock => Some (max_serial sid db)
  | FOR_UPDATE => None
  end.

(** [SlabEntry.create]: one transaction; a failure before [COMMIT]
    rolls back to the database the call started from.  The cache calls
    after [COMMIT] do not touch the database and never throw (see
    [Cache]). *)
Definition create (d : slabEntryData) (db : database)
  : database * outcome slab_row :=
  if Nat.eqb (List.length (select_sheet (measurementSheetId d) db)) 0
  then (db, Rejected (Error "Measurement sheet not found"))
  else
    match serial_query FOR_UPDATE (measurementSheetId d) db with
    | None => (db, Rejected DatabaseError)
    | Some max =>
        let serialNumber := (max + 1)%Z in
        match INSERT [values_of (measurementSheetId d) serialNumber d] db with
        | Failed => (db, Rejected DatabaseError)
        | Done db' rows =>
            match rows with
            | r :: _ => (db', Resolved r)
            | [] => (db', Rejected DatabaseError)
            end
        end
    end.

(** The tuples [batchCreate] builds in its [for] loop:
    [currentSerial++] before each one. *)
Fixpoint batch_values (sid : uuid) (currentSerial : Z) (l : list slabEntryData)
  : list insert_values :=
  match l with
  | [] => []
  | entryData :: l' =>
      let currentSerial := (currentSerial + 1)%Z in
      values_of sid currentSerial entryData :: batch_values sid currentSerial l'
  end.

(** [SlabEntry.batchCreate] *)
Definition batchCreate (sid : uuid) (slabEntriesData : list slabEntryData)
  (db : database) : database * outcome (list slab_row) :=
  if Nat.eqb (List.length (select_sheet sid db)) 0
  then (db, Rejected (Error "Measurement sheet not found"))
  else
    match serial_query FOR_UPDATE sid db with
    | None => (db, Rejected DatabaseError)
    | Some currentSerial =>
        match INSERT (batch_values sid currentSerial slabEntriesData) db with
        | Failed => (db, Rejected DatabaseError)
        | Done db' rows => (db', Resolved rows)
        end
    end.

(** [slabEntry.update(updateData)]; [this] is the instance.  The
    returned instance keeps its identity and takes the other properties
    from the updated row. *)
Definition update (this : slab_row) (u : updateData) (db : database)
  : database * outcome slab_row :=
  match UPDATE u (id this) db with
  | Failed => (db, Rejected DatabaseError)
  | Done db' rows =>
      match rows with
      | [] => (db', Rejected (Error "Slab entry not found"))
      | updatedData :: _ =>
          (db',
           Resolved
             (mkSlab (id this) (measurement_sheet_id this) (serial_number this)
                (block_number updatedData) (length updatedData)
                (breadth updatedData) (slab_category updatedData)
                (final_length updatedData) (final_breadth updatedData)
                (square_feet updatedData) (calculation_details updatedData)))
      end
  end.

(** [slabEntry.delete()] *)
Definition delete (this : slab_row) (db : database) : database * outcome bool :=
  match DELETE [id this] db with
  | Failed => (db, Rejected DatabaseError)
  | Done db' rows =>
      match rows with
      | [] => (db', Rejected (Error "Slab entry not found"))
      | _ :: _ => (db', Resolved true)
      end
  end.

(** [SlabEntry.batchUpdate]: the statements of one transaction, each on
    the database the previous one left; a failing statement rolls the
    whole transaction back. *)
Fixpoint batch_update_statements (updates : list (uuid * updateData))
  (db : database) : option (database * list slab_row) :=
  match updates with
  | [] => Some (db, [])
  | (target, u) :: updates' =>
      match UPDATE u target db with
      | Failed => None
      | Done db' rows =>
          match batch_update_statements updates' db' with
          | Some (db'', updatedEntries) =>
              Some (db'', match rows with
                          | r :: _ => r :: updatedEntries
                          | [] => updatedEntries
                          end)
          | None => None
          end
      end
  end.

Definition batchUpdate (updates : list (uuid * updateData)) (db : database)
  : database * outcome (list slab_row) :=
  match batch_update_statements updates db with
  | Some (db', updatedEntries) => (db', Resolved updatedEntries)
  | None => (db, Rejected DatabaseError)
  end.

(** [SlabEntry.batchDelete]: the entries are deleted by one statement
    (the value the method resolves to is not modelled). *)
Definition batchDelete (ids : list uuid) (db : database)
  : database * outcome unit :=
  match DELETE ids db with
  | Failed => (db, Rejected DatabaseError)
  | Done db' _ => (db', Resolved tt)
  end.

(** *** The slab entry controller
    ([createSlabEntry], [batchCreateSlabEntries])

    The routes of the server call these handlers, not the [SlabEntry]
    model.  The body of the request is taken with the types the
    handlers expect (a sheet identifier, texts, numbers); the status of
    the response is modelled, its message is not. *)

(** The response: 201 with [data], 400, 404 or 500. *)
Inductive response (A : Type) : Type :=
| Created (data : A)
| BadRequest
| NotFound
| ServerError.

Arguments Created {A} data.
Arguments BadRequest {A}.
Arguments NotFound {A}.
Arguments ServerError {A}.

(** [createSlabEntry].  [!blockNumber] and [!slabCategory] hold for the
    empty text, [!length] and [!breadth] for 0.  Each statement is a
    transaction of its own; the handler answers 201 with
    [result.rows[0]]. *)
Definition createSlabEntry (d : slabEntryData) (db : database)
  : database * response (option slab_row) :=
  if String.eqb (blockNumber d) "" || Qeq_bool (d_length d) 0
     || Qeq_bool (d_breadth d) 0 || String.eqb (slabCategory d) ""
  then (db, BadRequest)
  else if Qle_bool (d_length d) 0 || Qle_bool (d_breadth d) 0
  then (db, BadRequest)
  else if negb (existsb (String.eqb (slabCategory d)) valid_categories)
  then (db, BadRequest)
  else if Nat.eqb (List.length (select_sheet (measurementSheetId d) db)) 0
  then (db, NotFound)
  else
    match serial_query NoLock (measurementSheetId d) db with
    | None => (db, ServerError)
    | Some max =>
        let serialNumber := (max + 1)%Z in
        match INSERT [values_of (measurementSheetId d) serialNumber d] db with
        | Failed => (db, ServerError)
        | Done db' rows => (db', Created (hd_error rows))
        end
    end.

(** The [for] loop of [batchCreateSlabEntries]: each turn reads the
    next serial number of the sheet and inserts one row; [None] when a
    statement fails.  A successful [INSERT] of one row returns that
    row, which the loop pushes on [createdEntries]. *)
Fixpoint insert_one_by_one (measurementSheetId : uuid)
  (slabEntries : list slabEntryData) (db : database)
  : option (database * list slab_row) :=
  match slabEntries with
  | [] => Some (db, [])
  | entry :: slabEntries' =>
      match serial_query NoLock measurementSheetId db with
      | None => None
      | Some max =>
          let serialNumber := (max + 1)%Z in
          match INSERT [values_of measurementSheetId serialNumber entry] db with
          | Failed => None
          | Done db' rows =>
              match insert_one_by_one measurementSheetId slabEntries' db' with
              | Some (db'', createdEntries) =>
                  Some (db'', match rows with
                              | r :: _ => r :: createdEntries
                              | [] => createdEntries
                              end)
              | None => None
              end
          end
      end
  end.

(** [batchCreateSlabEntries] on a body with a sheet identifier and an
    array of entries.  The loop runs between [BEGIN] and [COMMIT]; a
    failure inside rolls back to the database the call started from. *)
Definition batchCreateSlabEntries (measurementSheetId : uuid)
  (slabEntries : list slabEntryData) (db : database)
  : database * response (list slab_row) :=
  if Nat.eqb (List.length slabEntries) 0
  then (db, BadRequest)
  else if Nat.eqb (List.length (select_sheet measurementSheetId db)) 0
  then (db, NotFound)
  else
    match insert_one_by_one measurementSheetId slabEntries db with
    | Some (db', createdEntries) => (db', Created createdEntries)
    | None => (db, ServerError)
    end.

(** *** Auxiliary vocabulary *)

(** The effect of running the trigger function for the sheets [sids]:
    their totals are recomputed, nothing else changes. *)
Definition recompute (sids : list uuid) (db : database) : database :=
  mkDb
    (map (fun s => if existsb (Nat.eqb (sheet_id s)) sids
                   then mkSheet (sheet_id s) (recomputed_total (sheet_id s) db)
                   else s)
       (measurement_sheets db))
    (slab_entries db)
    (uuids_generated db).

(** The sheets for which a list of trigger events runs the function. *)
Definition event_sheets (events : list (option slab_row * option slab_row))
  : list uuid :=
  flat_map (fun ev => match owning_sheet (fst ev) (snd ev) with
                      | Some sid => [sid]
                      | None => []
                      end) events.

(** Two lists of sheets that differ at most in the total of the sheet
    [sid]. *)
Definition agree (sid : uuid) (l1 l2 : list sheet_row) : Prop :=
  Forall2 (fun s1 s2 => sheet_id s1 = sheet_id s2
                        /\ (sheet_id s1 <> sid -> s1 = s2)) l1 l2.

(** [first + 1, ..., first + n] *)
Definition consecutive (first : Z) (n : nat) : list Z :=
  map (fun k => (first + Z.of_nat k)%Z) (seq 1 n).

(** *** Sequences of operations *)

(** The calls that change slab entries: the methods of the model and
    the two handlers of the controller that create entries. *)
Inductive operation : Type :=
| Create (d : slabEntryData)
| BatchCreate (sid : uuid) (l : list slabEntryData)
| Update (this : slab_row) (u : updateData)
| Delete (this : slab_row)
| BatchUpdate (updates : list (uuid * updateData))
| BatchDelete (ids : list uuid)
| CreateSlabEntry (d : slabEntryData)
| BatchCreateSlabEntries (sid : uuid) (l : list slabEntryData).

(** The database an operation leaves (the one it found, if it failed
    before committing). *)
Definition perform (o : operation) (db : database) : database :=
  match o with
  | Create d => fst (create d db)
  | BatchCreate sid l => fst (batchCreate sid l db)
  | Update this u => fst (update this u db)
  | Delete this => fst (delete this db)
  | BatchUpdate updates => fst (batchUpdate updates db)
  | BatchDelete ids => fst (batchDelete ids db)
  | CreateSlabEntry d => fst (createSlabEntry d db)
  | BatchCreateSlabEntries sid l => fst (batchCreateSlabEntries sid l db)
  end.

Definition perform_all (ops : list operation) (db : database) : database :=
  fold_left (fun d o => perform o d) ops db.

(** The operations that delete entries. *)
Definition deletes (o : operation) : bool :=
  match o with
  | Delete _ | BatchDelete _ => true
  | _ => false
  end.

(** *** What the specification asks of the tables *)

(** The serial numbers of a sheet, in insertion order. *)
Definition serials (sid : uuid) (db : database) : list Z :=
  map serial_number (entries_of_sheet sid db).

(** [1, 2, ..., n] *)
Definition one_to (n : nat) : list Z := map Z.of_nat (seq 1 n).

(** The serial numbers of sheet [sid] are exactly [1..N], [N] its number
    of entries. *)
Definition dense (sid : uuid) (db : database) : Prop :=
  serials sid db = one_to (List.length (entries_of_sheet sid db)).

(** The sum of the areas of a list of entries. *)
Definition sum_of_areas (rows : list slab_row) : decimal :=
  fold_right (fun r acc => square_feet r + acc) 0 rows.

(** [totalArea(sheet) == sum of area(lineItem)], for one sheet row. *)
Definition total_matches (s : sheet_row) (db : database) : Prop :=
  total_square_feet s == sum_of_areas (entries_of_sheet (sheet_id s) db).

(** ... for every sheet of the database. *)
Definition totals_consistent (db : database) : Prop :=
  Forall (fun s => total_matches s db) (measurement_sheets db).

(** *** A small database, for the examples *)

Module Example.
(** One sheet, no entries. *)
Definition db : database := mkDb [mkSheet 7 0] [] 0.

Definition slab (l b area : decimal) : slabEntryData :=
  mkData 7 "B-12" l b "F" l b area None.

Definition resize (l : decimal) : updateData :=
  mkUpdate None (Some l) None None (Some l) None (Some 10) None.

(** The row [createSlabEntry] stores first on [db]. *)
Definition first_row : slab_row :=
  mkSlab 0 7 1 "B-12" 144 144 "F" 144 144 144 None.

Definition inserts : list operation :=
  [CreateSlabEntry (slab 144 144 144);
   BatchCreateSlabEntries 7 [slab 150 100 104.17; slab 12 12 1];
   Update first_row (resize 120); CreateSlabEntry (slab 24 24 4)].

Definition mutations : list operation :=
  inserts ++ [Delete first_row; BatchDelete [1%nat; 5%nat]].
End Example.

End Persistence.

(** ** The cache helper ([server/config/redis.js]) *)

Module Cache.

(** *** The Redis client and [JSON], as the helper uses them *)

(** How a call into the client or into [JSON] ends: with a value, or by
    throwing (for a promise: by rejecting). *)
Inductive reply (A : Type) : Type :=
| Ok (a : A)
| Fails.

Arguments Ok {A} a.
Arguments Fails {A}.

(** The client's commands.  [connection] is the state of the client and
    of the server behind it; a command may change it, and it either
    returns or fails (a command that never settles is not modelled). *)
Class RedisClient (connection : Type) : Type :=
  {
    client_get : string -> connection -> connection * reply (option string);
    client_setEx : string -> Z -> string -> connection -> connection * reply unit;
    client_del : list string -> connection -> connection * reply Z;
    client_keys : string -> connection -> connection * reply (list string)
  }.

(** [JSON.parse] and [JSON.stringify] on cached values of type [value]. *)
Class JSON (value : Type) : Type :=
  {
    JSON_parse : string -> reply value;
    JSON_stringify : value -> reply string
  }.

(** *** Computations that use the connection and may throw *)

Definition M (connection A : Type) : Type :=
  connection -> connection * reply A.

Definition ret {connection A : Type} (a : A) : M connection A :=
  fun c => (c, Ok a).

Definition bind {connection A B : Type} (m : M connection A)
  (k : A -> M connection B) : M connection B :=
  fun c =>
    match m c with
    | (c', Ok a) => k a c'
    | (c', Fails) => (c', Fails)
    end.

(** A call that uses no connection, such as [JSON.parse]. *)
Definition pure_call {connection A : Type} (r : reply A) : M connection A :=
  fun c => (c, r).

(** [try { body } catch (error) { handler }] *)
Definition try_catch {connection A : Type} (body handler : M connection A)
  : M connection A :=
  fun c =>
    match body c with
    | (c', Ok a) => (c', Ok a)
    | (c', Fails) => handler c'
    end.

Notation "'await' x ':=' m 'in' k" := (bind m (fun x => k))
  (at level 10, x name, m at level 100, k at level 200).

(** *** The helper *)

Section Helper.

Context {connection value : Type}.
Context {client : RedisClient connection} {json : JSON value}.

(** [process.env.REDIS_HOST]; [None] when the variable is not set. *)
Variable REDIS_HOST : option string.

(** [!process.env.REDIS_HOST] *)
Definition not_configured : bool :=
  match REDIS_HOST with
  | None => true
  | Some host => String.eqb host ""
  end.

(** [cache.get(key)]: [None] is [null]. *)
Definition get (key : string) : M connection (option value) :=
  try_catch
    (if not_configured then ret None
     else
       await v := client_get key in
       match v with
       | None => ret None
       | Some text =>
           if String.eqb text "" then ret None
           else await parsed := pure_call (JSON_parse text) in ret (Some parsed)
       end)
    (ret None).

(** [cache.set(key, value, expireInSeconds)] *)
Definition set (key : string) (v : value) (expireInSeconds : Z)
  : M connection bool :=
  try_catch
    (if not_configured then ret false
     else
       await text := pure_call (JSON_stringify v) in
       await _ := client_setEx key expireInSeconds text in
       ret true)
    (ret false).

(** The default of [expireInSeconds]. *)
Definition set_default (key : string) (v : value) : M connection bool :=
  set key v 3600.

(** [cache.del(key)] *)
Definition del (key : string) : M connection bool :=
  try_catch
    (if not_configured then ret false
     else
       await _ := client_del [key] in
       ret true)
    (ret false).

(** [cache.clearPattern(pattern)] *)
Definition clearPattern (pattern : string) : M connection bool :=
  try_catch
    (if not_configured then ret false
     else
       await keys := client_keys pattern in
       if (0 <? List.length keys)%nat
       then await _ := client_del keys in ret true
       else ret true)
    (ret false).

End Helper.

(** *** A Redis server that works *)

Section Server.

(** [glob pattern key]: the key matches the pattern of [KEYS]. *)
Variable glob : string -> string -> bool.

(** The keys of the store that match a pattern. *)
Definition matching (pattern : string) (store : gmap string string)
  : list string :=
  List.filter (glob pattern) (map fst (map_to_list store)).

(** The times to live [SETEX] takes: whole seconds from 1 on.  For 0
    or less the server replies with the error "invalid expire time in
    'setex' command".  Beyond [2 ^ 31 - 1] seconds the versions of
    Redis differ (the milliseconds may overflow); the server below
    refuses them, and the properties stay within the range. *)
Definition valid_expire (seconds : Z) : bool :=
  (0 <? seconds)%Z && (seconds <=? 2147483647)%Z.

(** A server that holds its keys in a finite map and answers every
    command.  Time is not modelled: the store is the one a client sees
    while no entry has expired.  [DEL] replies with the number of keys
    it removed. *)
Definition server : RedisClient (gmap string string) :=
  {|
    client_get := fun key store => (store, Ok (store !! key));
    client_setEx := fun key seconds text store =>
      if valid_expire seconds then (<[key := text]> store, Ok tt)
      else (store, Fails);
    client_del := fun keys store =>
      (foldr delete store keys,
       Ok (Z.of_nat (List.length
                       (List.filter (fun k => bool_decide (is_Some (store !! k)))
                          keys))));
    client_keys := fun pattern store => (store, Ok (matching pattern store))
  |}.

End Server.

(** *** Instances for the examples *)

Module Example.
(** A client every command of which fails. *)
Definition unreachable : RedisClient unit :=
  {|
    client_get := fun _ c => (c, Fails);
    client_setEx := fun _ _ _ c => (c, Fails);
    client_del := fun _ c => (c, Fails);
    client_keys := fun _ c => (c, Fails)
  |}.

(** Cached values that are their own JSON text. *)
Definition text_json : JSON string :=
  {| JSON_parse := fun text => Ok text; JSON_stringify := fun v => Ok v |}.

(** A pattern ["prefix*"] written as its prefix. *)
Definition prefix_glob (pattern key : string) : bool :=
  String.prefix pattern key.

Definition store : gmap string string :=
  <["measurement_sheet_full:7" := "{}"]> ∅.
End Example.

End Cache.

(** ** Further vocabulary for the calculation engine *)

Module EngineTerms.

Import JS CalculationEngine.
Local Open Scope Q_scope.

(** [q] is not a whole number. *)
Definition fractional (q : Q) : Prop := forall z : Z, ~ q == inject_Z z.

(** [q] is a double: rounding gives [q] back. *)
Definition is_double (q : Q) : Prop :=
  exists q', Binary64.round q = Fin q' /\ q' == q.

(** A number that is at most [d]. *)
Definition below (d : Q) (v : number) : Prop :=
  match v with
  | Fin r => r <= d
  | NegInf => True
  | _ => False
  end.

(** Both calls return, the first with an area at most the second's. *)
Definition area_le (c1 c2 : completion CalculationResult) : Prop :=
  exists r1 r2 q1 q2,
    c1 = Return r1 /\ c2 = Return r2
    /\ squareFeet r1 = Fin q1 /\ squareFeet r2 = Fin q2
    /\ q1 <= q2.

(** The strategy the [switch] of [calculateSquareFeet] picks for a
    recognized customer type, as the pair of its final dimensions. *)
Definition final_dimensions (customerType : string) (length breadth : number)
  : number * number :=
  (processLength length customerType, processBreadth breadth customerType).

End EngineTerms.

(** ** The other validators of a dimension
    (the form helpers [validatePositiveNumber], the API middleware
    [validateSlabEntryData]) and the customer types of the server *)

Module Validators.

Import JS CalculationEngine.
Local Open Scope js_scope.
Local Open Scope string_scope.

(** [validatePositiveNumber(value, fieldName)] of the form helpers. *)
Definition validatePositiveNumber (value : argument) (fieldName : string)
  : list string :=
  if is_missing value then [fieldName ++ " is required"]
  else
    let numValue := parseFloat value in
    if isNaN numValue then [fieldName ++ " must be a valid number"]
    else if numValue <= Fin 0 then [fieldName ++ " must be greater than 0"]
    else if numValue > Fin 10000 then [fieldName ++ " must be less than 10,000"]
    else [].

(** [a === null || a === undefined] *)
Definition is_null_or_undefined (a : argument) : bool :=
  match a with
  | Null | Undefined => true
  | EmptyString | Value _ => false
  end.

(** The block of the middleware [validateSlabEntryData] that checks
    [length] (and, with the other name, [breadth]): the messages it
    pushes.  The empty string is not singled out here; [parseFloat]
    turns it into [NaN]. *)
Definition validateSlabEntryData_dimension (name : string) (a : argument)
  : list string :=
  if is_null_or_undefined a then [name ++ " is required"]
  else
    let num := parseFloat a in
    if isNaN num then [name ++ " must be a valid number"]
    else if num <= Fin 0 then [name ++ " must be greater than 0"]
    else if num > Fin 10000 then [name ++ " cannot exceed 10,000 inches"]
    else [].

(** [validCustomerTypes] of [MeasurementSheet.create], of the
    middleware [validateMeasurementSheetData] and of the [CHECK] on
    [measurement_sheets.customer_type]. *)
Definition validCustomerTypes : list string :=
  ["Retail"; "Granite Shops"; "Builders"; "Outstation Parties"; "Exporters"].

End Validators.

(** ** The Redis client's reconnection and key patterns
    ([server/config/redis.js]) *)

Module Redis.

Import Stdlib.Strings.Ascii.

(** The [options] the client hands to [retry_strategy]:
    [options.error.code] ([None] when [options.error] is missing or has
    no code), [options.total_retry_time] in milliseconds and
    [options.attempt]. *)
Record retry_options : Type :=
  mkOptions {
    error_code : option string;
    total_retry_time : Z;
    attempt : Z
  }.

(** What [retry_strategy] returns: an [Error] (the client gives up with
    it), [undefined] (the client stops) or the delay before the next
    attempt, in milliseconds. *)
Inductive retry_decision : Type :=
| GiveUp (message : string)
| StopRetrying
| RetryAfter (milliseconds : Z).

Definition retry_strategy (options : retry_options) : retry_decision :=
  if match error_code options with
     | Some code => String.eqb code "ECONNREFUSED"
     | None => false
     end
  then GiveUp "Redis server connection refused"
  else if (1000 * 60 * 60 <? total_retry_time options)%Z
  then GiveUp "Retry time exhausted"
  else if (10 <? attempt options)%Z
  then StopRetrying
  else RetryAfter (Z.min (attempt options * 100) 3000).

(** The matching of [KEYS pattern], for a pattern without the classes
    [[...]] and the escape [\] of Redis: [*] matches any run of
    characters, [?] any one character, another character itself.  The
    patterns of the program are texts such as ["slab_entries:*"], and
    the properties below are about patterns whose other characters
    are [plain]. *)
Fixpoint glob (pattern key : string) : bool :=
  match pattern with
  | EmptyString =>
      match key with
      | EmptyString => true
      | String _ _ => false
      end
  | String c pattern' =>
      if Ascii.eqb c "*"%char
      then
        (fix star (key : string) : bool :=
           glob pattern' key
           || match key with
              | EmptyString => false
              | String _ key' => star key'
              end) key
      else
        match key with
        | EmptyString => false
        | String c' key' =>
            (Ascii.eqb c "?"%char || Ascii.eqb c c') && glob pattern' key'
        end
  end.

(** A character that stands for itself in a pattern of [KEYS]: any
    but [*], [?], the opening bracket of a class and the backslash
    (character 92). *)
Definition literal (c : ascii) : bool :=
  negb (Ascii.eqb c "*"%char) && negb (Ascii.eqb c "?"%char)
  && negb (Ascii.eqb c "["%char) && negb (Ascii.eqb c (ascii_of_nat 92)).

(** A pattern text of such characters only. *)
Fixpoint plain (text : string) : bool :=
  match text with
  | EmptyString => true
  | String c text' => literal c && plain text'
  end.

End Redis.

(** ** Measurement sheets and their cache entries
    ([server/models/MeasurementSheet.js], the cache calls of the
    [SlabEntry] model) *)

Module Sheets.

Import JS Cache.
Local Open Scope string_scope.

(** *** Values and objects *)

(** The values a row of the database, an argument or a parsed JSON
    object holds.  A timestamp is represented by its text; an array is
    an array of rows. *)
#[local] Set Warnings "-register-all".
Inductive jsvalue : Type :=
| Undefined
| Null
| Str (text : string)
| Num (n : number)
| Arr (rows : list (list (string * jsvalue))).

Abbreviation object := (list (string * jsvalue)) (only parsing).

(** [data.name]: [undefined] when the object has no such property. *)
Fixpoint prop (data : object) (name : string) : jsvalue :=
  match data with
  | [] => Undefined
  | (key, value) :: data' =>
      if String.eqb key name then value else prop data' name
  end.

(** [data.name = value] *)
Definition assign (data : object) (name : string) (value : jsvalue) : object :=
  (name, value) :: List.filter (fun kv => negb (String.eqb (fst kv) name)) data.

(** Truthiness, as [if (v)], [!v] and [v || w] test it. *)
Definition truthy (v : jsvalue) : bool :=
  match v with
  | Undefined | Null => false
  | Str text => negb (String.eqb text "")
  | Num n => negb (isNaN n) && negb (strict_eq n (Fin 0))
  | Arr _ => true
  end.

(** [array.includes(v)] on an array of strings *)
Definition is_one_of (l : list string) (v : jsvalue) : bool :=
  match v with
  | Str text => existsb (String.eqb text) l
  | _ => false
  end.

(** *** The class [MeasurementSheet] *)

Record MeasurementSheet : Type :=
  mkMeasurementSheet {
    id : jsvalue;
    measurementSheetNumber : jsvalue;
    customerId : jsvalue;
    customerType : jsvalue;
    totalSquareFeet : number;
    status : jsvalue;
    createdAt : jsvalue;
    updatedAt : jsvalue;
    customerName : jsvalue;
    customerPhone : jsvalue;
    customerEmail : jsvalue;
    customerAddress : jsvalue;
    slabEntries : jsvalue
  }.

(** [toJSON()]: what [JSON.stringify] serializes for an instance. *)
Definition toJSON (this : MeasurementSheet) : object :=
  [("id", id this);
   ("measurementSheetNumber", measurementSheetNumber this);
   ("customerId", customerId this);
   ("customerType", customerType this);
   ("totalSquareFeet", Num (totalSquareFeet this));
   ("status", status this);
   ("createdAt", createdAt this);
   ("updatedAt", updatedAt this);
   ("customerName", customerName this);
   ("customerPhone", customerPhone this);
   ("customerEmail", customerEmail this);
   ("customerAddress", customerAddress this);
   ("slabEntries", slabEntries this)].

(** A [const] or [let] of a block: it exists from the start of the
    block and cannot be read before its declaration has run. *)
Inductive binding (A : Type) : Type :=
| Uninitialized
| Initialized (a : A).

Arguments Uninitialized {A}.
Arguments Initialized {A} a.

(** The statements the model sends with [client.query]. *)
Inductive statement : Type :=
| BEGIN
| COMMIT
| ROLLBACK
| SELECT_customer
| INSERT_measurement_sheet
| SELECT_sheet_with_customer
| SELECT_slab_entries
| UPDATE_status.

(** The connection pool: [pool.connect()], [client.query(text, params)]
    with the rows of its result, and [client.release()].  [pg] is the
    state of the database and of the pool. *)
Class Pool (pg : Type) : Type :=
  {
    pool_connect : pg -> pg * reply unit;
    client_query : statement -> list jsvalue -> pg -> pg * reply (list object);
    client_release : pg -> pg
  }.

(** *** Control *)

Definition throw {state A : Type} : M state A :=
  fun s => (s, Fails).

(** [try { body } finally { cleanup }] with a cleanup that cannot fail. *)
Definition finally {state A : Type} (body : M state A) (cleanup : state -> state)
  : M state A :=
  fun s =>
    match body s with
    | (s', r) => (cleanup s', r)
    end.

(** [try { body } catch (error) { await handler; throw error; }] *)
Definition catch_rethrow {state A : Type} (body : M state A)
  (handler : M state unit) : M state A :=
  fun s =>
    match body s with
    | (s', Ok a) => (s', Ok a)
    | (s', Fails) => (fst (handler s'), Fails)
    end.

(** Reading a block's variable. *)
Definition read {state A : Type} (b : binding A) : M state A :=
  match b with
  | Initialized a => ret a
  | Uninitialized => throw
  end.

(** A computation on the database, and one on the cache, as parts of a
    computation on both. *)
Definition on_db {pg redis A : Type} (m : M pg A) : M (pg * redis) A :=
  fun w =>
    match m (fst w) with
    | (d, r) => ((d, snd w), r)
    end.

Definition on_cache {pg redis A : Type} (m : M redis A) : M (pg * redis) A :=
  fun w =>
    match m (snd w) with
    | (c, r) => ((fst w, c), r)
    end.

(** *** The model *)

Section Model.

(** The text of a value in a template literal. *)
Variable to_string : jsvalue -> string.

(** [parseFloat] on a string. *)
Variable parseFloat_text : string -> number.

Context {pg redis : Type}.
Context {pool : Pool pg} {client : RedisClient redis} {json : JSON object}.

Variable REDIS_HOST : option string.

(** [parseFloat(v)]: the text of [undefined], of [null] and of an array
    of rows is no number. *)
Definition parseFloat (v : jsvalue) : number :=
  match v with
  | Str text => parseFloat_text text
  | Num n => n
  | Undefined | Null | Arr _ => NaN
  end.

(** [n || 0] *)
Definition or_zero (n : number) : number :=
  if isNaN n || strict_eq n (Fin 0) then Fin 0 else n.

(** [v || []] *)
Definition or_empty (v : jsvalue) : jsvalue :=
  if truthy v then v else Arr [].

(** [new MeasurementSheet(data)] *)
Definition new_MeasurementSheet (data : object) : MeasurementSheet :=
  {|
    id := prop data "id";
    measurementSheetNumber := prop data "measurement_sheet_number";
    customerId := prop data "customer_id";
    customerType := prop data "customer_type";
    totalSquareFeet := or_zero (parseFloat (prop data "total_square_feet"));
    status := prop data "status";
    createdAt := prop data "created_at";
    updatedAt := prop data "updated_at";
    customerName := prop data "customer_name";
    customerPhone := prop data "customer_phone";
    customerEmail := prop data "customer_email";
    customerAddress := prop data "customer_address";
    slabEntries := or_empty (prop data "slab_entries")
  |}.

(** The keys of a sheet in the cache. *)
Definition sheet_key (id : jsvalue) : string :=
  "measurement_sheet:" ++ to_string id.

Definition full_sheet_key (id : jsvalue) : string :=
  "measurement_sheet_full:" ++ to_string id.

(** [MeasurementSheet.create(measurementSheetData)].  The [try] block
    declares its own [const measurementSheetData] (the inserted row),
    which hides the parameter in the whole block: the destructuring at
    the start of the block reads the block's variable. *)
Definition create (measurementSheetData : object)
  : M (pg * redis) MeasurementSheet :=
  await _ := on_db pool_connect in
  finally
    (catch_rethrow
       (let measurementSheetData : binding object := Uninitialized in
        await _ := on_db (client_query BEGIN []) in
        await data := read measurementSheetData in
        let customerId := prop data "customerId" in
        let customerType := prop data "customerType" in
        if negb (is_one_of Validators.validCustomerTypes customerType)
        then throw
        else
          await customerCheck := on_db (client_query SELECT_customer [customerId]) in
          match customerCheck with
          | [] => throw
          | _ :: _ =>
              await result :=
                on_db (client_query INSERT_measurement_sheet
                         [customerId; customerType]) in
              await _ := on_db (client_query COMMIT []) in
              match result with
              | [] => throw
              | row :: _ =>
                  let measurementSheet := new_MeasurementSheet row in
                  await _ :=
                    on_cache (set REDIS_HOST (sheet_key (id measurementSheet))
                                (toJSON measurementSheet) 3600) in
                  await _ := on_cache (clearPattern REDIS_HOST "measurement_sheets:*") in
                  await _ :=
                    on_cache (clearPattern REDIS_HOST "measurement_sheet_stats:*") in
                  ret measurementSheet
              end
          end)
       (await _ := on_db (client_query ROLLBACK []) in ret tt))
    (fun w => (client_release (fst w), snd w)).

(** [MeasurementSheet.findById(id, includeSlabEntries)]; [None] is
    [null]. *)
Definition findById (id : jsvalue) (includeSlabEntries : bool)
  : M (pg * redis) (option MeasurementSheet) :=
  let cacheKey :=
    if includeSlabEntries then full_sheet_key id else sheet_key id in
  await cachedSheet := on_cache (get REDIS_HOST cacheKey) in
  match cachedSheet with
  | Some data => ret (Some (new_MeasurementSheet data))
  | None =>
      await _ := on_db pool_connect in
      finally
        (await rows := on_db (client_query SELECT_sheet_with_customer [id]) in
         match rows with
         | [] => ret None
         | row :: _ =>
             await measurementSheetData :=
               (if includeSlabEntries
                then
                  await slabRows := on_db (client_query SELECT_slab_entries [id]) in
                  ret (assign row "slab_entries" (Arr slabRows))
                else ret row) in
             let measurementSheet := new_MeasurementSheet measurementSheetData in
             let cacheTime := if includeSlabEntries then 1800%Z else 3600%Z in
             await _ :=
               on_cache (set REDIS_HOST cacheKey measurementSheetData cacheTime) in
             ret (Some measurementSheet)
         end)
        (fun w => (client_release (fst w), snd w))
  end.

(** [measurementSheet.update(updateData)]; [this] is the instance, the
    result the instance after the call. *)
Definition update (this : MeasurementSheet) (updateData : object)
  : M (pg * redis) MeasurementSheet :=
  await _ := on_db pool_connect in
  finally
    (let status' := prop updateData "status" in
     if truthy status' && negb (is_one_of ["draft"; "completed"] status')
     then throw
     else
       await rows := on_db (client_query UPDATE_status [status'; id this]) in
       match rows with
       | [] => throw
       | updatedData :: _ =>
           let this :=
             {|
               id := id this;
               measurementSheetNumber := measurementSheetNumber this;
               customerId := customerId this;
               customerType := customerType this;
               totalSquareFeet := totalSquareFeet this;
               status := prop updatedData "status";
               createdAt := createdAt this;
               updatedAt := prop updatedData "updated_at";
               customerName := customerName this;
               customerPhone := customerPhone this;
               customerEmail := customerEmail this;
               customerAddress := customerAddress this;
               slabEntries := slabEntries this
             |} in
           await _ :=
             on_cache (set REDIS_HOST (sheet_key (id this)) (toJSON this) 3600) in
           await _ := on_cache (del REDIS_HOST (full_sheet_key (id this))) in
           await _ := on_cache (clearPattern REDIS_HOST "measurement_sheets:*") in
           ret this
       end)
    (fun w => (client_release (fst w), snd w)).

(** *** The cache calls of the [SlabEntry] model *)

(** After [COMMIT] in [SlabEntry.create] and [SlabEntry.batchCreate]. *)
Definition clear_after_create (measurementSheetId : jsvalue) : M redis unit :=
  await _ := del REDIS_HOST (full_sheet_key measurementSheetId) in
  await _ := clearPattern REDIS_HOST "measurement_sheets:*" in
  await _ := clearPattern REDIS_HOST "slab_entries:*" in
  ret tt.

(** At the end of [slabEntry.update] and [slabEntry.delete]. *)
Definition clear_after_change (measurementSheetId : jsvalue) : M redis unit :=
  await _ := del REDIS_HOST (full_sheet_key measurementSheetId) in
  await _ := clearPattern REDIS_HOST "measurement_sheets:*" in
  await _ :=
    clearPattern REDIS_HOST
      ("slab_entries:sheet:" ++ to_string measurementSheetId ++ ":*") in
  ret tt.


End Model.

(** *** Auxiliary vocabulary *)

(** What reading a property of [JSON.parse(JSON.stringify(o))] gives
    for a property of [o] that is [undefined] or missing, [null], a
    string or a number (nothing is said of an array). *)
Definition read_back (o parsed : object) : Prop :=
  forall name : string,
    match prop o name with
    | Undefined => prop parsed name = Undefined
    | Null => prop parsed name = Null
    | Str text => prop parsed name = Str text
    | Num (Fin q) => prop parsed name = Num (Fin q)
    | Num _ => prop parsed name = Null
    | Arr _ => True
    end.

(** *** Instances for the examples *)

Module Example.
(** A database that answers every statement with one and the same row
    and records the statements it was sent. *)
Definition row : object :=
  [("id", Str "7f3c"); ("measurement_sheet_number", Str "MS-0001");
   ("customer_id", Str "c1"); ("customer_type", Str "Builders");
   ("total_square_feet", Str "102.08"); ("status", Str "draft");
   ("created_at", Str "2024-01-01T00:00:00.000Z");
   ("updated_at", Str "2024-01-01T00:00:00.000Z");
   ("customer_name", Str "A"); ("customer_phone", Str "1")].

Definition recording : Pool (list statement) :=
  {|
    pool_connect := fun log => (log, Ok tt);
    client_query := fun text _ log => ((log ++ [text])%list, Ok [row]);
    client_release := fun log => log
  |}.

Definition text_of (v : jsvalue) : string :=
  match v with
  | Str text => text
  | Undefined => "undefined"
  | Null => "null"
  | Num _ => "0"
  | Arr _ => ""
  end.

Definition number_of (text : string) : number :=
  if String.eqb text "102.08" then Fin (10208 # 100) else NaN.

(** The sheet read from [row]. *)
Definition sheet : MeasurementSheet := new_MeasurementSheet number_of row.

(** What [JSON.parse] gives for the text of [sheet] with the status
    ['draft']. *)
Definition parsed_sheet : object :=
  [("id", Str "7f3c"); ("measurementSheetNumber", Str "MS-0001");
   ("customerId", Str "c1"); ("customerType", Str "Builders");
   ("totalSquareFeet", Num (Fin (10208 # 100))); ("status", Str "draft");
   ("createdAt", Str "2024-01-01T00:00:00.000Z");
   ("updatedAt", Str "2024-01-01T00:00:00.000Z");
   ("customerName", Str "A"); ("customerPhone", Str "1");
   ("slabEntries", Arr [])].

(** A [JSON] that knows the texts of [row] and of [sheet]. *)
Definition json : JSON object :=
  {|
    JSON_parse := fun text =>
      if String.eqb text "row" then Ok row
      else if String.eqb text "sheet" then Ok parsed_sheet
      else Fails;
    JSON_stringify := fun o =>
      match prop o "measurement_sheet_number" with
      | Undefined => Ok "sheet"
      | _ => Ok "row"
      end
  |}.
End Example.

End Sheets.

(** ** Reading slab entries ([SlabEntry.findById],
    [SlabEntry.findByMeasurementSheetId]) *)

Module Queries.

Import Persistence.

(** [SlabEntry.findById(id)]: the first row of
    [SELECT * FROM slab_entries WHERE id = $1]; [None] is [null]. *)
Definition findById (target : uuid) (db : database) : option slab_row :=
  match List.filter (fun r => Nat.eqb (id r) target) (slab_entries db) with
  | [] => None
  | r :: _ => Some r
  end.

(** [ORDER BY serial_number] *)
Fixpoint insert_by_serial (r : slab_row) (rows : list slab_row) : list slab_row :=
  match rows with
  | [] => [r]
  | r' :: rows' =>
      if (serial_number r <? serial_number r')%Z
      then r :: rows
      else r' :: insert_by_serial r rows'
  end.

Definition ORDER_BY_serial_number (rows : list slab_row) : list slab_row :=
  fold_right insert_by_serial [] rows.

(** The [pagination] object of the result. *)
Record pagination : Type :=
  mkPagination {
    page : Z;
    limit : Z;
    total : Z;
    pages : Z
  }.

(** [Math.ceil(total / limit)] for a count and a positive limit. *)
Definition ceil_quotient (total limit : Z) : Z :=
  ((total + limit - 1) / limit)%Z.

(** [SlabEntry.findByMeasurementSheetId(measurementSheetId, { page, limit })]
    when the cache has no entry for the key: what the queries give.
    [page] and [limit] are whole numbers or [None] for [undefined]; 0
    is falsy, and PostgreSQL rejects a negative [LIMIT] or [OFFSET]. *)
Definition findByMeasurementSheetId (sid : uuid) (page limit : option Z)
  (db : database) : outcome (list slab_row * option pagination) :=
  let rows := ORDER_BY_serial_number (entries_of_sheet sid db) in
  match page, limit with
  | Some page, Some limit =>
      if (page =? 0)%Z || (limit =? 0)%Z
      then Resolved (rows, None)
      else
        let offset := ((page - 1) * limit)%Z in
        let total := Z.of_nat (List.length (entries_of_sheet sid db)) in
        if (limit <? 0)%Z || (offset <? 0)%Z
        then Rejected DatabaseError
        else
          Resolved
            (firstn (Z.to_nat limit) (skipn (Z.to_nat offset) rows),
             Some (mkPagination page limit total (ceil_quotient total limit)))
  | _, _ => Resolved (rows, None)
  end.

(** *** Auxiliary vocabulary *)

(** Strictly increasing. *)
Fixpoint increasing (l : list Z) : Prop :=
  match l with
  | [] => True
  | x :: l' => Forall (Z.lt x) l' /\ increasing l'
  end.

(** Every identifier in [slab_entries] was produced by
    [uuid_generate_v4()]. *)
Definition ids_generated (db : database) : Prop :=
  Forall (fun r => (id r < uuids_generated db)%nat) (slab_entries db).

(** The rows of a page, [] when the call rejects. *)
Definition page_rows (sid : uuid) (page limit : Z) (db : database)
  : list slab_row :=
  match findByMeasurementSheetId sid (Some page) (Some limit) db with
  | Resolved (rows, _) => rows
  | Rejected _ => []
  end.

End Queries.

(** ** The number of a measurement sheet
    ([measurement_sheets.measurement_sheet_number] in
    [server/database/schema.sql]) *)

Module SheetNumber.

Import Stdlib.Strings.Ascii.
Local Open Scope string_scope.

(** [n::TEXT] for a value of the sequence. *)
Definition TEXT (n : N) : string :=
  DecimalString.NilZero.string_of_uint (N.to_uint n).

(** [LPAD(text, length, fill)] with a fill of one character: a text
    that is too long is cut on the right. *)
Definition LPAD (text : string) (length : nat) (fill : ascii) : string :=
  if Nat.leb length (String.length text)
  then substring 0 length text
  else string_of_list_ascii (repeat fill (length - String.length text)) ++ text.

(** The [DEFAULT] of the column, for the value [nextval] returned. *)
Definition measurement_sheet_number (nextval : N) : string :=
  "MS-" ++ LPAD (TEXT nextval) 4 "0"%char.

(** *** Auxiliary vocabulary *)

(** The number a text of decimal digits stands for. *)
Definition digit_value (c : ascii) : N := (N_of_ascii c - 48)%N.

Fixpoint value_from (acc : N) (text : string) : N :=
  match text with
  | EmptyString => acc
  | String c text' => value_from (acc * 10 + digit_value c)%N text'
  end.

(** The number after the prefix ["MS-"]. *)
Definition value_of (number : string) : N :=
  value_from 0 (substring 3 (String.length number - 3) number).

(** [p] holds for [start], [start + 1], ..., [count] values in all. *)
Fixpoint all_from (count : nat) (start : N) (p : N -> bool) : bool :=
  match count with
  | O => true
  | S count' => p start && all_from count' (N.succ start) p
  end.

End SheetNumber.

(** ** The view of a measurement sheet
    ([src/pages/MeasurementSheetView.js]) *)

Module SheetView.

Import JS Persistence.





(** *** A view, for the examples *)

Module Example.
End Example.

End SheetView.

(** ** A request for a new slab entry
    ([validateSlabEntryData] in the validation middleware,
    [createSlabEntry] in the slab entry controller) *)

Module Request.

Import Stdlib.Strings.Ascii.
Import JS CalculationEngine Validators.
Local Open Scope js_scope.
Local Open Scope string_scope.

(** A property of [req.body], the JSON of the request, where the code
    expects text: missing ([undefined] or [null]); a string, held as
    its code units, taken below 256, so that [String.length] is its
    [length]; or another value (a number, a boolean, an array or an
    object), of which the code reads the truthiness and on which it
    finds no method [trim]. *)
Inductive field : Type :=
| Absent
| Text (text : string)
| NotText (truthy : bool).

(** [!f] *)
Definition not_field (f : field) : bool :=
  match f with
  | Absent => true
  | Text text => String.eqb text ""
  | NotText truthy => negb truthy
  end.

(** [typeof f !== 'string'] *)
Definition not_a_string (f : field) : bool :=
  match f with
  | Text _ => false
  | Absent | NotText _ => true
  end.

(** The white space and the line terminators [String.prototype.trim]
    removes, among the code units below 256. *)
Definition white_space (c : ascii) : bool :=
  match nat_of_ascii c with
  | 9 | 10 | 11 | 12 | 13 | 32 | 160 => true
  | _ => false
  end%nat.

Fixpoint trim_start (text : string) : string :=
  match text with
  | String.EmptyString => String.EmptyString
  | String c text' => if white_space c then trim_start text' else text
  end.

Fixpoint reverse_onto (text acc : string) : string :=
  match text with
  | String.EmptyString => acc
  | String c text' => reverse_onto text' (String c acc)
  end.

(** [text.trim()] *)
Definition trim (text : string) : string :=
  reverse_onto (trim_start (reverse_onto (trim_start text) "")) "".

(** [f.trim()] where the code has made sure that [f] is a string. *)
Definition trimmed (f : field) : string :=
  match f with
  | Text text => trim text
  | Absent | NotText _ => ""
  end.

(** [validCategories.includes(f)] *)
Definition is_category (f : field) : bool :=
  match f with
  | Text text => existsb (String.eqb text) Persistence.valid_categories
  | Absent | NotText _ => false
  end.

(** [req.body] of [POST /slab-entries], as far as the validation reads
    it. *)
Record body : Type :=
  mkBody {
    measurementSheetId : field;
    blockNumber : field;
    length : argument;
    breadth : argument;
    slabCategory : field
  }.

(** The [errors] that [validateSlabEntryData] collects. *)
Definition validateSlabEntryData_errors (b : body) : list string :=
  (if not_field (measurementSheetId b)
   then ["Measurement sheet ID is required"] else [])
  ++ (if not_field (blockNumber b) || not_a_string (blockNumber b)
         || (String.length (trimmed (blockNumber b)) =? 0)%nat
      then ["Block number is required and must be a non-empty string"]
      else if (50 <? String.length (trimmed (blockNumber b)))%nat
      then ["Block number must be less than 50 characters"]
      else [])
  ++ validateSlabEntryData_dimension "Length" (length b)
  ++ validateSlabEntryData_dimension "Breadth" (breadth b)
  ++ (if not_field (slabCategory b) || negb (is_category (slabCategory b))
      then ["Slab category must be one of: F, LD, D, S"] else []).

(** What the middleware leaves in [req.body]: the trimmed block number
    and the parsed dimensions. *)
Record sanitized : Type :=
  mkSanitized {
    s_measurementSheetId : field;
    s_blockNumber : string;
    s_length : number;
    s_breadth : number;
    s_slabCategory : field
  }.

Definition sanitize (b : body) : sanitized :=
  mkSanitized (measurementSheetId b) (trimmed (blockNumber b))
    (parseFloat (length b)) (parseFloat (breadth b)) (slabCategory b).

(** How the middleware ends: [next()] with the body it has sanitized,
    the response 422 with the errors as its [details], or the
    [TypeError] of a call of [trim] on a value that has none. *)
Inductive middleware : Type :=
| Next (b : sanitized)
| Unprocessable (details : list string)
| TypeError.

(** [!blockNumber || blockNumber.trim().length === 0 ? ... :
    blockNumber.trim().length > 50 ? ... : null] in [field_errors]
    throws when it comes to [trim] on a value other than a string. *)
Definition field_errors_throw (b : body) : bool :=
  match blockNumber b with
  | NotText true => true
  | Absent | Text _ | NotText false => false
  end.

(** [validateSlabEntryData] *)
Definition validateSlabEntryData (b : body) : middleware :=
  match validateSlabEntryData_errors b with
  | [] => Next (sanitize b)
  | errors =>
      if field_errors_throw b then TypeError else Unprocessable errors
  end.

(** [!n] on a number *)
Definition not_number (n : number) : bool :=
  isNaN n || (n === Fin 0).

(** The validation at the start of [createSlabEntry]: the status and
    the message of the response it sends, [None] when it goes on to the
    queries. *)
Definition createSlabEntry_validation (b : sanitized) : option (Z * string) :=
  if not_field (s_measurementSheetId b) || String.eqb (s_blockNumber b) ""
     || not_number (s_length b) || not_number (s_breadth b)
     || not_field (s_slabCategory b)
  then Some (400%Z,
             "Measurement sheet ID, block number, length, breadth, and slab category are required")
  else if (s_length b <= Fin 0) || (s_breadth b <= Fin 0)
  then Some (400%Z, "Length and breadth must be positive numbers")
  else if negb (is_category (s_slabCategory b))
  then Some (400%Z, "Invalid slab category")
  else None.

End Request.

(** * Properties of the calculation engine *)

Module EngineProperties.

Import JS CalculationEngine.
Local Open Scope Q_scope.

(** ** Comparisons of rationals *)

Lemma Qltb_true (p q : Q) : Qltb p q = true <-> p < q.
Proof.
  unfold Qltb. rewrite negb_true_iff.
  destruct (Qle_bool q p) eqn:E.
  - apply Qle_bool_iff in E. split; [discriminate | intros H; lra].
  - split; [intros _ | reflexivity].
    destruct (Qlt_le_dec p q) as [H | H]; [exact H |].
    apply Qle_bool_iff in H. congruence.
Qed.

Lemma Qltb_false (p q : Q) : Qltb p q = false <-> q <= p.
Proof.
  unfold Qltb. rewrite negb_false_iff. apply Qle_bool_iff.
Qed.

Lemma Qeq_bool_false (p q : Q) : Qeq_bool p q = false <-> ~ p == q.
Proof.
  split.
  - intros H E. apply Qeq_bool_iff in E. congruence.
  - intros H. destruct (Qeq_bool p q) eqn:E; [| reflexivity].
    apply Qeq_bool_iff in E. contradiction.
Qed.

(** ** Truncation and the remainder by 3 *)

Lemma Qtrunc_comp (p q : Q) : p == q -> Qtrunc p = Qtrunc q.
Proof.
  destruct p as [a b], q as [c d]. unfold Qeq, Qtrunc. simpl. intros H.
  rewrite <- (Z.quot_mul_cancel_r a (Zpos b) (Zpos d)) by lia.
  rewrite H.
  rewrite (Z.mul_comm (Zpos b) (Zpos d)).
  apply Z.quot_mul_cancel_r; lia.
Qed.

Lemma Qtrunc_inject_Z (z : Z) : Qtrunc (inject_Z z) = z.
Proof. unfold Qtrunc. simpl. apply Z.quot_1_r. Qed.

Lemma rem3_value (q : Q) :
  rem (Fin q) (Fin 3) = Fin (q - 3 * inject_Z (Qtrunc (q / 3))).
Proof. reflexivity. Qed.

Lemma rem3_zero_iff (q : Q) :
  strict_eq (rem (Fin q) (Fin 3)) (Fin 0) = true <-> multiple_of_3 q.
Proof.
  rewrite rem3_value. simpl. rewrite Qeq_bool_iff. split.
  - intros H. exists (Qtrunc (q / 3)). rewrite inject_Z_mult.
    change (inject_Z 3) with 3. lra.
  - intros [k Hk].
    assert (E : q / 3 == inject_Z k).
    { rewrite Hk, inject_Z_mult. change (inject_Z 3) with 3. field. }
    rewrite (Qtrunc_comp _ _ E), Qtrunc_inject_Z.
    rewrite Hk, inject_Z_mult. change (inject_Z 3) with 3. lra.
Qed.

Lemma multiple_of_3_inject (v : Z) :
  multiple_of_3 (inject_Z v) <-> (v mod 3 = 0)%Z.
Proof.
  split.
  - intros [k Hk]. apply -> inject_Z_injective in Hk. subst v.
    rewrite Z.mul_comm. apply Z_mod_mult.
  - intros H. exists (v / 3)%Z.
    rewrite <- (Z_div_exact_full_2 v 3) by lia. reflexivity.
Qed.

Lemma multiple_of_3_comp (p q : Q) : p == q -> multiple_of_3 p -> multiple_of_3 q.
Proof. intros E [k Hk]. exists k. rewrite <- E. exact Hk. Qed.

(** ** The decrement loop *)

(** The loop condition on a finite value. *)
Lemma loop_condition_Fin (q : Q) (i : nat) :
  loop_condition (Fin q) i = true
  <-> ~ multiple_of_3 q /\ 0 < q /\ (i < maxIterations)%nat.
Proof.
  unfold loop_condition, strict_neq, gt. simpl lt.
  rewrite !andb_true_iff, negb_true_iff, Qltb_true, Nat.ltb_lt.
  rewrite <- rem3_zero_iff.
  destruct (strict_eq (rem (Fin q) (Fin 3)) (Fin 0)); intuition congruence.
Qed.

(** Running the loop for [maxIterations] turns always reaches an exit:
    the condition is false in the state it returns. *)
Lemma divisibility_loop_exit_gen (fuel : nat) :
  forall processed iterations,
    (maxIterations <= fuel + iterations)%nat ->
    let r := divisibility_loop fuel processed iterations in
    loop_condition (fst r) (snd r) = false.
Proof.
  induction fuel as [| fuel IH]; intros processed iterations Hfuel; simpl.
  - unfold loop_condition.
    assert (E : (iterations <? maxIterations)%nat = false)
      by (apply Nat.ltb_ge; lia).
    rewrite E. apply andb_false_r.
  - destruct (loop_condition processed iterations) eqn:C.
    + apply IH. lia.
    + simpl. exact C.
Qed.

Lemma divisibility_loop_exit (processed : number) :
  let r := divisibility_loop maxIterations processed 0 in
  loop_condition (fst r) (snd r) = false.
Proof. apply divisibility_loop_exit_gen. lia. Qed.

(** The counter never exceeds [maxIterations]. *)
Lemma divisibility_loop_bound (fuel : nat) :
  forall processed iterations,
    (iterations <= maxIterations)%nat ->
    (snd (divisibility_loop fuel processed iterations) <= maxIterations)%nat.
Proof.
  induction fuel as [| fuel IH]; intros processed iterations Hi; simpl.
  - exact Hi.
  - destruct (loop_condition processed iterations) eqn:C; [| exact Hi].
    apply IH. unfold loop_condition in C.
    apply andb_true_iff in C as [_ C]. apply Nat.ltb_lt in C. lia.
Qed.

(** From a value that is not [NaN] the loop never produces [NaN]. *)
Lemma divisibility_loop_not_NaN (fuel : nat) :
  forall processed iterations,
    isNaN processed = false ->
    isNaN (fst (divisibility_loop fuel processed iterations)) = false.
Proof.
  induction fuel as [| fuel IH]; intros processed iterations H; simpl.
  - exact H.
  - destruct (loop_condition processed iterations); [| exact H].
    apply IH. destruct processed; try reflexivity; discriminate.
Qed.

(** From a finite value the loop returns a finite value. *)
Lemma divisibility_loop_Fin (fuel : nat) :
  forall q iterations,
    exists q', fst (divisibility_loop fuel (Fin q) iterations) = Fin q'.
Proof.
  induction fuel as [| fuel IH]; intros q iterations; simpl.
  - eauto.
  - destruct (loop_condition (Fin q) iterations); [| simpl; eauto].
    apply IH.
Qed.

Lemma processLength_unfold (length : number) :
  processLengthForDivisibility length =
  if lt length (Fin 3) then Fin 0
  else after_loop (divisibility_loop maxIterations (sub length (Fin 3)) 0).
Proof.
  unfold processLengthForDivisibility, after_loop.
  destruct (lt length (Fin 3)); [reflexivity |].
  destruct (divisibility_loop maxIterations (sub length (Fin 3)) 0); reflexivity.
Qed.

Lemma processBreadth_unfold (breadth : number) :
  processBreadthForDivisibility breadth =
  if lt breadth (Fin 2) then Fin 0
  else after_loop (divisibility_loop maxIterations (sub breadth (Fin 2)) 0).
Proof.
  unfold processBreadthForDivisibility, after_loop.
  destruct (lt breadth (Fin 2)); [reflexivity |].
  destruct (divisibility_loop maxIterations (sub breadth (Fin 2)) 0); reflexivity.
Qed.

Lemma after_loop_divisible (processed : number) :
  isNaN processed = false ->
  zero_or_divisible (after_loop (divisibility_loop maxIterations processed 0)).
Proof.
  intros Hnan.
  pose proof (divisibility_loop_exit processed) as Hexit.
  pose proof (divisibility_loop_not_NaN maxIterations processed 0 Hnan) as Hn.
  unfold after_loop. cbv zeta in Hexit.
  destruct (divisibility_loop maxIterations processed 0) as [p i].
  simpl fst in *; simpl snd in *.
  destruct (maxIterations <=? i)%nat eqn:Hi; [left; reflexivity |].
  apply Nat.leb_gt in Hi.
  destruct p as [q | | |]; try discriminate.
  - destruct (loop_condition (Fin q) i) eqn:C; [discriminate |].
    assert (Hc : ~ (~ multiple_of_3 q /\ 0 < q /\ (i < maxIterations)%nat)).
    { intros H. apply loop_condition_Fin in H. congruence. }
    unfold Math_max. simpl lt.
    destruct (Qltb q 0) eqn:L.
    + left. reflexivity.
    + apply Qltb_false in L. right. apply rem3_zero_iff.
      destruct (Qlt_le_dec 0 q) as [Hpos | Hle].
      * destruct (strict_eq (rem (Fin q) (Fin 3)) (Fin 0)) eqn:R.
        -- apply rem3_zero_iff. exact R.
        -- exfalso. apply Hc. repeat split; try assumption.
           intros Hm. apply rem3_zero_iff in Hm. congruence.
      * exists 0%Z. change (inject_Z (3 * 0)) with 0. lra.
  - exfalso. unfold loop_condition in Hexit. simpl in Hexit.
    apply Nat.ltb_lt in Hi. rewrite Hi in Hexit. discriminate.
  - left. reflexivity.
Qed.

Lemma sub_not_NaN (x : number) (q : Q) :
  isNaN x = false -> isNaN (sub x (Fin q)) = false.
Proof. destruct x; intros H; try reflexivity; discriminate. Qed.

(** ** The loop on integers *)

Lemma Qtrunc_third (q : Q) (v : Z) :
  q == inject_Z v -> Qtrunc (q / 3) = Z.quot v 3.
Proof.
  intros E.
  assert (E3 : q / 3 == inject_Z v / 3) by (rewrite E; reflexivity).
  rewrite (Qtrunc_comp _ _ E3). unfold Qtrunc. simpl.
  rewrite Z.mul_1_r. reflexivity.
Qed.

(** On a value at or below zero the loop does not turn. *)
Lemma divisibility_loop_nonpositive (fuel : nat) (q : Q) (i : nat) :
  q <= 0 -> divisibility_loop fuel (Fin q) i = (Fin q, i).
Proof.
  intros Hq. destruct fuel as [| fuel]; [reflexivity |]. simpl.
  destruct (loop_condition (Fin q) i) eqn:C; [| reflexivity].
  apply loop_condition_Fin in C. lra.
Qed.

(** On a non-negative integer [v] the loop turns [v mod 3] times and
    ends on [v - v mod 3]. *)
Lemma divisibility_loop_integer (fuel : nat) :
  forall (q : Q) (i : nat) (v : Z),
    q == inject_Z v ->
    (0 <= v)%Z ->
    (Z.to_nat (v mod 3) <= fuel)%nat ->
    (i + Z.to_nat (v mod 3) <= maxIterations)%nat ->
    exists q',
      divisibility_loop fuel (Fin q) i = (Fin q', (i + Z.to_nat (v mod 3))%nat)
      /\ q' == inject_Z (v - v mod 3).
Proof.
  induction fuel as [| fuel IH]; intros q i v E Hv Hfuel Hi.
  - assert (M : (v mod 3 = 0)%Z).
    { pose proof (Z.mod_pos_bound v 3 ltac:(lia)). lia. }
    exists q. rewrite M. simpl. rewrite Nat.add_0_r, Z.sub_0_r. auto.
  - destruct (Z.eq_dec (v mod 3)%Z 0%Z) as [M | M].
    + exists q. rewrite M. simpl Z.to_nat. rewrite Nat.add_0_r, Z.sub_0_r.
      split; [| exact E]. simpl.
      destruct (loop_condition (Fin q) i) eqn:C; [| reflexivity].
      apply loop_condition_Fin in C. destruct C as [C _].
      exfalso. apply C. apply (multiple_of_3_comp (inject_Z v)).
      * symmetry. exact E.
      * apply multiple_of_3_inject. exact M.
    + pose proof (Z.mod_pos_bound v 3 ltac:(lia)) as B.
      assert (Hpos : (1 <= v)%Z).
      { destruct (Z.eq_dec v 0%Z) as [-> | ]; [| lia]. exfalso. apply M. reflexivity. }
      assert (M1 : ((v - 1) mod 3 = v mod 3 - 1)%Z).
      { rewrite (Z.div_mod v 3) at 1 by lia.
        replace (3 * (v / 3) + v mod 3 - 1)%Z
          with ((v mod 3 - 1) + (v / 3) * 3)%Z by ring.
        rewrite Z_mod_plus_full. apply Z.mod_small. lia. }
      assert (C : loop_condition (Fin q) i = true).
      { apply loop_condition_Fin. repeat split.
        - intros Hm. apply M. apply multiple_of_3_inject.
          apply (multiple_of_3_comp q); assumption.
        - rewrite E. change 0 with (inject_Z 0). rewrite <- Zlt_Qlt. lia.
        - lia. }
      simpl divisibility_loop. rewrite C.
      change (sub (Fin q) (Fin 1)) with (Fin (q + - (1))).
      destruct (IH (q + - (1)) (S i) (v - 1)%Z) as [q' [L Hq']].
      * rewrite E. unfold Z.sub. rewrite inject_Z_plus. reflexivity.
      * lia.
      * rewrite M1. lia.
      * rewrite M1. lia.
      * exists q'. split.
        -- rewrite L. f_equal. rewrite M1. lia.
        -- rewrite Hq', M1. apply inject_Z_injective. lia.
Qed.

(** The specification's closed form on an integer. *)
Lemma closed_form_integer (q : Q) (v : Z) :
  q == inject_Z v -> (0 <= v)%Z ->
  exists q', closed_form (Fin q) = Fin q' /\ q' == inject_Z (v - v mod 3).
Proof.
  intros E Hv. unfold closed_form. rewrite rem3_value.
  eexists. split; [reflexivity |].
  rewrite (Qtrunc_third q v E).
  rewrite Z.quot_div_nonneg by lia.
  rewrite E.
  replace (v - v mod 3)%Z with (3 * (v / 3))%Z
    by (pose proof (Z.div_mod v 3 ltac:(lia)); lia).
  rewrite inject_Z_mult. change (inject_Z 3) with 3. ring.
Qed.

Lemma same_Fin (p q : Q) : p == q -> same (Fin p) (Fin q).
Proof. intros H. exact H. Qed.

(** An adjuster on an integer at or above its subtrahend. *)
Lemma after_loop_integer (v : Z) (q : Q) :
  q == inject_Z v -> (0 <= v)%Z ->
  exists q',
    after_loop (divisibility_loop maxIterations (Fin q) 0) = Fin q'
    /\ q' == inject_Z (v - v mod 3)
    /\ (snd (divisibility_loop maxIterations (Fin q) 0) <= 2)%nat.
Proof.
  intros E Hv.
  pose proof (Z.mod_pos_bound v 3 ltac:(lia)) as B.
  destruct (divisibility_loop_integer maxIterations q 0 v E Hv) as [q' [L Hq']].
  - unfold maxIterations. lia.
  - unfold maxIterations. lia.
  - rewrite L. unfold after_loop. simpl fst. simpl snd.
    assert (Hm : (maxIterations <=? Z.to_nat (v mod 3))%nat = false).
    { apply Nat.leb_gt. unfold maxIterations. lia. }
    rewrite Hm. unfold Math_max. simpl lt.
    assert (Hge : 0 <= q').
    { rewrite Hq'. change 0 with (inject_Z 0). rewrite <- Zle_Qle.
      pose proof (Z.div_mod v 3 ltac:(lia)).
      pose proof (Z.div_pos v 3 Hv ltac:(lia)). lia. }
    apply Qltb_false in Hge. rewrite Hge.
    exists q'. repeat split; try assumption. lia.
Qed.

Lemma positive_not_zero (r : number) :
  gt r (Fin 0) = true -> strict_eq r (Fin 0) = true -> False.
Proof.
  destruct r as [q | | |]; try discriminate. unfold gt. simpl.
  rewrite Qltb_true, Qeq_bool_iff. intros H E. rewrite E in H.
  exact (Qlt_irrefl 0 H).
Qed.

(** ** Divisibility of the adjusters' results *)

(** C2, as the code has it.  For every number other than [NaN]
    (finite, integer or not, or infinite) [processLengthForDivisibility]
    and [processBreadthForDivisibility] return [0] or a value [r] with
    [r % 3 === 0], whichever exit is taken: the early return below the
    subtrahend, the normal loop exit, the floor at zero or the return
    at the iteration ceiling.  For every number, [NaN] included, they
    never return a positive value that is not a multiple of 3. *)
Theorem adjusters_zero_or_divisible (x : number) :
  (isNaN x = false ->
   zero_or_divisible (processLengthForDivisibility x)
   /\ zero_or_divisible (processBreadthForDivisibility x))
  /\ (gt (processLengthForDivisibility x) (Fin 0) = true ->
      strict_eq (rem (processLengthForDivisibility x) (Fin 3)) (Fin 0) = true)
  /\ (gt (processBreadthForDivisibility x) (Fin 0) = true ->
      strict_eq (rem (processBreadthForDivisibility x) (Fin 3)) (Fin 0) = true).
Proof.
  assert (H : isNaN x = false ->
              zero_or_divisible (processLengthForDivisibility x)
              /\ zero_or_divisible (processBreadthForDivisibility x)).
  { intros Hx. rewrite processLength_unfold, processBreadth_unfold. split.
    - destruct (lt x (Fin 3)); [left; reflexivity |].
      apply after_loop_divisible, sub_not_NaN, Hx.
    - destruct (lt x (Fin 2)); [left; reflexivity |].
      apply after_loop_divisible, sub_not_NaN, Hx. }
  split; [exact H |].
  destruct (isNaN x) eqn:Hx.
  - destruct x; try discriminate. split; intros Hpos; discriminate Hpos.
  - destruct (H eq_refl) as [Hl Hb]. split; intros Hpos.
    + destruct Hl as [Hl | Hl]; [| exact Hl]. apply (positive_not_zero _ Hpos) in Hl.
      contradiction.
    + destruct Hb as [Hb | Hb]; [| exact Hb]. apply (positive_not_zero _ Hpos) in Hb.
      contradiction.
Qed.

Lemma adjusters_zero_or_divisible_witness :
  isNaN (Fin 149) = false
  /\ zero_or_divisible (processLengthForDivisibility (Fin 149))
  /\ zero_or_divisible (processBreadthForDivisibility (Fin 149)).
Proof.
  split; [reflexivity |].
  apply (proj1 (adjusters_zero_or_divisible (Fin 149))). reflexivity.
Defined.

(** C2 fails at [NaN]: both adjusters return [NaN], which is neither
    [0] nor a value with [r % 3 === 0]. *)
Lemma adjusters_NaN_counterexample :
  processLengthForDivisibility NaN = NaN
  /\ processBreadthForDivisibility NaN = NaN
  /\ ~ zero_or_divisible (processLengthForDivisibility NaN)
  /\ ~ zero_or_divisible (processBreadthForDivisibility NaN).
Proof.
  repeat split; try reflexivity.
  - intros [H | H]; vm_compute in H; discriminate.
  - intros [H | H]; vm_compute in H; discriminate.
Qed.

(** ** Doubles and exact arithmetic *)

Lemma pow2_nonpos (e : Z) :
  (e <= 0)%Z ->
  Binary64.pow2 e == / inject_Z (2 ^ (- e)) /\ 0 < inject_Z (2 ^ (- e)).
Proof.
  intros He.
  assert (P : (0 < 2 ^ (- e))%Z) by (apply Z.pow_pos_nonneg; lia).
  split.
  - unfold Binary64.pow2. destruct (Z.leb_spec 0 e) as [H | H]; [| reflexivity].
    assert (e = 0%Z) by lia. subst e. reflexivity.
  - change 0 with (inject_Z 0). rewrite <- Zlt_Qlt. exact P.
Qed.

Lemma floor_log2_integer (v : Z) :
  (0 < v)%Z -> Binary64.floor_log2 (inject_Z v) = Z.log2 v.
Proof.
  intros Hv. unfold Binary64.floor_log2. cbn [Qnum Qden inject_Z].
  change (Z.log2 1) with 0%Z. rewrite Z.sub_0_r.
  unfold Binary64.pow2.
  destruct (Z.leb_spec 0 (Z.log2 v)) as [_ | H];
    [| pose proof (Z.log2_nonneg v); lia].
  assert (L : Qle_bool (inject_Z (2 ^ Z.log2 v)) (inject_Z v) = true).
  { apply Qle_bool_iff. rewrite <- Zle_Qle. apply Z.log2_spec, Hv. }
  rewrite L. reflexivity.
Qed.

Lemma nearest_even_integer (q : Q) (k : Z) :
  q == inject_Z k -> Binary64.nearest_even q = k.
Proof.
  intros E. unfold Binary64.nearest_even.
  rewrite (Qfloor_comp _ _ E), Qfloor_Z.
  assert (C : Qcompare (q - inject_Z k) (1 # 2) = Lt)
    by (apply Qlt_alt; rewrite E; unfold Qminus; rewrite Qplus_opp_r; reflexivity).
  rewrite C. reflexivity.
Qed.

(** A whole number from 0 to [2 ^ 53] is a double: rounding leaves it
    as it is. *)
Lemma round_safe_integer (q : Q) (v : Z) :
  q == inject_Z v -> (0 <= v < 2 ^ 53)%Z ->
  exists q', Binary64.round q = Fin q' /\ q' == inject_Z v.
Proof.
  intros E Hv. unfold Binary64.round.
  rewrite (Qred_complete _ _ E).
  assert (R : Qred (inject_Z v) = inject_Z v).
  { apply Qcanon.Qred_identity. simpl. apply Z.gcd_1_r. }
  rewrite R. cbv zeta.
  destruct (Z.eq_dec v 0%Z) as [-> | Hnz].
  - exists 0. split; reflexivity.
  - assert (Z0 : Qeq_bool (inject_Z v) 0 = false).
    { apply Qeq_bool_false. intros H. change 0 with (inject_Z 0) in H.
      apply -> inject_Z_injective in H. contradiction. }
    rewrite Z0.
    assert (A : Qabs (inject_Z v) = inject_Z v).
    { unfold inject_Z, Qabs. rewrite Z.abs_eq by lia. reflexivity. }
    unfold Binary64.ulp_exponent. rewrite A, floor_log2_integer by lia.
    assert (L : (Z.log2 v < 53)%Z) by (apply Z.log2_lt_pow2; lia).
    pose proof (Z.log2_nonneg v) as L0.
    rewrite Z.max_l by lia.
    set (e := (Z.log2 v - 52)%Z).
    destruct (pow2_nonpos e ltac:(unfold e; lia)) as [P Ppos].
    set (d := (2 ^ (- e))%Z) in *.
    assert (K : inject_Z v / Binary64.pow2 e == inject_Z (v * d)).
    { rewrite P, inject_Z_mult. field. lra. }
    rewrite (nearest_even_integer _ _ K).
    assert (V : inject_Z (v * d) * Binary64.pow2 e == inject_Z v).
    { rewrite P, inject_Z_mult. field. lra. }
    assert (O : Qle_bool (Binary64.pow2 1024)
                  (Qabs (inject_Z (v * d) * Binary64.pow2 e)) = false).
    { destruct (Qle_bool _ _) eqn:B; [| reflexivity]. exfalso.
      apply Qle_bool_iff in B. rewrite V, A in B.
      change (Binary64.pow2 1024) with (inject_Z (2 ^ 1024)) in B.
      rewrite <- Zle_Qle in B.
      assert ((2 ^ 53 < 2 ^ 1024)%Z) by (apply Z.pow_lt_mono_r; lia).
      lia. }
    rewrite O. eexists. split; [reflexivity | exact V].
Qed.

Lemma loop_condition_comp (p q : Q) (i : nat) :
  p == q -> loop_condition (Fin p) i = loop_condition (Fin q) i.
Proof.
  intros E.
  assert (H : forall a b, a == b -> loop_condition (Fin a) i = true ->
                          loop_condition (Fin b) i = true).
  { intros a b Eab C. apply loop_condition_Fin in C as [C1 [C2 C3]].
    apply loop_condition_Fin. repeat split.
    - intros M. apply C1. apply (multiple_of_3_comp b); [symmetry |]; assumption.
    - rewrite <- Eab. exact C2.
    - exact C3. }
  destruct (loop_condition (Fin q) i) eqn:C.
  - apply (H q p); [symmetry |]; assumption.
  - destruct (loop_condition (Fin p) i) eqn:C'; [| reflexivity].
    apply (H p q E) in C'. congruence.
Qed.

Lemma binary64_sub_integer (q : Q) (v k : Z) :
  q == inject_Z v -> (0 <= v - k < 2 ^ 53)%Z ->
  exists q',
    Binary64.sub (Fin q) (Fin (inject_Z k)) = Fin q' /\ q' == inject_Z (v - k).
Proof.
  intros E Hv. unfold Binary64.sub.
  change (sub (Fin q) (Fin (inject_Z k))) with (Fin (q + - inject_Z k)).
  apply round_safe_integer; [| exact Hv].
  rewrite E. unfold Z.sub. rewrite inject_Z_plus, inject_Z_opp. reflexivity.
Qed.

(** On a whole number from 0 to [2 ^ 53] the loop on doubles turns
    [v mod 3] times and ends on [v - v mod 3], as the exact one does. *)
Lemma binary64_loop_integer (fuel : nat) :
  forall (q : Q) (i : nat) (v : Z),
    q == inject_Z v ->
    (0 <= v < 2 ^ 53)%Z ->
    (Z.to_nat (v mod 3) <= fuel)%nat ->
    (i + Z.to_nat (v mod 3) <= maxIterations)%nat ->
    exists q',
      Binary64.divisibility_loop fuel (Fin q) i
      = (Fin q', (i + Z.to_nat (v mod 3))%nat)
      /\ q' == inject_Z (v - v mod 3).
Proof.
  induction fuel as [| fuel IH]; intros q i v E Hv Hfuel Hi.
  - assert (M : (v mod 3 = 0)%Z).
    { pose proof (Z.mod_pos_bound v 3 ltac:(lia)). lia. }
    exists q. rewrite M. simpl. rewrite Nat.add_0_r, Z.sub_0_r. auto.
  - destruct (Z.eq_dec (v mod 3)%Z 0%Z) as [M | M].
    + exists q. rewrite M. simpl Z.to_nat. rewrite Nat.add_0_r, Z.sub_0_r.
      split; [| exact E]. simpl.
      destruct (loop_condition (Fin q) i) eqn:C; [| reflexivity].
      apply loop_condition_Fin in C. destruct C as [C _].
      exfalso. apply C. apply (multiple_of_3_comp (inject_Z v)).
      * symmetry. exact E.
      * apply multiple_of_3_inject. exact M.
    + pose proof (Z.mod_pos_bound v 3 ltac:(lia)) as B.
      assert (Hpos : (1 <= v)%Z).
      { destruct (Z.eq_dec v 0%Z) as [-> | ]; [| lia]. exfalso. apply M. reflexivity. }
      assert (M1 : ((v - 1) mod 3 = v mod 3 - 1)%Z).
      { rewrite (Z.div_mod v 3) at 1 by lia.
        replace (3 * (v / 3) + v mod 3 - 1)%Z
          with ((v mod 3 - 1) + (v / 3) * 3)%Z by ring.
        rewrite Z_mod_plus_full. apply Z.mod_small. lia. }
      assert (C : loop_condition (Fin q) i = true).
      { apply loop_condition_Fin. repeat split.
        - intros Hm. apply M. apply multiple_of_3_inject.
          apply (multiple_of_3_comp q); assumption.
        - rewrite E. change 0 with (inject_Z 0). rewrite <- Zlt_Qlt. lia.
        - lia. }
      simpl Binary64.divisibility_loop. rewrite C.
      destruct (binary64_sub_integer q v 1 E ltac:(lia)) as [q1 [S1 E1]].
      change (Fin 1) with (Fin (inject_Z 1)). rewrite S1.
      destruct (IH q1 (S i) (v - 1)%Z) as [q' [L Hq']].
      * exact E1.
      * lia.
      * rewrite M1. lia.
      * rewrite M1. lia.
      * exists q'. split.
        -- rewrite L. f_equal. rewrite M1. lia.
        -- rewrite Hq', M1. apply inject_Z_injective. lia.
Qed.

Lemma binary64_length_unfold (length : number) :
  Binary64.processLengthForDivisibility length =
  if lt length (Fin 3) then Fin 0
  else after_loop
         (Binary64.divisibility_loop maxIterations
            (Binary64.sub length (Fin 3)) 0).
Proof.
  unfold Binary64.processLengthForDivisibility, after_loop.
  destruct (lt length (Fin 3)); [reflexivity |].
  destruct (Binary64.divisibility_loop maxIterations
              (Binary64.sub length (Fin 3)) 0); reflexivity.
Qed.

Lemma binary64_breadth_unfold (breadth : number) :
  Binary64.processBreadthForDivisibility breadth =
  if lt breadth (Fin 2) then Fin 0
  else after_loop
         (Binary64.divisibility_loop maxIterations
            (Binary64.sub breadth (Fin 2)) 0).
Proof.
  unfold Binary64.processBreadthForDivisibility, after_loop.
  destruct (lt breadth (Fin 2)); [reflexivity |].
  destruct (Binary64.divisibility_loop maxIterations
              (Binary64.sub breadth (Fin 2)) 0); reflexivity.
Qed.

(** An adjuster on doubles, on a whole number [z] from its subtrahend
    [k] to [2 ^ 53]: the loop turns at most twice, stops where its
    condition is false, and the result is [(z - k) - (z - k) mod 3]. *)
Lemma binary64_adjuster_integer (z k : Z) :
  (0 < k)%Z -> (k <= z <= 2 ^ 53)%Z ->
  let r := Binary64.divisibility_loop maxIterations
             (Binary64.sub (of_Z z) (Fin (inject_Z k))) 0 in
  exists q',
    after_loop r = Fin q'
    /\ q' == inject_Z ((z - k) - (z - k) mod 3)
    /\ (snd r <= 2)%nat
    /\ loop_condition (fst r) (snd r) = false.
Proof.
  intros Hk Hz r.
  assert (Hv : (0 <= z - k < 2 ^ 53)%Z) by lia.
  destruct (binary64_sub_integer (inject_Z z) z k ltac:(reflexivity) Hv)
    as [q0 [S0 E0]].
  pose proof (Z.mod_pos_bound (z - k) 3 ltac:(lia)) as B.
  destruct (binary64_loop_integer maxIterations q0 0 (z - k) E0 Hv)
    as [q' [L Hq']].
  - unfold maxIterations. lia.
  - unfold maxIterations. lia.
  - unfold r, of_Z. rewrite S0, L. unfold after_loop. simpl fst. simpl snd.
    assert (Hm : (maxIterations <=? Z.to_nat ((z - k) mod 3))%nat = false).
    { apply Nat.leb_gt. unfold maxIterations. lia. }
    rewrite Hm. unfold Math_max. simpl lt.
    assert (Hge : 0 <= q').
    { rewrite Hq'. change 0 with (inject_Z 0). rewrite <- Zle_Qle.
      pose proof (Z.div_mod (z - k) 3 ltac:(lia)).
      pose proof (Z.div_pos (z - k) 3 ltac:(lia) ltac:(lia)). lia. }
    apply Qltb_false in Hge. rewrite Hge.
    exists q'. split; [reflexivity |]. split; [exact Hq' |].
    split; [lia |].
    destruct (loop_condition (Fin q') (Z.to_nat ((z - k) mod 3))) eqn:C;
      [| reflexivity].
    apply loop_condition_Fin in C as [C _]. exfalso. apply C.
    apply (multiple_of_3_comp (inject_Z ((z - k) - (z - k) mod 3))).
    + symmetry. exact Hq'.
    + apply multiple_of_3_inject.
      rewrite Zminus_mod, Zmod_mod, Z.sub_diag. reflexivity.
Qed.

(** On the whole numbers up to [2 ^ 53] the adjusters on doubles
    return what the exact ones return. *)
Lemma adjusters_exact_on_safe_integers (z : Z) :
  (z <= 2 ^ 53)%Z ->
  same (Binary64.processLengthForDivisibility (of_Z z))
    (processLengthForDivisibility (of_Z z))
  /\ same (Binary64.processBreadthForDivisibility (of_Z z))
       (processBreadthForDivisibility (of_Z z)).
Proof.
  intros Hz.
  rewrite binary64_length_unfold, binary64_breadth_unfold,
    processLength_unfold, processBreadth_unfold.
  split.
  - destruct (lt (of_Z z) (Fin 3)) eqn:L; [reflexivity |].
    apply Qltb_false in L. change 3 with (inject_Z 3) in L.
    rewrite <- Zle_Qle in L.
    destruct (binary64_adjuster_integer z 3 ltac:(lia) ltac:(lia))
      as [q1 [H1 [E1 _]]].
    change (Fin 3) with (Fin (inject_Z 3)). rewrite H1.
    change (sub (of_Z z) (Fin (inject_Z 3))) with (Fin (inject_Z z + - inject_Z 3)).
    assert (E : inject_Z z + - inject_Z 3 == inject_Z (z - 3)).
    { unfold Z.sub. rewrite inject_Z_plus, inject_Z_opp. reflexivity. }
    destruct (after_loop_integer (z - 3) _ E ltac:(lia)) as [q2 [H2 [E2 _]]].
    rewrite H2. apply same_Fin. rewrite E1, E2. reflexivity.
  - destruct (lt (of_Z z) (Fin 2)) eqn:L; [reflexivity |].
    apply Qltb_false in L. change 2 with (inject_Z 2) in L.
    rewrite <- Zle_Qle in L.
    destruct (binary64_adjuster_integer z 2 ltac:(lia) ltac:(lia))
      as [q1 [H1 [E1 _]]].
    change (Fin 2) with (Fin (inject_Z 2)). rewrite H1.
    change (sub (of_Z z) (Fin (inject_Z 2))) with (Fin (inject_Z z + - inject_Z 2)).
    assert (E : inject_Z z + - inject_Z 2 == inject_Z (z - 2)).
    { unfold Z.sub. rewrite inject_Z_plus, inject_Z_opp. reflexivity. }
    destruct (after_loop_integer (z - 2) _ E ltac:(lia)) as [q2 [H2 [E2 _]]].
    rewrite H2. apply same_Fin. rewrite E1, E2. reflexivity.
Qed.

(** The closed form on doubles, on a whole number from 0 to [2 ^ 53]. *)
Lemma binary64_closed_form_integer (q : Q) (v : Z) :
  q == inject_Z v -> (0 <= v < 2 ^ 53)%Z ->
  exists q',
    Binary64.closed_form (Fin q) = Fin q' /\ q' == inject_Z (v - v mod 3).
Proof.
  intros E Hv.
  destruct (closed_form_integer q v E ltac:(lia)) as [q1 [H1 E1]].
  unfold Binary64.closed_form, Binary64.sub.
  unfold closed_form in H1. rewrite H1.
  apply round_safe_integer; [exact E1 |].
  pose proof (Z.mod_pos_bound v 3 ltac:(lia)) as B.
  pose proof (Z.div_mod v 3 ltac:(lia)).
  pose proof (Z.div_pos v 3 ltac:(lia) ltac:(lia)). lia.
Qed.

Lemma same_trans (a b c : number) : same a b -> same b c -> same a c.
Proof.
  destruct a, b, c; simpl; try tauto. intros H1 H2. rewrite H1. exact H2.
Qed.

(** ** The loop and the closed form *)

(** C3, as the code has it.  For every whole raw value from the
    subtrahend up to [2 ^ 53] (the whole numbers from which doubles
    subtract exactly; a validated input is at most 10,000) the
    loop-based adjuster returns the same number as the closed form
    [v - (v % 3)] with [v = raw - subtrahend], in the arithmetic of
    doubles and in exact arithmetic alike. *)
Theorem adjusters_closed_form_on_integers (z : Z) :
  (z <= 2 ^ 53)%Z ->
  ((3 <= z)%Z ->
   same (Binary64.processLengthForDivisibility (of_Z z))
     (Binary64.closed_form (Binary64.sub (of_Z z) (Fin 3)))
   /\ same (processLengthForDivisibility (of_Z z))
        (closed_form (sub (of_Z z) (Fin 3))))
  /\ ((2 <= z)%Z ->
      same (Binary64.processBreadthForDivisibility (of_Z z))
        (Binary64.closed_form (Binary64.sub (of_Z z) (Fin 2)))
      /\ same (processBreadthForDivisibility (of_Z z))
           (closed_form (sub (of_Z z) (Fin 2)))).
Proof.
  intros Hmax.
  assert (exact : forall k : Z,
            (0 < k)%Z -> (k <= z)%Z ->
            same (after_loop
                    (Binary64.divisibility_loop maxIterations
                       (Binary64.sub (of_Z z) (Fin (inject_Z k))) 0))
              (Binary64.closed_form (Binary64.sub (of_Z z) (Fin (inject_Z k))))
            /\ same (after_loop
                       (divisibility_loop maxIterations
                          (sub (of_Z z) (Fin (inject_Z k))) 0))
                 (closed_form (sub (of_Z z) (Fin (inject_Z k))))).
  { intros k Hk Hz. split.
    - destruct (binary64_adjuster_integer z k Hk ltac:(lia)) as [q1 [H1 [E1 _]]].
      destruct (binary64_sub_integer (inject_Z z) z k ltac:(reflexivity)
                  ltac:(lia)) as [q0 [S0 E0]].
      rewrite H1. unfold of_Z. rewrite S0.
      destruct (binary64_closed_form_integer q0 (z - k) E0 ltac:(lia))
        as [q2 [H2 E2]].
      rewrite H2. apply same_Fin. rewrite E1, E2. reflexivity.
    - change (sub (of_Z z) (Fin (inject_Z k)))
        with (Fin (inject_Z z + - inject_Z k)).
      assert (E : inject_Z z + - inject_Z k == inject_Z (z - k)).
      { unfold Z.sub. rewrite inject_Z_plus, inject_Z_opp. reflexivity. }
      destruct (after_loop_integer (z - k) _ E ltac:(lia)) as [q1 [H1 [E1 _]]].
      destruct (closed_form_integer _ (z - k) E ltac:(lia)) as [q2 [H2 E2]].
      rewrite H1, H2. apply same_Fin. rewrite E1, E2. reflexivity. }
  split; intros Hz.
  - rewrite binary64_length_unfold, processLength_unfold.
    assert (L : lt (of_Z z) (Fin 3) = false).
    { apply Qltb_false. change 3 with (inject_Z 3). rewrite <- Zle_Qle. lia. }
    rewrite L. apply (exact 3%Z); lia.
  - rewrite binary64_breadth_unfold, processBreadth_unfold.
    assert (L : lt (of_Z z) (Fin 2) = false).
    { apply Qltb_false. change 2 with (inject_Z 2). rewrite <- Zle_Qle. lia. }
    rewrite L. apply (exact 2%Z); lia.
Qed.

Lemma adjusters_closed_form_on_integers_witness :
  (same (Binary64.processLengthForDivisibility (of_Z 149))
     (Binary64.closed_form (Binary64.sub (of_Z 149) (Fin 3)))
   /\ same (processLengthForDivisibility (of_Z 149))
        (closed_form (sub (of_Z 149) (Fin 3))))
  /\ (same (Binary64.processBreadthForDivisibility (of_Z 149))
        (Binary64.closed_form (Binary64.sub (of_Z 149) (Fin 2)))
      /\ same (processBreadthForDivisibility (of_Z 149))
           (closed_form (sub (of_Z 149) (Fin 2)))).
Proof.
  assert (H : (149 <= 2 ^ 53)%Z) by (vm_compute; discriminate).
  split.
  - apply (proj1 (adjusters_closed_form_on_integers 149 H)). lia.
  - apply (proj2 (adjusters_closed_form_on_integers 149 H)). lia.
Defined.

(** C3 fails off the integers: for the length 7.5 (so [v = 4.5 > 0])
    the loop steps 4.5, 3.5, ..., -0.5 and the adjuster returns 0,
    while the closed form gives 4.5 - 1.5 = 3; for the breadth 6.5
    likewise.  It also fails on whole numbers beyond [2 ^ 53]: the
    double [10 ^ 17] less 3 is [10 ^ 17] again, and so it is less 1;
    the loop never moves and the adjuster returns 0 at the iteration
    ceiling, while the closed form gives [10 ^ 17]. *)
Lemma closed_form_counterexample :
  validate_dimension "Length" (Value (Fin 7.5)) = []
  /\ lt (Fin 0) (sub (Fin 7.5) (Fin 3)) = true
  /\ same (processLengthForDivisibility (Fin 7.5)) (Fin 0)
  /\ same (closed_form (sub (Fin 7.5) (Fin 3))) (Fin 3)
  /\ ~ same (processLengthForDivisibility (Fin 7.5))
        (closed_form (sub (Fin 7.5) (Fin 3)))
  /\ ~ same (processBreadthForDivisibility (Fin 6.5))
        (closed_form (sub (Fin 6.5) (Fin 2)))
  /\ same (Binary64.processLengthForDivisibility (Fin 7.5)) (Fin 0)
  /\ same (Binary64.closed_form (Binary64.sub (Fin 7.5) (Fin 3))) (Fin 3)
  /\ same (Binary64.round (inject_Z (10 ^ 17))) (of_Z (10 ^ 17))
  /\ same (Binary64.sub (of_Z (10 ^ 17)) (Fin 3)) (of_Z (10 ^ 17))
  /\ same (Binary64.processLengthForDivisibility (of_Z (10 ^ 17))) (Fin 0)
  /\ same (Binary64.closed_form (Binary64.sub (of_Z (10 ^ 17)) (Fin 3)))
       (of_Z (10 ^ 17))
  /\ ~ same (Binary64.processLengthForDivisibility (of_Z (10 ^ 17)))
        (Binary64.closed_form (Binary64.sub (of_Z (10 ^ 17)) (Fin 3))).
Proof.
  do 12 (split;
         [solve [vm_compute; reflexivity | vm_compute; discriminate] |]).
  vm_compute. discriminate.
Qed.

(** ** The iteration ceiling *)

(** C10 fails on whole numbers beyond [2 ^ 53].  [10 ^ 17] is a double;
    less 3 it is [10 ^ 17] again, which leaves the remainder 1 by 3,
    and less 1 it is [10 ^ 17] still: the loop of either adjuster
    turns 100 times without moving, and the adjuster returns 0 at the
    ceiling. *)
Lemma ceiling_reached_counterexample :
  same (Binary64.round (inject_Z (10 ^ 17))) (of_Z (10 ^ 17))
  /\ snd (Binary64.divisibility_loop maxIterations
            (Binary64.sub (of_Z (10 ^ 17)) (Fin 3)) 0) = maxIterations
  /\ ~ (snd (Binary64.divisibility_loop maxIterations
               (Binary64.sub (of_Z (10 ^ 17)) (Fin 3)) 0) <= 2)%nat
  /\ Binary64.processLengthForDivisibility (of_Z (10 ^ 17)) = Fin 0
  /\ snd (Binary64.divisibility_loop maxIterations
            (Binary64.sub (of_Z (10 ^ 17)) (Fin 2)) 0) = maxIterations
  /\ ~ (snd (Binary64.divisibility_loop maxIterations
               (Binary64.sub (of_Z (10 ^ 17)) (Fin 2)) 0) <= 2)%nat
  /\ Binary64.processBreadthForDivisibility (of_Z (10 ^ 17)) = Fin 0.
Proof.
  assert (E3 : snd (Binary64.divisibility_loop maxIterations
                      (Binary64.sub (of_Z (10 ^ 17)) (Fin 3)) 0)
               = maxIterations) by (vm_compute; reflexivity).
  assert (E2 : snd (Binary64.divisibility_loop maxIterations
                      (Binary64.sub (of_Z (10 ^ 17)) (Fin 2)) 0)
               = maxIterations) by (vm_compute; reflexivity).
  split; [vm_compute; reflexivity |].
  split; [exact E3 |].
  split; [rewrite E3; unfold maxIterations; lia |].
  split; [vm_compute; reflexivity |].
  split; [exact E2 |].
  split; [rewrite E2; unfold maxIterations; lia |].
  vm_compute. reflexivity.
Qed.

(** C10, as the code has it.  For every whole raw input up to [2 ^ 53]
    an adjuster either returns 0 at once (raw below the subtrahend) or
    its loop stops after at most 2 turns, at a state where its
    condition is false, so the ceiling of 100 turns is not reached;
    the length 200.5 passes validation, makes the loop turn 100 times,
    and the adjuster returns 0.  All of it in the arithmetic of
    doubles. *)
Theorem ceiling_unreachable_on_safe_integers (z : Z) :
  (z <= 2 ^ 53)%Z ->
  ((z < 3)%Z ->
   lt (of_Z z) (Fin 3) = true
   /\ Binary64.processLengthForDivisibility (of_Z z) = Fin 0)
  /\ ((3 <= z)%Z ->
      let r3 := Binary64.divisibility_loop maxIterations
                  (Binary64.sub (of_Z z) (Fin 3)) 0 in
      (snd r3 <= 2)%nat /\ loop_condition (fst r3) (snd r3) = false)
  /\ ((z < 2)%Z ->
      lt (of_Z z) (Fin 2) = true
      /\ Binary64.processBreadthForDivisibility (of_Z z) = Fin 0)
  /\ ((2 <= z)%Z ->
      let r2 := Binary64.divisibility_loop maxIterations
                  (Binary64.sub (of_Z z) (Fin 2)) 0 in
      (snd r2 <= 2)%nat /\ loop_condition (fst r2) (snd r2) = false)
  /\ (validate_dimension "Length" (Value (Fin 200.5)) = []
      /\ snd (Binary64.divisibility_loop maxIterations
                (Binary64.sub (Fin 200.5) (Fin 3)) 0)
         = maxIterations
      /\ Binary64.processLengthForDivisibility (Fin 200.5) = Fin 0
      /\ validate_dimension "Breadth" (Value (Fin 200.5)) = []
      /\ snd (Binary64.divisibility_loop maxIterations
                (Binary64.sub (Fin 200.5) (Fin 2)) 0)
         = maxIterations
      /\ Binary64.processBreadthForDivisibility (Fin 200.5) = Fin 0).
Proof.
  intros Hmax.
  assert (early : forall k : Z,
            (z < k)%Z -> lt (of_Z z) (Fin (inject_Z k)) = true).
  { intros k Hk. apply Qltb_true. rewrite <- Zlt_Qlt. exact Hk. }
  split; [| split; [| split; [| split]]].
  - intros Hz. pose proof (early 3%Z Hz) as L.
    change (Fin (inject_Z 3)) with (Fin 3) in L.
    split; [exact L |]. rewrite binary64_length_unfold, L. reflexivity.
  - intros Hz r3.
    destruct (binary64_adjuster_integer z 3 ltac:(lia) ltac:(lia))
      as [_ [_ [_ [H1 H2]]]].
    split; assumption.
  - intros Hz. pose proof (early 2%Z Hz) as L.
    change (Fin (inject_Z 2)) with (Fin 2) in L.
    split; [exact L |]. rewrite binary64_breadth_unfold, L. reflexivity.
  - intros Hz r2.
    destruct (binary64_adjuster_integer z 2 ltac:(lia) ltac:(lia))
      as [_ [_ [_ [H1 H2]]]].
    split; assumption.
  - do 5 (split; [vm_compute; reflexivity |]). vm_compute. reflexivity.
Qed.

Lemma ceiling_unreachable_on_safe_integers_witness :
  (snd (Binary64.divisibility_loop maxIterations
          (Binary64.sub (of_Z 149) (Fin 3)) 0) <= 2)%nat
  /\ loop_condition
       (fst (Binary64.divisibility_loop maxIterations
               (Binary64.sub (of_Z 149) (Fin 3)) 0))
       (snd (Binary64.divisibility_loop maxIterations
               (Binary64.sub (of_Z 149) (Fin 3)) 0)) = false.
Proof.
  assert (H : (149 <= 2 ^ 53)%Z) by (vm_compute; discriminate).
  apply (proj1 (proj2 (ceiling_unreachable_on_safe_integers 149 H))). lia.
Defined.

(** ** The worked examples *)

(** C1.  The five calls of the specification return exactly the stated
    final length, final breadth and area. *)
Theorem calculateSquareFeet_examples :
  result_is
    (calculateSquareFeet (Value (Fin 144)) (Value (Fin 144)) (Some "retail"))
    (Fin 144) (Fin 144) (Fin 144.00)
  /\ result_is
       (calculateSquareFeet (Value (Fin 150)) (Value (Fin 146))
          (Some "granite_shops"))
       (Fin 147) (Fin 144) (Fin 147.00)
  /\ result_is
       (calculateSquareFeet (Value (Fin 149)) (Value (Fin 145))
          (Some "granite_shops"))
       (Fin 144) (Fin 141) (Fin 141.00)
  /\ result_is
       (calculateSquareFeet (Value (Fin 150)) (Value (Fin 100)) (Some "builders"))
       (Fin 147) (Fin 100) (Fin 102.08)
  /\ result_is
       (calculateSquareFeet (Value (Fin 3)) (Value (Fin 2)) (Some "exporters"))
       (Fin 0) (Fin 0) (Fin 0).
Proof.
  repeat split; vm_compute; reflexivity.
Qed.

(** The other expectations of the repository's own test suite for the
    engine. *)
Example engine_test_suite :
  result_is
    (calculateSquareFeet (Value (Fin 100)) (Value (Fin 50)) (Some "retail"))
    (Fin 100) (Fin 50) (Fin 34.72)
  /\ result_is
       (calculateSquareFeet (Value (Fin 149)) (Value (Fin 100)) (Some "builders"))
       (Fin 144) (Fin 100) (Fin 100)
  /\ result_is
       (calculateSquareFeet (Value (Fin 150)) (Value (Fin 100)) (Some "exporters"))
       (Fin 147) (Fin 98) (Fin 100.04)
  /\ same (processLength (Fin 150) "granite_shops") (Fin 147)
  /\ same (processLength (Fin 149) "builders") (Fin 144)
  /\ same (processLength (Fin 150) "exporters") (Fin 147)
  /\ same (processBreadth (Fin 146) "outstation_parties") (Fin 144)
  /\ same (processBreadth (Fin 100) "builders") (Fin 100)
  /\ same (processBreadth (Fin 100) "exporters") (Fin 98)
  /\ throws_validation (calculateSquareFeet Null (Value (Fin 100)) (Some "retail"))
  /\ throws_validation
       (calculateSquareFeet (Value (Fin 100)) (Value (Fin 100)) None)
  /\ throws_validation
       (calculateSquareFeet (Value NaN) (Value (Fin 24)) (Some "retail"))
  /\ throws_validation
       (calculateSquareFeet (Value (Fin 99999)) (Value (Fin 24)) (Some "retail")).
Proof.
  repeat split; vm_compute; reflexivity.
Qed.

(** ** Validation *)

Lemma validate_dimension_length (name : string) (a : argument) :
  List.length (validate_dimension name a)
  = if dimension_valid a then 0%nat else 1%nat.
Proof.
  unfold validate_dimension, dimension_valid.
  destruct a as [| | | [q | | |]]; try reflexivity.
  simpl. unfold gt. simpl. unfold Qltb.
  destruct (Qle_bool q 0); [reflexivity |].
  destruct (Qle_bool q 10000); reflexivity.
Qed.

Lemma validate_customerType_length (customerType : option string) :
  List.length (validate_customerType customerType)
  = if customerType_valid customerType then 0%nat else 1%nat.
Proof.
  unfold validate_customerType, customerType_valid, is_falsy.
  destruct customerType as [s |]; [| reflexivity].
  destruct (String.eqb_spec s "") as [-> | _]; [reflexivity |].
  destruct (includes CUSTOMER_TYPES.values s); reflexivity.
Qed.

Lemma validationErrors_length (length breadth : argument)
  (customerType : option string) :
  List.length (validationErrors length breadth customerType)
  = violations length breadth customerType.
Proof.
  unfold validationErrors, violations.
  rewrite !length_app, !validate_dimension_length, validate_customerType_length.
  lia.
Qed.

(** With a violation the call throws the validation error that carries
    every collected message. *)
Lemma calculateSquareFeet_invalid (length breadth : argument)
  (customerType : option string) :
  validationErrors length breadth customerType <> [] ->
  calculateSquareFeet length breadth customerType
  = Throw (mkError "Validation failed" (Some "validation"%string)
             (Some (validationErrors length breadth customerType)) None).
Proof.
  intros H. unfold calculateSquareFeet.
  destruct (validationErrors length breadth customerType) as [| m ms];
    [contradiction | reflexivity].
Qed.

(** Without one the call is the routed strategy. *)
Lemma calculateSquareFeet_valid (length breadth : argument)
  (customerType : option string) :
  validationErrors length breadth customerType = [] ->
  calculateSquareFeet length breadth customerType
  = try_catch (route customerType (parseFloat length) (parseFloat breadth))
      (fun error =>
         if negb (bool_decide (type error = Some "validation"%string))
         then Throw (mkError ("Calculation failed: " ++ message error)
                       (Some "calculation"%string) None (Some error))
         else Throw error).
Proof.
  intros H. unfold calculateSquareFeet. rewrite H. reflexivity.
Qed.

(** C4.  Every violation is collected before the call fails: when at
    least one of the three arguments breaks its rule, the call throws
    one error of type ['validation'] whose [details] are all the
    collected messages, one for each argument that breaks its rule (so
    three when all three do); and the three calls of the specification
    throw a validation error, the unrecognized type included. *)
Theorem validation_collects_every_violation :
  (forall (length breadth : argument) (customerType : option string),
     (0 < violations length breadth customerType)%nat ->
     exists msgs,
       calculateSquareFeet length breadth customerType
       = Throw (mkError "Validation failed" (Some "validation"%string)
                  (Some msgs) None)
       /\ msgs = validationErrors length breadth customerType
       /\ List.length msgs = violations length breadth customerType)
  /\ throws_validation
       (calculateSquareFeet (Value (Fin 0)) (Value (Fin 100)) (Some "retail"))
  /\ throws_validation
       (calculateSquareFeet (Value (Fin (-1))) (Value (Fin 100)) (Some "retail"))
  /\ throws_validation
       (calculateSquareFeet (Value (Fin 100)) (Value (Fin 100)) (Some "unknown")).
Proof.
  split; [| repeat split; reflexivity].
  intros length breadth customerType Hv.
  exists (validationErrors length breadth customerType).
  split; [| split; [reflexivity | apply validationErrors_length]].
  apply calculateSquareFeet_invalid. intros E.
  rewrite <- validationErrors_length, E in Hv. simpl in Hv. lia.
Qed.

Lemma validation_collects_every_violation_witness :
  exists msgs,
    calculateSquareFeet Null (Value (Fin (-5))) (Some "unknown")
    = Throw (mkError "Validation failed" (Some "validation"%string)
               (Some msgs) None)
    /\ msgs = validationErrors Null (Value (Fin (-5))) (Some "unknown")
    /\ List.length msgs = 3%nat.
Proof.
  apply (proj1 validation_collects_every_violation
           Null (Value (Fin (-5))) (Some "unknown"%string)).
  vm_compute. lia.
Defined.

(** ** The defensive check of the strategies *)

Lemma validate_dimension_nil (name : string) (a : argument) :
  validate_dimension name a = [] ->
  exists q, a = Value (Fin q) /\ 0 < q /\ q <= 10000.
Proof.
  intros H.
  assert (V : dimension_valid a = true).
  { pose proof (validate_dimension_length name a) as L. rewrite H in L.
    destruct (dimension_valid a); [reflexivity | discriminate]. }
  unfold dimension_valid in V.
  destruct a as [| | | [q | | |]]; try discriminate.
  apply andb_true_iff in V as [V1 V2].
  exists q. split; [reflexivity |]. split.
  - apply Qltb_true. exact V1.
  - apply Qle_bool_iff. exact V2.
Qed.

Lemma validate_customerType_nil (customerType : option string) :
  validate_customerType customerType = [] ->
  exists s, customerType = Some s /\ In s CUSTOMER_TYPES.values.
Proof.
  intros H.
  assert (V : customerType_valid customerType = true).
  { pose proof (validate_customerType_length customerType) as L.
    rewrite H in L.
    destruct (customerType_valid customerType); [reflexivity | discriminate]. }
  destruct customerType as [s |]; [| discriminate].
  exists s. split; [reflexivity |].
  unfold customerType_valid, includes in V.
  apply existsb_exists in V as [s' [Hin Heq]].
  apply String.eqb_eq in Heq. subst s'. exact Hin.
Qed.

Lemma Math_max_zero (q : Q) :
  exists q', Math_max (Fin q) (Fin 0) = Fin q' /\ 0 <= q'.
Proof.
  unfold Math_max. simpl lt. destruct (Qltb q 0) eqn:L.
  - exists 0. split; [reflexivity | lra].
  - exists q. split; [reflexivity |]. apply Qltb_false. exact L.
Qed.

Lemma after_loop_nonneg (q : Q) :
  exists q',
    after_loop (divisibility_loop maxIterations (Fin q) 0) = Fin q' /\ 0 <= q'.
Proof.
  unfold after_loop.
  destruct (maxIterations <=? _)%nat.
  - exists 0. split; [reflexivity | lra].
  - destruct (divisibility_loop_Fin maxIterations q 0) as [q1 E].
    rewrite E. apply Math_max_zero.
Qed.

(** On a finite length or breadth an adjuster returns a finite value
    that is not negative. *)
Lemma adjusters_nonneg (q : Q) :
  (exists q', processLengthForDivisibility (Fin q) = Fin q' /\ 0 <= q')
  /\ (exists q', processBreadthForDivisibility (Fin q) = Fin q' /\ 0 <= q').
Proof.
  rewrite processLength_unfold, processBreadth_unfold. split.
  - destruct (lt (Fin q) (Fin 3)).
    + exists 0. split; [reflexivity | lra].
    + apply after_loop_nonneg.
  - destruct (lt (Fin q) (Fin 2)).
    + exists 0. split; [reflexivity | lra].
    + apply after_loop_nonneg.
Qed.

(** Each strategy is the shared tail on its final dimensions. *)
Lemma calculateRetail_area (length breadth : number) :
  calculateRetail length breadth = area_result "Retail" length breadth.
Proof. reflexivity. Qed.

Lemma calculateGraniteShops_area (length breadth : number) :
  calculateGraniteShops length breadth
  = area_result "Granite Shops" (processLengthForDivisibility length)
      (processBreadthForDivisibility breadth).
Proof. reflexivity. Qed.

Lemma calculateBuilders_area (length breadth : number) :
  calculateBuilders length breadth
  = area_result "Builders" (processLengthForDivisibility length) breadth.
Proof. reflexivity. Qed.

Lemma calculateExporters_area (length breadth : number) :
  calculateExporters length breadth
  = area_result "Exporters" (Math_max (sub length (Fin 3)) (Fin 0))
      (Math_max (sub breadth (Fin 2)) (Fin 0)).
Proof. reflexivity. Qed.

(** On finite, non-negative final dimensions the area is finite and
    not negative: the check does not throw, and the rounded area is not
    negative either. *)
Lemma area_result_returns (strategy : string) (a b : Q) :
  0 <= a -> 0 <= b -> returns_area (area_result strategy (Fin a) (Fin b)).
Proof.
  intros Ha Hb. unfold area_result, returns_area.
  change (mul (Fin a) (Fin b)) with (Fin (a * b)).
  change (div (Fin (a * b)) (Fin 144)) with (Fin (a * b / 144)).
  assert (Hsf : 0 <= a * b / 144).
  { apply Qle_shift_div_l; [reflexivity |]. rewrite Qmult_0_l.
    apply Qmult_le_0_compat; assumption. }
  simpl isFinite. simpl lt.
  assert (L : Qltb (a * b / 144) 0 = false) by (apply Qltb_false; exact Hsf).
  rewrite L. cbn [negb orb try_catch].
  exists (mkResult (Fin a) (Fin b)
            (Fin (inject_Z (Qfloor (a * b / 144 * 100 + (1 # 2))) / 100))).
  exists (inject_Z (Qfloor (a * b / 144 * 100 + (1 # 2))) / 100).
  split; [reflexivity |]. split; [reflexivity |].
  apply Qle_shift_div_l; [reflexivity |]. rewrite Qmult_0_l.
  assert (F : (0 <= Qfloor (a * b / 144 * 100 + (1 # 2)))%Z).
  { rewrite <- (Qfloor_Z 0). apply Qfloor_resp_le.
    change (inject_Z 0) with 0. lra. }
  change 0 with (inject_Z 0). rewrite <- Zle_Qle. exact F.
Qed.

(** C5.  When the three arguments pass validation, no strategy throws
    on the parsed dimensions and neither does the entry point: each
    returns a result whose area is finite and not negative, so the
    branch [throw new Error('Invalid calculation result')] is not
    taken. *)
Theorem strategies_return_on_valid_input (length breadth : argument)
  (customerType : option string) :
  validationErrors length breadth customerType = [] ->
  returns_area (calculateRetail (parseFloat length) (parseFloat breadth))
  /\ returns_area (calculateGraniteShops (parseFloat length) (parseFloat breadth))
  /\ returns_area (calculateBuilders (parseFloat length) (parseFloat breadth))
  /\ returns_area (calculateExporters (parseFloat length) (parseFloat breadth))
  /\ returns_area (calculateSquareFeet length breadth customerType).
Proof.
  intros H. pose proof H as Hall.
  unfold validationErrors in H.
  apply app_eq_nil in H as [Hl H]. apply app_eq_nil in H as [Hb Ht].
  apply validate_dimension_nil in Hl as [l [-> [Hl0 Hl1]]].
  apply validate_dimension_nil in Hb as [b [-> [Hb0 Hb1]]].
  apply validate_customerType_nil in Ht as [s [-> Hs]].
  simpl parseFloat.
  destruct (adjusters_nonneg l) as [[l' [El Hl']] _].
  destruct (adjusters_nonneg b) as [_ [b' [Eb Hb']]].
  destruct (Math_max_zero (l + - (3))) as [le [Ele Hle]].
  destruct (Math_max_zero (b + - (2))) as [be [Ebe Hbe]].
  assert (R : returns_area (calculateRetail (Fin l) (Fin b))).
  { rewrite calculateRetail_area. apply area_result_returns; lra. }
  assert (G : returns_area (calculateGraniteShops (Fin l) (Fin b))).
  { rewrite calculateGraniteShops_area, El, Eb.
    apply area_result_returns; assumption. }
  assert (B : returns_area (calculateBuilders (Fin l) (Fin b))).
  { rewrite calculateBuilders_area, El. apply area_result_returns; lra. }
  assert (X : returns_area (calculateExporters (Fin l) (Fin b))).
  { rewrite calculateExporters_area.
    change (sub (Fin l) (Fin 3)) with (Fin (l + - (3))).
    change (sub (Fin b) (Fin 2)) with (Fin (b + - (2))).
    rewrite Ele, Ebe. apply area_result_returns; assumption. }
  repeat split; try assumption.
  rewrite (calculateSquareFeet_valid _ _ _ Hall). simpl parseFloat.
  assert (Hroute : returns_area (route (Some s) (Fin l) (Fin b))).
  { simpl in Hs.
    destruct Hs as [<- | [<- | [<- | [<- | [<- | []]]]]]; assumption. }
  destruct Hroute as [r [q [E [Hq Hq0]]]].
  rewrite E. exists r, q. auto.
Qed.

Lemma strategies_return_on_valid_input_witness :
  returns_area (calculateGraniteShops (Fin 7.5) (Fin 200.5))
  /\ returns_area
       (calculateSquareFeet (Value (Fin 7.5)) (Value (Fin 200.5))
          (Some "builders")).
Proof.
  pose proof (strategies_return_on_valid_input (Value (Fin 7.5))
                (Value (Fin 200.5)) (Some "builders"%string) eq_refl)
    as [_ [G [_ [_ E]]]].
  split; [exact G | exact E].
Defined.

(** ** Outstation parties *)

(** C6.  [calculateOutstationParties] returns exactly what
    [calculateGraniteShops] returns, for all numbers; and the entry
    point gives the same completion for the two customer types, for all
    arguments. *)
Theorem outstation_same_as_granite_shops :
  (forall length breadth : number,
     calculateOutstationParties length breadth
     = calculateGraniteShops length breadth)
  /\ (forall length breadth : argument,
       calculateSquareFeet length breadth (Some CUSTOMER_TYPES.OUTSTATION_PARTIES)
       = calculateSquareFeet length breadth (Some CUSTOMER_TYPES.GRANITE_SHOPS)).
Proof.
  split; [reflexivity |].
  intros length breadth. unfold calculateSquareFeet, validationErrors.
  change (validate_customerType (Some CUSTOMER_TYPES.OUTSTATION_PARTIES))
    with (@nil string).
  change (validate_customerType (Some CUSTOMER_TYPES.GRANITE_SHOPS))
    with (@nil string).
  reflexivity.
Qed.

End EngineProperties.

(** * Properties of the slab-entry operations *)

Module PersistenceProperties.

Import Persistence.
Local Open Scope Q_scope.

(** ** Aggregates *)

Lemma fold_left_Qplus (l : list Q) (x : Q) :
  fold_left Qplus l x == x + fold_right Qplus 0 l.
Proof.
  revert x. induction l as [| y l IH]; intros x; simpl.
  - ring.
  - rewrite IH. ring.
Qed.

Lemma COALESCE_SUM (l : list Q) :
  COALESCE (SUM l) 0 == fold_right Qplus 0 l.
Proof.
  destruct l as [| x l]; simpl.
  - reflexivity.
  - apply fold_left_Qplus.
Qed.

Lemma sum_of_areas_map (rows : list slab_row) :
  sum_of_areas rows = fold_right Qplus 0 (map square_feet rows).
Proof.
  induction rows as [| r rows IH]; simpl; [reflexivity |].
  rewrite <- IH. reflexivity.
Qed.

(** The recomputed total is the sum of the areas of the sheet's
    current entries. *)
Lemma recomputed_total_sum (sid : uuid) (db : database) :
  recomputed_total sid db == sum_of_areas (entries_of_sheet sid db).
Proof.
  unfold recomputed_total. rewrite COALESCE_SUM, sum_of_areas_map. reflexivity.
Qed.

Lemma fold_left_max_ge (l : list Z) (x : Z) :
  (x <= fold_left Z.max l x)%Z
  /\ Forall (fun y => (y <= fold_left Z.max l x)%Z) l.
Proof.
  revert x. induction l as [| y l IH]; intros x; simpl.
  - split; [lia | constructor].
  - destruct (IH (Z.max x y)) as [H1 H2]. split; [lia |].
    constructor; [lia | exact H2].
Qed.

Lemma fold_left_max_le (l : list Z) (x m : Z) :
  (x <= m)%Z -> Forall (fun y => (y <= m)%Z) l -> (fold_left Z.max l x <= m)%Z.
Proof.
  revert x. induction l as [| y l IH]; intros x Hx Hl; simpl.
  - exact Hx.
  - inversion Hl; subst. apply IH; [lia | assumption].
Qed.

(** [COALESCE(MAX(...), 0)] bounds every element. *)
Lemma COALESCE_MAX_bound (l : list Z) :
  Forall (fun y => (y <= COALESCE (MAX l) 0)%Z) l.
Proof.
  destruct l as [| x l]; simpl; [constructor |].
  destruct (fold_left_max_ge l x) as [H1 H2]. constructor; assumption.
Qed.

Lemma one_to_S (n : nat) : one_to (S n) = one_to n ++ [Z.of_nat (S n)].
Proof. unfold one_to. rewrite seq_S, map_app. reflexivity. Qed.

Lemma one_to_bound (n : nat) : Forall (fun y => (1 <= y <= Z.of_nat n)%Z) (one_to n).
Proof.
  unfold one_to. apply List.Forall_forall. intros y Hy.
  apply in_map_iff in Hy as [k [<- Hk]]. apply in_seq in Hk. lia.
Qed.

(** The largest of [1..n] is [n] (and [0] stands in when [n = 0]). *)
Lemma COALESCE_MAX_one_to (n : nat) : COALESCE (MAX (one_to n)) 0%Z = Z.of_nat n.
Proof.
  destruct n as [| n]; [reflexivity |].
  apply Z.le_antisymm.
  - pose proof (one_to_bound (S n)) as B.
    destruct (one_to (S n)) as [| x l] eqn:E; [discriminate |]. simpl.
    inversion B; subst.
    apply fold_left_max_le; [lia |].
    eapply List.Forall_impl; [| eassumption]. simpl. intros; lia.
  - pose proof (COALESCE_MAX_bound (one_to (S n))) as B.
    rewrite one_to_S in B at 1. apply List.Forall_app in B as [_ B].
    inversion B; subst. assumption.
Qed.

Lemma consecutive_shift (n : nat) (m a : nat) :
  map (fun k => (Z.of_nat n + Z.of_nat k)%Z) (seq a m)
  = map Z.of_nat (seq (n + a) m).
Proof.
  revert a. induction m as [| m IH]; intros a; simpl; [reflexivity |].
  f_equal; [lia |]. rewrite IH. f_equal. f_equal. lia.
Qed.

Lemma consecutive_one_to (n m : nat) :
  one_to n ++ consecutive (Z.of_nat n) m = one_to (n + m).
Proof.
  unfold one_to, consecutive. rewrite seq_app, map_app. f_equal.
  rewrite consecutive_shift. f_equal. f_equal. lia.
Qed.

(** ** The trigger function *)

Lemma existsb_eqb_In (x : uuid) (l : list uuid) :
  existsb (Nat.eqb x) l = true <-> In x l.
Proof.
  rewrite existsb_exists. split.
  - intros [y [Hy E]]. apply Nat.eqb_eq in E. subst. exact Hy.
  - intros H. exists x. split; [exact H | apply Nat.eqb_refl].
Qed.

Lemma recompute_nil (db : database) : recompute [] db = db.
Proof.
  destruct db as [sheets entries n]. unfold recompute. simpl. f_equal.
  apply map_id.
Qed.

Lemma trigger_recompute (NEW OLD : option slab_row) (db : database) :
  update_measurement_sheet_total NEW OLD db
  = recompute (match owning_sheet NEW OLD with
               | Some sid => [sid]
               | None => []
               end) db.
Proof.
  unfold update_measurement_sheet_total.
  destruct (owning_sheet NEW OLD) as [sid |]; [| symmetry; apply recompute_nil].
  unfold recompute. f_equal. apply map_ext. intros s. simpl.
  rewrite orb_false_r.
  destruct (Nat.eqb_spec (sheet_id s) sid) as [-> | _]; reflexivity.
Qed.

Lemma recompute_recompute (sids1 sids2 : list uuid) (db : database) :
  recompute sids2 (recompute sids1 db) = recompute (sids1 ++ sids2) db.
Proof.
  unfold recompute. simpl. f_equal. rewrite map_map. apply map_ext.
  intros s. rewrite existsb_app. cbv beta.
  destruct (existsb (Nat.eqb (sheet_id s)) sids1) eqn:E1;
    cbn [sheet_id orb]; rewrite ?E1;
    destruct (existsb (Nat.eqb (sheet_id s)) sids2); reflexivity.
Qed.

(** The row triggers of a statement recompute the totals of the sheets
    of the changed rows and leave everything else as it is. *)
Lemma fire_row_triggers_recompute
  (events : list (option slab_row * option slab_row)) (db : database) :
  fire_row_triggers events db = recompute (event_sheets events) db.
Proof.
  revert db. induction events as [| ev events IH]; intros db.
  - symmetry. apply recompute_nil.
  - unfold fire_row_triggers in *. simpl fold_left. rewrite IH.
    rewrite trigger_recompute, recompute_recompute. reflexivity.
Qed.

(** After the recomputation the total of each of those sheets is the
    sum of the areas of its entries. *)
Lemma recompute_owning (sids : list uuid) (db : database) (s : sheet_row) :
  In s (measurement_sheets (recompute sids db)) ->
  In (sheet_id s) sids ->
  total_matches s (recompute sids db).
Proof.
  simpl. intros Hs Hin. apply in_map_iff in Hs as [s0 [E _]].
  assert (Hid : sheet_id s = sheet_id s0).
  { subst s. destruct (existsb _ sids); reflexivity. }
  rewrite Hid in Hin. apply existsb_eqb_In in Hin. rewrite Hin in E.
  subst s. exact (recomputed_total_sum (sheet_id s0) db).
Qed.

(** Recomputing keeps consistent totals consistent, when the rows of
    the other sheets have not changed. *)
Lemma recompute_consistent (sids : list uuid) (db0 db1 : database) :
  totals_consistent db0 ->
  measurement_sheets db1 = measurement_sheets db0 ->
  (forall sid, existsb (Nat.eqb sid) sids = false ->
               entries_of_sheet sid db1 = entries_of_sheet sid db0) ->
  totals_consistent (recompute sids db1).
Proof.
  unfold totals_consistent. intros Hc Hsheets Hrows. simpl.
  rewrite Hsheets. apply List.Forall_map.
  eapply List.Forall_impl; [| exact Hc]. intros s Hs.
  destruct (existsb (Nat.eqb (sheet_id s)) sids) eqn:E.
  - exact (recomputed_total_sum (sheet_id s) db1).
  - unfold total_matches in *.
    change (entries_of_sheet (sheet_id s) (recompute sids db1))
      with (entries_of_sheet (sheet_id s) db1).
    rewrite (Hrows _ E). exact Hs.
Qed.

(** ** Statements *)

Lemma insert_rows_spec (vs : list insert_values) :
  forall db db' rs,
    insert_rows vs db = Some (db', rs) ->
    measurement_sheets db' = measurement_sheets db
    /\ slab_entries db' = slab_entries db ++ rs
    /\ map measurement_sheet_id rs = map v_measurement_sheet_id vs
    /\ map serial_number rs = map v_serial_number vs.
Proof.
  induction vs as [| v vs IH]; intros db db' rs H; simpl in H.
  - inversion H; subst. rewrite app_nil_r. auto.
  - destruct (row_checks _ && foreign_key_ok _ db && unique_ok _ _);
      [| discriminate].
    destruct (insert_rows vs _) as [[db2 rs2] |] eqn:E; [| discriminate].
    inversion H; subst. apply IH in E as [E1 [E2 [E3 E4]]]. simpl in *.
    rewrite E1, E2, <- app_assoc, E3, E4. auto.
Qed.

Lemma event_sheets_inserted (rs : list slab_row) :
  event_sheets (map (fun r => (Some r, @None slab_row)) rs)
  = map measurement_sheet_id rs.
Proof.
  induction rs as [| r rs IH]; simpl; [reflexivity |]. rewrite IH. reflexivity.
Qed.

Lemma event_sheets_updated (u : updateData) (rs : list slab_row) :
  event_sheets (map (fun r => (Some (set_columns u r), Some r)) rs)
  = map measurement_sheet_id rs.
Proof.
  induction rs as [| r rs IH]; simpl; [reflexivity |]. rewrite IH. reflexivity.
Qed.

Lemma event_sheets_deleted (rs : list slab_row) :
  event_sheets (map (fun r => (@None slab_row, Some r)) rs)
  = map measurement_sheet_id rs.
Proof.
  induction rs as [| r rs IH]; simpl; [reflexivity |]. rewrite IH. reflexivity.
Qed.

(** What [INSERT] does: the new rows are appended, then the totals of
    their sheets are recomputed. *)
Lemma INSERT_spec (vs : list insert_values) (db db' : database)
  (rs : list slab_row) :
  INSERT vs db = Done db' rs ->
  db' = recompute (map measurement_sheet_id rs)
          (mkDb (measurement_sheets db) (slab_entries db ++ rs)
             (uuids_generated db'))
  /\ map measurement_sheet_id rs = map v_measurement_sheet_id vs
  /\ map serial_number rs = map v_serial_number vs.
Proof.
  unfold INSERT. intros H.
  destruct vs as [| v vs]; [discriminate |].
  destruct (insert_rows (v :: vs) db) as [[db1 rs1] |] eqn:E; [| discriminate].
  inversion H; subst. clear H.
  apply insert_rows_spec in E as [E1 [E2 [E3 E4]]].
  rewrite fire_row_triggers_recompute, event_sheets_inserted.
  split; [| auto].
  destruct db1 as [sheets1 entries1 n1]. simpl in *. subst. reflexivity.
Qed.

Lemma filter_sheet_none (sid : uuid) (rs : list slab_row) :
  existsb (Nat.eqb sid) (map measurement_sheet_id rs) = false ->
  List.filter (fun r => Nat.eqb (measurement_sheet_id r) sid) rs = [].
Proof.
  induction rs as [| r rs IH]; simpl; [reflexivity |].
  intros H. apply orb_false_iff in H as [H1 H2].
  rewrite Nat.eqb_sym, H1. apply IH, H2.
Qed.

Lemma filter_sheet_updated (u : updateData) (target sid : uuid)
  (l : list slab_row) :
  (forall r, In r l -> Nat.eqb (id r) target = true ->
             Nat.eqb (measurement_sheet_id r) sid = false) ->
  List.filter (fun r => Nat.eqb (measurement_sheet_id r) sid)
    (map (fun r => if Nat.eqb (id r) target then set_columns u r else r) l)
  = List.filter (fun r => Nat.eqb (measurement_sheet_id r) sid) l.
Proof.
  induction l as [| r l IH]; intros H; simpl; [reflexivity |].
  rewrite IH by (intros r' Hr'; apply H; right; exact Hr').
  destruct (Nat.eqb (id r) target) eqn:E; [| reflexivity].
  simpl. rewrite (H r (or_introl eq_refl) E). reflexivity.
Qed.

Lemma filter_sheet_deleted (hit : slab_row -> bool) (sid : uuid)
  (l : list slab_row) :
  (forall r, In r l -> hit r = true ->
             Nat.eqb (measurement_sheet_id r) sid = false) ->
  List.filter (fun r => Nat.eqb (measurement_sheet_id r) sid)
    (List.filter (fun r => negb (hit r)) l)
  = List.filter (fun r => Nat.eqb (measurement_sheet_id r) sid) l.
Proof.
  induction l as [| r l IH]; intros H; simpl; [reflexivity |].
  destruct (hit r) eqn:E; simpl.
  - rewrite (H r (or_introl eq_refl) E).
    apply IH. intros r' Hr'. apply H. right. exact Hr'.
  - rewrite IH by (intros r' Hr'; apply H; right; exact Hr'). reflexivity.
Qed.

(** A row that a statement selects belongs to one of the sheets whose
    total the triggers recompute. *)
Lemma selected_sheet_listed (sel : slab_row -> bool) (sid : uuid)
  (l : list slab_row) (r : slab_row) :
  existsb (Nat.eqb sid) (map measurement_sheet_id (List.filter sel l)) = false ->
  In r l -> sel r = true -> Nat.eqb (measurement_sheet_id r) sid = false.
Proof.
  intros H Hin Hsel.
  destruct (Nat.eqb (measurement_sheet_id r) sid) eqn:E; [| reflexivity].
  apply Nat.eqb_eq in E. subst sid.
  assert (T : existsb (Nat.eqb (measurement_sheet_id r))
                (map measurement_sheet_id (List.filter sel l)) = true).
  { apply existsb_eqb_In. apply in_map. apply filter_In. auto. }
  congruence.
Qed.

(** What [UPDATE] does: the selected rows get their new columns, then
    the totals of their sheets are recomputed. *)
Lemma UPDATE_spec (u : updateData) (target : uuid) (db db' : database)
  (rs : list slab_row) :
  UPDATE u target db = Done db' rs ->
  let hit := List.filter (fun r => Nat.eqb (id r) target) (slab_entries db) in
  db' = recompute (map measurement_sheet_id hit)
          (mkDb (measurement_sheets db)
             (map (fun r => if Nat.eqb (id r) target then set_columns u r else r)
                (slab_entries db))
             (uuids_generated db))
  /\ rs = map (set_columns u) hit.
Proof.
  unfold UPDATE. intros H.
  destruct (forallb _ _); [| discriminate].
  inversion H; subst. clear H.
  rewrite fire_row_triggers_recompute, event_sheets_updated. auto.
Qed.

(** What [DELETE] does: the selected rows go, then the totals of their
    sheets are recomputed. *)
Lemma DELETE_spec (targets : list uuid) (db db' : database)
  (rs : list slab_row) :
  DELETE targets db = Done db' rs ->
  let hit (r : slab_row) := existsb (Nat.eqb (id r)) targets in
  db' = recompute (map measurement_sheet_id rs)
          (mkDb (measurement_sheets db)
             (List.filter (fun r => negb (hit r)) (slab_entries db))
             (uuids_generated db))
  /\ rs = List.filter hit (slab_entries db).
Proof.
  unfold DELETE. intros H. inversion H; subst. clear H.
  rewrite fire_row_triggers_recompute, event_sheets_deleted. auto.
Qed.

(** ** The tuples of a batch *)

Lemma consecutive_S (first : Z) (n : nat) :
  consecutive first (S n) = (first + 1)%Z :: consecutive (first + 1) n.
Proof.
  unfold consecutive. simpl. f_equal.
  rewrite <- seq_shift, map_map. apply map_ext. intros k. lia.
Qed.

Lemma batch_values_serials (sid : uuid) (l : list slabEntryData) :
  forall currentSerial,
    map v_serial_number (batch_values sid currentSerial l)
    = consecutive currentSerial (List.length l).
Proof.
  induction l as [| d l IH]; intros currentSerial; [reflexivity |].
  simpl. rewrite consecutive_S, IH. reflexivity.
Qed.

Lemma batch_values_sheet (sid : uuid) (l : list slabEntryData) :
  forall currentSerial,
    map v_measurement_sheet_id (batch_values sid currentSerial l)
    = repeat sid (List.length l).
Proof.
  induction l as [| d l IH]; intros currentSerial; [reflexivity |].
  simpl. rewrite IH. reflexivity.
Qed.

Lemma max_serial_bound (sid : uuid) (db : database) :
  Forall (fun y => (y <= max_serial sid db)%Z) (serials sid db).
Proof. apply COALESCE_MAX_bound. Qed.

Section ControllerLoop.

Variable sid : uuid.

Lemma agree_refl (l : list sheet_row) : agree sid l l.
Proof.
  induction l as [| s l IH]; constructor; [| exact IH]. split; reflexivity.
Qed.

(** Setting the total of the sheet [sid] to [T]. *)
Lemma agree_retotal (T : Q) (l1 l2 : list sheet_row) :
  agree sid l1 l2 ->
  map (fun s => if Nat.eqb (sheet_id s) sid then mkSheet (sheet_id s) T else s) l1
  = map (fun s => if Nat.eqb (sheet_id s) sid then mkSheet (sheet_id s) T else s) l2.
Proof.
  induction 1 as [| s1 s2 l1 l2 [Hid Hs] _ IH]; [reflexivity |].
  simpl. rewrite IH. f_equal. rewrite <- Hid.
  destruct (Nat.eqb_spec (sheet_id s1) sid) as [_ | Hne]; [reflexivity |].
  exact (Hs Hne).
Qed.

Lemma agree_foreign_key (r : slab_row) (c m : database) :
  agree sid (measurement_sheets c) (measurement_sheets m) ->
  foreign_key_ok r c = foreign_key_ok r m.
Proof.
  unfold foreign_key_ok.
  induction 1 as [| s1 s2 l1 l2 [Hid _] _ IH]; [reflexivity |].
  simpl. rewrite IH, Hid. reflexivity.
Qed.

Lemma recompute_one (X : database) :
  recompute [sid] X
  = mkDb (map (fun s => if Nat.eqb (sheet_id s) sid
                        then mkSheet (sheet_id s) (recomputed_total sid X)
                        else s)
            (measurement_sheets X))
      (slab_entries X) (uuids_generated X).
Proof.
  unfold recompute. f_equal. apply map_ext. intros s. simpl.
  rewrite orb_false_r.
  destruct (Nat.eqb_spec (sheet_id s) sid) as [-> | _]; reflexivity.
Qed.

Lemma agree_recompute (X m : database) :
  agree sid (measurement_sheets X) (measurement_sheets m) ->
  agree sid (measurement_sheets (recompute [sid] X)) (measurement_sheets m).
Proof.
  rewrite recompute_one. simpl.
  induction 1 as [| s1 s2 l1 l2 [Hid Hs] _ IH]; [constructor |].
  simpl. constructor; [| exact IH].
  destruct (Nat.eqb_spec (sheet_id s1) sid) as [E | Hne]; simpl.
  - split; [exact Hid |]. intros Hn. contradiction.
  - split; assumption.
Qed.

Lemma recompute_repeat (n : nat) (X : database) :
  recompute (repeat sid (S n)) X = recompute [sid] X.
Proof.
  unfold recompute. f_equal. apply map_ext. intros s.
  assert (E : existsb (Nat.eqb (sheet_id s)) (repeat sid (S n))
              = existsb (Nat.eqb (sheet_id s)) [sid]).
  { induction n as [| n IH]; [reflexivity |].
    change (repeat sid (S (S n))) with (sid :: repeat sid (S n)).
    cbn [existsb]. rewrite IH. simpl.
    destruct (Nat.eqb (sheet_id s) sid); reflexivity. }
  rewrite E. reflexivity.
Qed.

Lemma recompute_idempotent (X : database) :
  recompute [sid] (recompute [sid] X) = recompute [sid] X.
Proof.
  rewrite recompute_recompute. exact (recompute_repeat 1 X).
Qed.

(** ** One [INSERT] of one row *)

Lemma INSERT_one (v : insert_values) (c : database) :
  INSERT [v] c
  = if row_checks (row_of_values (uuids_generated c) v)
       && foreign_key_ok (row_of_values (uuids_generated c) v) c
       && unique_ok (row_of_values (uuids_generated c) v) (slab_entries c)
    then Done
           (recompute [v_measurement_sheet_id v]
              (mkDb (measurement_sheets c)
                 (slab_entries c ++ [row_of_values (uuids_generated c) v])
                 (S (uuids_generated c))))
           [row_of_values (uuids_generated c) v]
    else Failed.
Proof.
  unfold INSERT. cbn [insert_rows].
  destruct (row_checks _ && foreign_key_ok _ c && unique_ok _ (slab_entries c));
    [| reflexivity].
  rewrite fire_row_triggers_recompute. reflexivity.
Qed.

Lemma max_serial_next (c : database) (r : slab_row) (n : nat) :
  measurement_sheet_id r = sid ->
  serial_number r = (max_serial sid c + 1)%Z ->
  max_serial sid
    (recompute [sid]
       (mkDb (measurement_sheets c) (slab_entries c ++ [r]) n))
  = (max_serial sid c + 1)%Z.
Proof.
  intros Hsid Hser. unfold max_serial, entries_of_sheet. simpl.
  rewrite List.filter_app, map_app. simpl. rewrite Hsid, Nat.eqb_refl. simpl.
  rewrite Hser.
  pose proof (max_serial_bound sid c) as B.
  unfold serials, max_serial, entries_of_sheet in B.
  set (l := map serial_number
              (List.filter (fun r0 => Nat.eqb (measurement_sheet_id r0) sid)
                 (slab_entries c))) in *.
  set (m := COALESCE (MAX l) 0%Z) in *.
  assert (Hle : (COALESCE (MAX (l ++ [(m + 1)%Z])) 0 <= m + 1)%Z).
  { destruct l as [| x l']; [simpl; lia |].
    simpl. apply fold_left_max_le.
    - inversion B; subst. lia.
    - apply List.Forall_app. split.
      + inversion B as [| ? ? _ B']; subst.
        eapply List.Forall_impl; [| exact B']. intros y Hy. simpl in Hy. lia.
      + constructor; [lia | constructor]. }
  pose proof (COALESCE_MAX_bound (l ++ [(m + 1)%Z])) as B2.
  rewrite List.Forall_forall in B2.
  assert (Hin : In (m + 1)%Z (l ++ [(m + 1)%Z]))
    by (apply in_or_app; right; left; reflexivity).
  specialize (B2 _ Hin). change (max_serial sid c) with m. lia.
Qed.

(** ** The loop and the statement with all the rows *)

Lemma loop_agrees (l : list slabEntryData) :
  forall (c m : database) (cur : Z),
    slab_entries c = slab_entries m ->
    uuids_generated c = uuids_generated m ->
    agree sid (measurement_sheets c) (measurement_sheets m) ->
    max_serial sid c = cur ->
    match insert_rows (batch_values sid cur l) m with
    | Some (m', rs) =>
        exists c',
          insert_one_by_one sid l c = Some (c', rs)
          /\ slab_entries c' = slab_entries m'
          /\ uuids_generated c' = uuids_generated m'
          /\ agree sid (measurement_sheets c') (measurement_sheets m')
          /\ (l <> [] -> recompute [sid] c' = c')
    | None => insert_one_by_one sid l c = None
    end.
Proof.
  induction l as [| e l IH]; intros c m cur He Hg Ha Hmax.
  - simpl. exists c. repeat split; try assumption. intros H. contradiction.
  - cbn [batch_values insert_rows insert_one_by_one serial_query].
    rewrite Hmax, INSERT_one.
    set (v := values_of sid (cur + 1) e).
    rewrite Hg, He, (agree_foreign_key _ c m Ha).
    set (r := row_of_values (uuids_generated m) v).
    destruct (row_checks r && foreign_key_ok r m && unique_ok r (slab_entries m));
      [| reflexivity].
    set (c1 := recompute [v_measurement_sheet_id v]
                 (mkDb (measurement_sheets c) (slab_entries m ++ [r])
                    (S (uuids_generated m)))).
    set (m1 := mkDb (measurement_sheets m) (slab_entries m ++ [r])
                 (S (uuids_generated m))).
    assert (Hc1 : c1 = recompute [sid]
                         (mkDb (measurement_sheets c) (slab_entries m ++ [r])
                            (S (uuids_generated m)))) by reflexivity.
    assert (Hmax1 : max_serial sid c1 = (cur + 1)%Z).
    { rewrite Hc1, <- He, <- Hmax.
      apply max_serial_next; [reflexivity |].
      unfold r, v. simpl. rewrite Hmax. reflexivity. }
    assert (Ha1 : agree sid (measurement_sheets c1) (measurement_sheets m1)).
    { rewrite Hc1.
      apply (agree_recompute
               (mkDb (measurement_sheets c) (slab_entries m ++ [r])
                  (S (uuids_generated m))) m1).
      exact Ha. }
    specialize (IH c1 m1 (cur + 1)%Z eq_refl eq_refl Ha1 Hmax1).
    destruct (insert_rows (batch_values sid (cur + 1) l) m1)
      as [[m' rs] |] eqn:E.
    + destruct IH as [c' [Ec' [He' [Hg' [Ha' Hrec]]]]].
      exists c'. rewrite Ec'.
      split; [reflexivity |]. split; [exact He' |]. split; [exact Hg' |].
      split; [exact Ha' |]. intros _.
      destruct l as [| e' l'].
      * simpl in Ec'. injection Ec' as <- _.
        rewrite Hc1. apply recompute_idempotent.
      * apply Hrec. discriminate.
    + rewrite IH. reflexivity.
Qed.

(** [batchCreateSlabEntries] with at least one entry: the loop does
    what the one [INSERT] of all the rows, numbered from the highest
    serial number of the sheet on, does. *)
Lemma batchCreateSlabEntries_INSERT (l : list slabEntryData) (db : database) :
  l <> [] ->
  batchCreateSlabEntries sid l db
  = if Nat.eqb (List.length (select_sheet sid db)) 0
    then (db, NotFound)
    else
      match INSERT (batch_values sid (max_serial sid db) l) db with
      | Done db' rows => (db', Created rows)
      | Failed => (db, ServerError)
      end.
Proof.
  intros Hl. unfold batchCreateSlabEntries.
  destruct l as [| e l]; [contradiction |].
  change (Nat.eqb (List.length (e :: l)) 0) with false. cbv iota.
  destruct (Nat.eqb (List.length (select_sheet sid db)) 0); [reflexivity |].
  pose proof (loop_agrees (e :: l) db db (max_serial sid db) eq_refl eq_refl
                (agree_refl _) eq_refl) as H.
  unfold INSERT.
  destruct (batch_values sid (max_serial sid db) (e :: l)) as [| v vs] eqn:Ev;
    [discriminate |].
  destruct (insert_rows (v :: vs) db) as [[m' rs] |] eqn:E.
  - destruct H as [c' [Ec' [He' [Hg' [Ha' Hrec]]]]].
    rewrite Ec'. f_equal.
    rewrite fire_row_triggers_recompute, event_sheets_inserted.
    apply insert_rows_spec in E as [_ [_ [Esid _]]].
    rewrite Esid, <- Ev, batch_values_sheet. simpl List.length.
    rewrite recompute_repeat, <- (Hrec ltac:(discriminate)).
    rewrite !recompute_one.
    assert (T : recomputed_total sid c' = recomputed_total sid m').
    { unfold recomputed_total, entries_of_sheet. rewrite He'. reflexivity. }
    rewrite T, He', Hg'. f_equal.
    apply agree_retotal. exact Ha'.
  - rewrite H. reflexivity.
Qed.

End ControllerLoop.

(** The database a handler of the controller leaves: the one it found,
    or the one its [INSERT] has left. *)
Lemma createSlabEntry_database (d : slabEntryData) (db : database) :
  fst (createSlabEntry d db) = db
  \/ exists rows,
       INSERT [values_of (measurementSheetId d)
                 (max_serial (measurementSheetId d) db + 1) d] db
       = Done (fst (createSlabEntry d db)) rows.
Proof.
  unfold createSlabEntry.
  destruct (_ || _ || _ || _); [left; reflexivity |].
  destruct (_ || _); [left; reflexivity |].
  destruct (negb _); [left; reflexivity |].
  destruct (Nat.eqb _ 0); [left; reflexivity |].
  cbn [serial_query].
  destruct (INSERT _ db) as [db' rows |] eqn:E; [| left; reflexivity].
  right. exists rows. reflexivity.
Qed.

Lemma batchCreateSlabEntries_database (sid : uuid) (l : list slabEntryData)
  (db : database) :
  fst (batchCreateSlabEntries sid l db) = db
  \/ exists rows,
       INSERT (batch_values sid (max_serial sid db) l) db
       = Done (fst (batchCreateSlabEntries sid l db)) rows.
Proof.
  destruct l as [| e l]; [left; reflexivity |].
  rewrite batchCreateSlabEntries_INSERT by discriminate.
  destruct (Nat.eqb _ 0); [left; reflexivity |].
  destruct (INSERT _ db) as [db' rows |] eqn:E; [| left; reflexivity].
  right. exists rows. reflexivity.
Qed.

Lemma batch_values_length (sid : uuid) (l : list slabEntryData) (cur : Z) :
  List.length (batch_values sid cur l) = List.length l.
Proof.
  rewrite <- (length_map v_serial_number), batch_values_serials.
  unfold consecutive. rewrite length_map, length_seq. reflexivity.
Qed.

(** ** Totals stay consistent *)

Lemma INSERT_consistent (vs : list insert_values) (db db' : database)
  (rs : list slab_row) :
  totals_consistent db -> INSERT vs db = Done db' rs -> totals_consistent db'.
Proof.
  intros Hc H. apply INSERT_spec in H as [E _]. rewrite E.
  apply (recompute_consistent _ db); [exact Hc | reflexivity |].
  intros sid Hsid. unfold entries_of_sheet. simpl.
  rewrite List.filter_app, (filter_sheet_none sid rs Hsid). apply app_nil_r.
Qed.

Lemma UPDATE_consistent (u : updateData) (target : uuid) (db db' : database)
  (rs : list slab_row) :
  totals_consistent db -> UPDATE u target db = Done db' rs ->
  totals_consistent db'.
Proof.
  intros Hc H. apply UPDATE_spec in H as [E _]. rewrite E.
  apply (recompute_consistent _ db); [exact Hc | reflexivity |].
  intros sid Hsid. unfold entries_of_sheet. simpl.
  apply filter_sheet_updated. intros r Hr Hhit.
  exact (selected_sheet_listed _ sid _ r Hsid Hr Hhit).
Qed.

Lemma DELETE_consistent (targets : list uuid) (db db' : database)
  (rs : list slab_row) :
  totals_consistent db -> DELETE targets db = Done db' rs ->
  totals_consistent db'.
Proof.
  intros Hc H. apply DELETE_spec in H as [E Ers]. rewrite E.
  apply (recompute_consistent _ db); [exact Hc | reflexivity |].
  intros sid Hsid. unfold entries_of_sheet. simpl.
  apply filter_sheet_deleted. intros r Hr Hhit. rewrite Ers in Hsid.
  exact (selected_sheet_listed _ sid _ r Hsid Hr Hhit).
Qed.

Lemma batch_update_statements_consistent (updates : list (uuid * updateData)) :
  forall db db' rs,
    totals_consistent db ->
    batch_update_statements updates db = Some (db', rs) ->
    totals_consistent db'.
Proof.
  induction updates as [| [target u] updates IH]; intros db db' rs Hc H;
    simpl in H.
  - inversion H; subst. exact Hc.
  - destruct (UPDATE u target db) as [db1 rows |] eqn:E; [| discriminate].
    destruct (batch_update_statements updates db1) as [[db2 rs2] |] eqn:E2;
      [| discriminate].
    inversion H; subst.
    eapply IH; [| exact E2]. eapply UPDATE_consistent; eassumption.
Qed.

(** Every operation of the model keeps the totals consistent, whether
    it commits or fails. *)
Lemma perform_consistent (o : operation) (db : database) :
  totals_consistent db -> totals_consistent (perform o db).
Proof.
  intros Hc.
  destruct o as [d | sid l | this u | this | updates | ids | d | sid l];
    unfold perform.
  - unfold create. destruct (Nat.eqb _ 0); exact Hc.
  - unfold batchCreate. destruct (Nat.eqb _ 0); exact Hc.
  - unfold update.
    destruct (UPDATE u (id this) db) as [db' rows |] eqn:E; [| exact Hc].
    assert (Hc' : totals_consistent db') by (eapply UPDATE_consistent; eassumption).
    destruct rows; exact Hc'.
  - unfold delete.
    destruct (DELETE [id this] db) as [db' rows |] eqn:E; [| exact Hc].
    assert (Hc' : totals_consistent db') by (eapply DELETE_consistent; eassumption).
    destruct rows; exact Hc'.
  - unfold batchUpdate.
    destruct (batch_update_statements updates db) as [[db' rs] |] eqn:E;
      [| exact Hc].
    eapply batch_update_statements_consistent; eassumption.
  - unfold batchDelete.
    destruct (DELETE ids db) as [db' rows |] eqn:E; [| exact Hc].
    eapply DELETE_consistent; eassumption.
  - destruct (createSlabEntry_database d db) as [E | [rows E]];
      [rewrite E; exact Hc |].
    eapply INSERT_consistent; eassumption.
  - destruct (batchCreateSlabEntries_database sid l db) as [E | [rows E]];
      [rewrite E; exact Hc |].
    eapply INSERT_consistent; eassumption.
Qed.

Lemma perform_all_consistent (ops : list operation) :
  forall db, totals_consistent db -> totals_consistent (perform_all ops db).
Proof.
  induction ops as [| o ops IH]; intros db Hc; simpl; [exact Hc |].
  apply IH, perform_consistent, Hc.
Qed.

(** ** The owning sheet after a committed mutation *)

Lemma INSERT_owning (vs : list insert_values) (db db' : database)
  (rs : list slab_row) (r : slab_row) (s : sheet_row) :
  INSERT vs db = Done db' rs ->
  In r rs ->
  In s (measurement_sheets db') ->
  sheet_id s = measurement_sheet_id r ->
  total_matches s db'.
Proof.
  intros E Hr Hs Hid.
  apply INSERT_spec in E as [E _]. rewrite E in Hs |- *.
  apply recompute_owning; [exact Hs |]. rewrite Hid. apply in_map, Hr.
Qed.

(** [SlabEntry.create] and [SlabEntry.batchCreate] never resolve: their
    serial number query is refused. *)
Lemma create_rejects (d : slabEntryData) (db : database) :
  exists e, create d db = (db, Rejected e).
Proof.
  unfold create. destruct (Nat.eqb _ 0); eexists; reflexivity.
Qed.

Lemma batchCreate_rejects (sid : uuid) (l : list slabEntryData) (db : database) :
  exists e, batchCreate sid l db = (db, Rejected e).
Proof.
  unfold batchCreate. destruct (Nat.eqb _ 0); eexists; reflexivity.
Qed.

Lemma create_owning (d : slabEntryData) (db db' : database) (r : slab_row)
  (s : sheet_row) :
  create d db = (db', Resolved r) ->
  In s (measurement_sheets db') ->
  sheet_id s = measurement_sheet_id r ->
  total_matches s db'.
Proof.
  intros H. destruct (create_rejects d db) as [e E]. congruence.
Qed.

Lemma batchCreate_owning (sid : uuid) (l : list slabEntryData)
  (db db' : database) (rs : list slab_row) (s : sheet_row) (r : slab_row) :
  batchCreate sid l db = (db', Resolved rs) ->
  In r rs ->
  In s (measurement_sheets db') ->
  sheet_id s = measurement_sheet_id r ->
  total_matches s db'.
Proof.
  intros H. destruct (batchCreate_rejects sid l db) as [e E]. congruence.
Qed.

Lemma createSlabEntry_owning (d : slabEntryData) (db db' : database)
  (r : slab_row) (s : sheet_row) :
  createSlabEntry d db = (db', Created (Some r)) ->
  In s (measurement_sheets db') ->
  sheet_id s = measurement_sheet_id r ->
  total_matches s db'.
Proof.
  unfold createSlabEntry. intros H Hs Hid.
  destruct (_ || _ || _ || _); [discriminate |].
  destruct (_ || _); [discriminate |].
  destruct (negb _); [discriminate |].
  destruct (Nat.eqb _ 0); [discriminate |].
  cbn [serial_query] in H.
  destruct (INSERT _ db) as [db1 rows |] eqn:E; [| discriminate].
  injection H as <- Hr.
  apply (INSERT_owning _ _ _ _ r s E); try assumption.
  destruct rows as [| r1 rows]; [discriminate |].
  injection Hr as ->. left. reflexivity.
Qed.

Lemma batchCreateSlabEntries_owning (sid : uuid) (l : list slabEntryData)
  (db db' : database) (rs : list slab_row) (s : sheet_row) (r : slab_row) :
  batchCreateSlabEntries sid l db = (db', Created rs) ->
  In r rs ->
  In s (measurement_sheets db') ->
  sheet_id s = measurement_sheet_id r ->
  total_matches s db'.
Proof.
  intros H Hr Hs Hid.
  destruct l as [| e l]; [discriminate |].
  rewrite batchCreateSlabEntries_INSERT in H by discriminate.
  destruct (Nat.eqb _ 0); [discriminate |].
  destruct (INSERT _ db) as [db1 rows |] eqn:E; [| discriminate].
  injection H as <- <-.
  exact (INSERT_owning _ _ _ _ r s E Hr Hs Hid).
Qed.

Lemma update_owning (this : slab_row) (u : updateData) (db db' : database)
  (r row : slab_row) (s : sheet_row) :
  update this u db = (db', Resolved r) ->
  In row (slab_entries db) -> id row = id this ->
  In s (measurement_sheets db') ->
  sheet_id s = measurement_sheet_id row ->
  total_matches s db'.
Proof.
  unfold update. intros H Hrow Hrid Hs Hid.
  destruct (UPDATE u (id this) db) as [db1 rows |] eqn:E; [| discriminate].
  destruct rows as [| r1 rows]; [discriminate |].
  inversion H; subst db1. clear H.
  apply UPDATE_spec in E as [E _]. rewrite E in Hs |- *.
  apply recompute_owning; [exact Hs |]. rewrite Hid. apply in_map.
  apply filter_In. split; [exact Hrow |]. apply Nat.eqb_eq, Hrid.
Qed.

Lemma delete_owning (this : slab_row) (db db' : database) (b : bool)
  (row : slab_row) (s : sheet_row) :
  delete this db = (db', Resolved b) ->
  In row (slab_entries db) -> id row = id this ->
  In s (measurement_sheets db') ->
  sheet_id s = measurement_sheet_id row ->
  total_matches s db'.
Proof.
  unfold delete. intros H Hrow Hrid Hs Hid.
  destruct (DELETE [id this] db) as [db1 rows |] eqn:E; [| discriminate].
  destruct rows as [| r1 rows]; [discriminate |].
  inversion H; subst db1. clear H.
  apply DELETE_spec in E as [E Ers]. rewrite E in Hs |- *.
  apply recompute_owning; [exact Hs |]. rewrite Hid. apply in_map.
  rewrite Ers. apply filter_In. split; [exact Hrow |].
  simpl. rewrite Hrid, Nat.eqb_refl. reflexivity.
Qed.

(** C8.  After a committed [create], [batchCreate], [update] or
    [delete] of the model, and after a [createSlabEntry] or
    [batchCreateSlabEntries] of the controller that has answered 201,
    the total of the owning sheet is the sum of the areas of the
    entries the sheet now has, whatever the total was before; the
    recomputed total of a sheet without entries is 0; and a database
    whose totals all equal these sums keeps that property through any
    sequence of these operations.  (The model's [create] and
    [batchCreate] never commit, as their locking query is refused; the
    entries come in by the handlers of the controller.) *)
Theorem sheet_total_is_sum_of_areas :
  (forall d db db' r s,
     create d db = (db', Resolved r) ->
     In s (measurement_sheets db') ->
     sheet_id s = measurement_sheet_id r ->
     total_matches s db')
  /\ (forall sid l db db' rs r s,
       batchCreate sid l db = (db', Resolved rs) ->
       In r rs ->
       In s (measurement_sheets db') ->
       sheet_id s = measurement_sheet_id r ->
       total_matches s db')
  /\ (forall this u db db' r row s,
       update this u db = (db', Resolved r) ->
       In row (slab_entries db) -> id row = id this ->
       In s (measurement_sheets db') ->
       sheet_id s = measurement_sheet_id row ->
       total_matches s db')
  /\ (forall this db db' b row s,
       delete this db = (db', Resolved b) ->
       In row (slab_entries db) -> id row = id this ->
       In s (measurement_sheets db') ->
       sheet_id s = measurement_sheet_id row ->
       total_matches s db')
  /\ (forall sid db,
       entries_of_sheet sid db = [] -> recomputed_total sid db = 0)
  /\ (forall ops db,
       totals_consistent db -> totals_consistent (perform_all ops db))
  /\ (forall d db db' r s,
       createSlabEntry d db = (db', Created (Some r)) ->
       In s (measurement_sheets db') ->
       sheet_id s = measurement_sheet_id r ->
       total_matches s db')
  /\ (forall sid l db db' rs r s,
       batchCreateSlabEntries sid l db = (db', Created rs) ->
       In r rs ->
       In s (measurement_sheets db') ->
       sheet_id s = measurement_sheet_id r ->
       total_matches s db').
Proof.
  repeat split.
  - intros. eapply create_owning; eassumption.
  - intros. eapply batchCreate_owning; eassumption.
  - intros. eapply update_owning; eassumption.
  - intros. eapply delete_owning; eassumption.
  - intros sid db H. unfold recomputed_total. rewrite H. reflexivity.
  - intros. apply perform_all_consistent. assumption.
  - intros. eapply createSlabEntry_owning; eassumption.
  - intros. eapply batchCreateSlabEntries_owning; eassumption.
Qed.

(** ** Serial numbers *)

(** [createSlabEntry] when it has answered 201: the entry is stored
    last, under a new identifier, with the next serial number of its
    sheet. *)
Lemma createSlabEntry_created (d : slabEntryData) (db db' : database)
  (r : slab_row) :
  createSlabEntry d db = (db', Created (Some r)) ->
  measurement_sheet_id r = measurementSheetId d
  /\ serial_number r = (max_serial (measurementSheetId d) db + 1)%Z
  /\ slab_entries db' = slab_entries db ++ [r]
  /\ id r = uuids_generated db
  /\ uuids_generated db' = S (uuids_generated db).
Proof.
  unfold createSlabEntry.
  destruct (_ || _ || _ || _); [discriminate |].
  destruct (_ || _); [discriminate |].
  destruct (negb _); [discriminate |].
  destruct (Nat.eqb _ 0); [discriminate |].
  cbn [serial_query]. rewrite INSERT_one.
  destruct (row_checks _ && foreign_key_ok _ db && unique_ok _ (slab_entries db));
    [| discriminate].
  intros H. injection H as <- <-. simpl. auto.
Qed.

(** [batchCreateSlabEntries] when it has answered 201: the entries are
    stored last, with the next consecutive serial numbers of the
    sheet. *)
Lemma batchCreateSlabEntries_created (sid : uuid) (l : list slabEntryData)
  (db db' : database) (rs : list slab_row) :
  batchCreateSlabEntries sid l db = (db', Created rs) ->
  map measurement_sheet_id rs = repeat sid (List.length l)
  /\ map serial_number rs = consecutive (max_serial sid db) (List.length l)
  /\ slab_entries db' = slab_entries db ++ rs.
Proof.
  intros H. destruct l as [| e l]; [discriminate |].
  rewrite batchCreateSlabEntries_INSERT in H by discriminate.
  destruct (Nat.eqb _ 0); [discriminate |].
  destruct (INSERT _ db) as [db1 rows |] eqn:E; [| discriminate].
  injection H as <- <-.
  apply INSERT_spec in E as [Edb [Esid Eser]].
  rewrite batch_values_sheet in Esid. rewrite batch_values_serials in Eser.
  repeat split; try assumption. rewrite Edb. reflexivity.
Qed.

(** ** Density of the serial numbers *)

Lemma dense_serials (sid : uuid) (db : database) :
  dense sid db <-> serials sid db = one_to (List.length (serials sid db)).
Proof. unfold dense, serials. rewrite length_map. reflexivity. Qed.

Lemma filter_sheet_all (sid : uuid) (rs : list slab_row) (k : nat) :
  map measurement_sheet_id rs = repeat sid k ->
  List.filter (fun r => Nat.eqb (measurement_sheet_id r) sid) rs = rs.
Proof.
  revert k. induction rs as [| r rs IH]; intros k H; [reflexivity |].
  destruct k as [| k]; [discriminate |]. simpl in H.
  injection H as Hr Hrs. simpl. rewrite Hr, Nat.eqb_refl.
  f_equal. exact (IH k Hrs).
Qed.

Lemma filter_sheet_other (sid sid0 : uuid) (rs : list slab_row) (k : nat) :
  map measurement_sheet_id rs = repeat sid0 k -> sid <> sid0 ->
  List.filter (fun r => Nat.eqb (measurement_sheet_id r) sid) rs = [].
Proof.
  revert k. induction rs as [| r rs IH]; intros k H Hne; [reflexivity |].
  destruct k as [| k]; [discriminate |]. simpl in H.
  injection H as Hr Hrs. simpl. rewrite Hr.
  destruct (Nat.eqb_spec sid0 sid) as [-> | _]; [contradiction |].
  exact (IH k Hrs Hne).
Qed.

(** An [INSERT] of tuples for one sheet, numbered from the sheet's
    largest serial number on, keeps every sheet dense. *)
Lemma INSERT_dense (sid0 sid : uuid) (vs : list insert_values)
  (db db' : database) (rs : list slab_row) :
  INSERT vs db = Done db' rs ->
  map v_measurement_sheet_id vs = repeat sid0 (List.length vs) ->
  map v_serial_number vs = consecutive (max_serial sid0 db) (List.length vs) ->
  dense sid db -> dense sid db'.
Proof.
  intros H Hsid Hser Hd.
  apply INSERT_spec in H as [E [Esid Eser]].
  rewrite Hsid in Esid. rewrite Hser in Eser.
  apply dense_serials. apply dense_serials in Hd.
  assert (S : serials sid db'
              = serials sid db
                ++ map serial_number
                     (List.filter
                        (fun r => Nat.eqb (measurement_sheet_id r) sid) rs)).
  { rewrite E. unfold serials, entries_of_sheet. simpl.
    rewrite List.filter_app, map_app. reflexivity. }
  rewrite S. clear S E.
  destruct (Nat.eq_dec sid sid0) as [-> | Hne].
  - rewrite (filter_sheet_all _ _ _ Esid), Eser.
    unfold max_serial. fold (serials sid0 db). rewrite Hd at 2.
    rewrite COALESCE_MAX_one_to. rewrite Hd at 1.
    rewrite consecutive_one_to. f_equal.
    rewrite length_app. unfold consecutive, one_to.
    rewrite !length_map, !length_seq. reflexivity.
  - rewrite (filter_sheet_other _ _ _ _ Esid Hne). simpl.
    rewrite app_nil_r. exact Hd.
Qed.

Lemma serials_updated (u : updateData) (target sid : uuid) (l : list slab_row) :
  map serial_number
    (List.filter (fun r => Nat.eqb (measurement_sheet_id r) sid)
       (map (fun r => if Nat.eqb (id r) target then set_columns u r else r) l))
  = map serial_number
      (List.filter (fun r => Nat.eqb (measurement_sheet_id r) sid) l).
Proof.
  induction l as [| r l IH]; [reflexivity |]. simpl.
  destruct (Nat.eqb (id r) target); simpl;
    destruct (Nat.eqb (measurement_sheet_id r) sid); simpl; rewrite IH;
    reflexivity.
Qed.

Lemma UPDATE_dense (u : updateData) (target sid : uuid) (db db' : database)
  (rs : list slab_row) :
  UPDATE u target db = Done db' rs -> dense sid db -> dense sid db'.
Proof.
  intros H Hd. apply UPDATE_spec in H as [E _].
  apply dense_serials. apply dense_serials in Hd.
  assert (S : serials sid db' = serials sid db).
  { rewrite E. unfold serials, entries_of_sheet. simpl. apply serials_updated. }
  rewrite S. exact Hd.
Qed.

Lemma batch_update_statements_dense (sid : uuid)
  (updates : list (uuid * updateData)) :
  forall db db' rs,
    batch_update_statements updates db = Some (db', rs) ->
    dense sid db -> dense sid db'.
Proof.
  induction updates as [| [target u] updates IH]; intros db db' rs H Hd;
    simpl in H.
  - inversion H; subst. exact Hd.
  - destruct (UPDATE u target db) as [db1 rows |] eqn:E; [| discriminate].
    destruct (batch_update_statements updates db1) as [[db2 rs2] |] eqn:E2;
      [| discriminate].
    inversion H; subst.
    eapply IH; [exact E2 |]. eapply UPDATE_dense; eassumption.
Qed.

(** An operation that is no delete keeps every sheet dense. *)
Lemma perform_dense (o : operation) (sid : uuid) (db : database) :
  deletes o = false -> dense sid db -> dense sid (perform o db).
Proof.
  intros Ho Hd.
  destruct o as [d | sid0 l | this u | this | updates | ids | d | sid0 l];
    try discriminate; unfold perform.
  - unfold create. destruct (Nat.eqb _ 0); exact Hd.
  - unfold batchCreate. destruct (Nat.eqb _ 0); exact Hd.
  - unfold update.
    destruct (UPDATE u (id this) db) as [db' rows |] eqn:E; [| exact Hd].
    assert (Hd' : dense sid db') by (eapply UPDATE_dense; eassumption).
    destruct rows; exact Hd'.
  - unfold batchUpdate.
    destruct (batch_update_statements updates db) as [[db' rs] |] eqn:E;
      [| exact Hd].
    eapply batch_update_statements_dense; eassumption.
  - destruct (createSlabEntry_database d db) as [E | [rows E]];
      [rewrite E; exact Hd |].
    eapply (INSERT_dense (measurementSheetId d)); try eassumption; reflexivity.
  - destruct (batchCreateSlabEntries_database sid0 l db) as [E | [rows E]];
      [rewrite E; exact Hd |].
    eapply (INSERT_dense sid0); try eassumption.
    + rewrite batch_values_sheet, batch_values_length. reflexivity.
    + rewrite batch_values_serials, batch_values_length. reflexivity.
Qed.

Lemma perform_all_dense (ops : list operation) (sid : uuid) :
  forall db,
    forallb (fun o => negb (deletes o)) ops = true ->
    dense sid db -> dense sid (perform_all ops db).
Proof.
  induction ops as [| o ops IH]; intros db Hops Hd; simpl; [exact Hd |].
  simpl in Hops. apply andb_true_iff in Hops as [Ho Hops].
  apply negb_true_iff in Ho.
  apply IH; [exact Hops |]. apply perform_dense; assumption.
Qed.

(** C7 does not hold of the [SlabEntry] model.  The query by which
    [create] and [batchCreate] read the highest serial number ends in
    [FOR UPDATE], which PostgreSQL refuses on a query with an
    aggregate: on a sheet that exists both methods roll back and
    reject, whatever the data, and leave the database as it was; no
    entry is stored and no serial number assigned.  On the sheet 7
    without entries [create] rejects where the claim has the entry
    stored with the serial number 1, and [batchCreate] rejects where
    the claim has two entries stored with 1 and 2; the controller's
    [createSlabEntry], whose query has no locking clause, answers 201
    with the entry and the serial number 1. *)
Theorem create_rejects_on_locking_query :
  (forall d db,
     select_sheet (measurementSheetId d) db <> [] ->
     create d db = (db, Rejected DatabaseError))
  /\ (forall sid l db,
       select_sheet sid db <> [] ->
       batchCreate sid l db = (db, Rejected DatabaseError))
  /\ create (Example.slab 144 144 144) Example.db
     = (Example.db, Rejected DatabaseError)
  /\ batchCreate 7 [Example.slab 150 100 104.17; Example.slab 12 12 1] Example.db
     = (Example.db, Rejected DatabaseError)
  /\ (exists db',
        createSlabEntry (Example.slab 144 144 144) Example.db
        = (db', Created (Some Example.first_row))
        /\ serials 7 db' = [1%Z]).
Proof.
  split; [| split; [| split; [| split]]].
  - intros d db H. unfold create.
    destruct (select_sheet (measurementSheetId d) db); [contradiction |].
    reflexivity.
  - intros sid l db H. unfold batchCreate.
    destruct (select_sheet sid db); [contradiction |]. reflexivity.
  - reflexivity.
  - reflexivity.
  - eexists. split; vm_compute; reflexivity.
Qed.

Lemma sheet_total_is_sum_of_areas_witness :
  (exists db' r,
     createSlabEntry (Example.slab 144 144 144) Example.db
     = (db', Created (Some r))
     /\ total_matches (mkSheet 7 144) db')
  /\ totals_consistent Example.db
  /\ totals_consistent (perform_all Example.mutations Example.db).
Proof.
  split.
  - eexists. eexists. split; [vm_compute; reflexivity |].
    eapply (proj1 (proj2 (proj2 (proj2 (proj2 (proj2 (proj2
              sheet_total_is_sum_of_areas))))))
              (Example.slab 144 144 144) Example.db).
    + vm_compute. reflexivity.
    + left. vm_compute. reflexivity.
    + reflexivity.
  - assert (H : totals_consistent Example.db).
    { constructor; [vm_compute; reflexivity | constructor]. }
    split; [exact H |].
    apply (proj1 (proj2 (proj2 (proj2 (proj2 (proj2
             sheet_total_is_sum_of_areas)))))
             Example.mutations Example.db H).
Defined.

End PersistenceProperties.

(** * Properties of the cache helper *)

Module CacheProperties.

Import Cache.

Section Helper.

Context {connection value : Type}.
Context {client : RedisClient connection} {json : JSON value}.
Variable REDIS_HOST : option string.

(** A [try] whose handler returns a value never throws. *)
Lemma try_catch_ret {A : Type} (body : M connection A) (a : A) (c : connection) :
  exists c' v, try_catch body (ret a) c = (c', Ok v).
Proof.
  unfold try_catch, ret. destruct (body c) as [c' [v |]]; eauto.
Qed.

(** ... and returns the handler's value when the body throws. *)
Lemma try_catch_fails {A : Type} (body : M connection A) (a : A)
  (c c' : connection) :
  body c = (c', Fails) -> try_catch body (ret a) c = (c', Ok a).
Proof. unfold try_catch, ret. intros ->. reflexivity. Qed.

Lemma get_total (key : string) (c : connection) :
  exists c' v, get REDIS_HOST key c = (c', Ok v).
Proof. apply try_catch_ret. Qed.

Lemma set_total (key : string) (v : value) (expireInSeconds : Z) (c : connection) :
  exists c' b, set REDIS_HOST key v expireInSeconds c = (c', Ok b).
Proof. apply try_catch_ret. Qed.

Lemma del_total (key : string) (c : connection) :
  exists c' b, del REDIS_HOST key c = (c', Ok b).
Proof. apply try_catch_ret. Qed.

Lemma clearPattern_total (pattern : string) (c : connection) :
  exists c' b, clearPattern REDIS_HOST pattern c = (c', Ok b).
Proof. apply try_catch_ret. Qed.

Lemma get_client_fails (key : string) (c c' : connection) :
  not_configured REDIS_HOST = false ->
  client_get key c = (c', Fails) ->
  get REDIS_HOST key c = (c', Ok None).
Proof.
  intros Hc H. apply try_catch_fails. rewrite Hc. unfold bind. rewrite H.
  reflexivity.
Qed.

Lemma get_parse_fails (key text : string) (c c' : connection) :
  not_configured REDIS_HOST = false ->
  client_get key c = (c', Ok (Some text)) ->
  JSON_parse text = Fails ->
  get REDIS_HOST key c = (c', Ok None).
Proof.
  intros Hc H Hp. unfold get, try_catch, bind. rewrite Hc, H.
  destruct (String.eqb text ""); [reflexivity |].
  unfold pure_call. rewrite Hp. reflexivity.
Qed.

Lemma set_stringify_fails (key : string) (v : value) (expireInSeconds : Z)
  (c : connection) :
  not_configured REDIS_HOST = false ->
  JSON_stringify v = Fails ->
  set REDIS_HOST key v expireInSeconds c = (c, Ok false).
Proof.
  intros Hc H. apply try_catch_fails. rewrite Hc. unfold bind, pure_call.
  rewrite H. reflexivity.
Qed.

Lemma set_client_fails (key text : string) (v : value) (expireInSeconds : Z)
  (c c' : connection) :
  not_configured REDIS_HOST = false ->
  JSON_stringify v = Ok text ->
  client_setEx key expireInSeconds text c = (c', Fails) ->
  set REDIS_HOST key v expireInSeconds c = (c', Ok false).
Proof.
  intros Hc Hs H. apply try_catch_fails. rewrite Hc. unfold bind, pure_call.
  rewrite Hs, H. reflexivity.
Qed.

Lemma del_client_fails (key : string) (c c' : connection) :
  not_configured REDIS_HOST = false ->
  client_del [key] c = (c', Fails) ->
  del REDIS_HOST key c = (c', Ok false).
Proof.
  intros Hc H. apply try_catch_fails. rewrite Hc. unfold bind. rewrite H.
  reflexivity.
Qed.

Lemma clearPattern_keys_fails (pattern : string) (c c' : connection) :
  not_configured REDIS_HOST = false ->
  client_keys pattern c = (c', Fails) ->
  clearPattern REDIS_HOST pattern c = (c', Ok false).
Proof.
  intros Hc H. apply try_catch_fails. rewrite Hc. unfold bind. rewrite H.
  reflexivity.
Qed.

Lemma clearPattern_del_fails (pattern : string) (keys : list string)
  (c c1 c' : connection) :
  not_configured REDIS_HOST = false ->
  client_keys pattern c = (c1, Ok keys) ->
  keys <> [] ->
  client_del keys c1 = (c', Fails) ->
  clearPattern REDIS_HOST pattern c = (c', Ok false).
Proof.
  intros Hc Hk Hne H. apply try_catch_fails. rewrite Hc. unfold bind.
  rewrite Hk. destruct keys as [| k keys]; [contradiction |]. simpl.
  rewrite H. reflexivity.
Qed.

(** Without a configured host the helper does not touch the client. *)
Lemma not_configured_results (key : string) (v : value) (expireInSeconds : Z)
  (c : connection) :
  not_configured REDIS_HOST = true ->
  get REDIS_HOST key c = (c, Ok None)
  /\ set REDIS_HOST key v expireInSeconds c = (c, Ok false)
  /\ del REDIS_HOST key c = (c, Ok false)
  /\ clearPattern REDIS_HOST key c = (c, Ok false).
Proof.
  intros Hc. unfold get, set, del, clearPattern, try_catch. rewrite Hc.
  repeat split; reflexivity.
Qed.

(** When the pattern matches no key, [clearPattern] issues no [DEL] and
    returns [true]. *)
Lemma clearPattern_no_keys (pattern : string) (c c' : connection) :
  not_configured REDIS_HOST = false ->
  client_keys pattern c = (c', Ok []) ->
  clearPattern REDIS_HOST pattern c = (c', Ok true).
Proof.
  intros Hc H. unfold clearPattern, try_catch, bind. rewrite Hc, H.
  reflexivity.
Qed.

(** When the client's [DEL] succeeds, whatever it removed, [del]
    returns [true]. *)
Lemma del_succeeds (key : string) (n : Z) (c c' : connection) :
  not_configured REDIS_HOST = false ->
  client_del [key] c = (c', Ok n) ->
  del REDIS_HOST key c = (c', Ok true).
Proof.
  intros Hc H. unfold del, try_catch, bind. rewrite Hc, H. reflexivity.
Qed.

End Helper.

Section Server.

Variable glob : string -> string -> bool.
Variable REDIS_HOST : option string.

(** On a working server, deleting a key that is not there changes
    nothing and returns [true]. *)
Lemma server_del_absent (key : string) (store : gmap string string) :
  not_configured REDIS_HOST = false ->
  store !! key = None ->
  del (client := server glob) REDIS_HOST key store = (store, Ok true).
Proof.
  intros Hc H. unfold del, try_catch, bind. rewrite Hc. simpl.
  rewrite (delete_id store key H). reflexivity.
Qed.

(** On a working server, clearing a pattern that matches no key changes
    nothing and returns [true]. *)
Lemma server_clearPattern_no_match (pattern : string)
  (store : gmap string string) :
  not_configured REDIS_HOST = false ->
  matching glob pattern store = [] ->
  clearPattern (client := server glob) REDIS_HOST pattern store
  = (store, Ok true).
Proof.
  intros Hc H. apply clearPattern_no_keys; [exact Hc |]. simpl.
  rewrite H. reflexivity.
Qed.

End Server.

(** C9.  For any Redis client, any [JSON] and any setting of
    [REDIS_HOST]: [get], [set], [del] and [clearPattern] always return
    and never throw; when a command of the client, [JSON.parse] or
    [JSON.stringify] fails, [get] returns [null] and [set], [del] and
    [clearPattern] return [false]; without a configured host they
    return [null] and [false] and leave the connection alone; [del]
    returns [true] whatever number of keys the client's [DEL] removed,
    and [clearPattern] issues no [DEL] and returns [true] when no key
    matches.  On a working server, [clearPattern] with a pattern that matches no key
    and [del] of an absent key change nothing and return [true]. *)
Theorem cache_operations_never_throw :
  (forall (connection value : Type) (client : RedisClient connection)
          (json : JSON value) (REDIS_HOST : option string),
     (forall key c, exists c' v, get REDIS_HOST key c = (c', Ok v))
     /\ (forall key v ttl c, exists c' b, set REDIS_HOST key v ttl c = (c', Ok b))
     /\ (forall key c, exists c' b, del REDIS_HOST key c = (c', Ok b))
     /\ (forall pattern c,
          exists c' b, clearPattern REDIS_HOST pattern c = (c', Ok b))
     /\ (forall key c c',
          not_configured REDIS_HOST = false ->
          client_get key c = (c', Fails) ->
          get REDIS_HOST key c = (c', Ok None))
     /\ (forall key text c c',
          not_configured REDIS_HOST = false ->
          client_get key c = (c', Ok (Some text)) ->
          JSON_parse text = Fails ->
          get REDIS_HOST key c = (c', Ok None))
     /\ (forall key v ttl c,
          not_configured REDIS_HOST = false ->
          JSON_stringify v = Fails ->
          set REDIS_HOST key v ttl c = (c, Ok false))
     /\ (forall key text v ttl c c',
          not_configured REDIS_HOST = false ->
          JSON_stringify v = Ok text ->
          client_setEx key ttl text c = (c', Fails) ->
          set REDIS_HOST key v ttl c = (c', Ok false))
     /\ (forall key c c',
          not_configured REDIS_HOST = false ->
          client_del [key] c = (c', Fails) ->
          del REDIS_HOST key c = (c', Ok false))
     /\ (forall pattern c c',
          not_configured REDIS_HOST = false ->
          client_keys pattern c = (c', Fails) ->
          clearPattern REDIS_HOST pattern c = (c', Ok false))
     /\ (forall pattern keys c c1 c',
          not_configured REDIS_HOST = false ->
          client_keys pattern c = (c1, Ok keys) ->
          keys <> [] ->
          client_del keys c1 = (c', Fails) ->
          clearPattern REDIS_HOST pattern c = (c', Ok false))
     /\ (forall key v ttl c,
          not_configured REDIS_HOST = true ->
          get REDIS_HOST key c = (c, Ok None)
          /\ set REDIS_HOST key v ttl c = (c, Ok false)
          /\ del REDIS_HOST key c = (c, Ok false)
          /\ clearPattern REDIS_HOST key c = (c, Ok false))
     /\ (forall key n c c',
          not_configured REDIS_HOST = false ->
          client_del [key] c = (c', Ok n) ->
          del REDIS_HOST key c = (c', Ok true))
     /\ (forall pattern c c',
          not_configured REDIS_HOST = false ->
          client_keys pattern c = (c', Ok []) ->
          clearPattern REDIS_HOST pattern c = (c', Ok true)))
  /\ (forall (glob : string -> string -> bool) (REDIS_HOST : option string)
            (store : gmap string string),
       not_configured REDIS_HOST = false ->
       (forall key,
          store !! key = None ->
          del (client := server glob) REDIS_HOST key store = (store, Ok true))
       /\ (forall pattern,
            matching glob pattern store = [] ->
            clearPattern (client := server glob) REDIS_HOST pattern store
            = (store, Ok true))).
Proof.
  split.
  - intros connection value client json REDIS_HOST.
    split; [intros; apply get_total |].
    split; [intros; apply set_total |].
    split; [intros; apply del_total |].
    split; [intros; apply clearPattern_total |].
    split; [intros; apply get_client_fails; assumption |].
    split; [intros; eapply get_parse_fails; eassumption |].
    split; [intros; apply set_stringify_fails; assumption |].
    split; [intros; eapply set_client_fails; eassumption |].
    split; [intros; apply del_client_fails; assumption |].
    split; [intros; apply clearPattern_keys_fails; assumption |].
    split; [intros; eapply clearPattern_del_fails; eassumption |].
    split; [intros; apply not_configured_results; assumption |].
    split; [intros; eapply del_succeeds; eassumption |].
    intros; apply clearPattern_no_keys; assumption.
  - intros glob REDIS_HOST store Hc. split.
    + intros key H. apply server_del_absent; assumption.
    + intros pattern H. apply server_clearPattern_no_match; assumption.
Qed.

Lemma cache_operations_never_throw_witness :
  get (client := Example.unreachable) (json := Example.text_json)
    (Some "localhost") "customer:1" tt = (tt, Ok None)
  /\ del (client := Example.unreachable) (Some "localhost") "customer:1" tt
     = (tt, Ok false)
  /\ del (client := server Example.prefix_glob) (Some "localhost")
       "measurement_sheet_full:8" Example.store
     = (Example.store, Ok true)
  /\ clearPattern (client := server Example.prefix_glob) (Some "localhost")
       "slab_entries:" Example.store
     = (Example.store, Ok true).
Proof.
  pose proof cache_operations_never_throw as [Hany Hserver].
  destruct (Hany unit string Example.unreachable Example.text_json
              (Some "localhost"))
    as [_ [_ [_ [_ [Hget [_ [_ [_ [Hdel _]]]]]]]]].
  destruct (Hserver Example.prefix_glob (Some "localhost") Example.store eq_refl)
    as [Hdel_absent Hclear].
  split; [apply Hget; reflexivity |].
  split; [apply Hdel; reflexivity |].
  split; [apply Hdel_absent; reflexivity |].
  apply Hclear. vm_compute. reflexivity.
Defined.

End CacheProperties.

(** * Further properties of the calculation engine *)

Module EngineExtras.

Import JS CalculationEngine EngineTerms Validators EngineProperties.
Local Open Scope Q_scope.

(** ** Fractional dimensions *)

Lemma fractional_step (q : Q) : fractional q -> fractional (q + - (1)).
Proof.
  intros H z E. apply (H (z + 1)%Z). rewrite inject_Z_plus.
  change (inject_Z 1) with 1. lra.
Qed.

Lemma fractional_not_multiple (q : Q) : fractional q -> ~ multiple_of_3 q.
Proof. intros H [k Hk]. exact (H _ Hk). Qed.

Lemma divisibility_loop_fractional (fuel : nat) :
  forall q i,
    fractional q ->
    exists q', fst (divisibility_loop fuel (Fin q) i) = Fin q' /\ fractional q'.
Proof.
  induction fuel as [| fuel IH]; intros q i H; simpl.
  - eauto.
  - destruct (loop_condition (Fin q) i); [| simpl; eauto].
    change (sub (Fin q) (Fin 1)) with (Fin (q + - (1))).
    apply IH, fractional_step, H.
Qed.

(** From a fractional value the loop runs below zero or into the
    ceiling; either way the adjuster gives 0. *)
Lemma after_loop_fractional (q : Q) :
  fractional q ->
  after_loop (divisibility_loop maxIterations (Fin q) 0) = Fin 0.
Proof.
  intros H.
  pose proof (divisibility_loop_exit (Fin q)) as Hexit. cbv zeta in Hexit.
  destruct (divisibility_loop_fractional maxIterations q 0 H) as [q' [E Hq']].
  unfold after_loop.
  destruct (divisibility_loop maxIterations (Fin q) 0) as [p i].
  simpl fst in *. simpl snd in *. subst p.
  destruct (maxIterations <=? i)%nat eqn:Hi; [reflexivity |].
  apply Nat.leb_gt in Hi.
  assert (Hneg : q' < 0).
  { destruct (Qlt_le_dec q' 0) as [L | L]; [exact L |].
    exfalso.
    assert (C : loop_condition (Fin q') i = true).
    { apply loop_condition_Fin. repeat split.
      - apply fractional_not_multiple, Hq'.
      - destruct (Qeq_dec q' 0) as [Z0 | NZ].
        + exfalso. apply (Hq' 0%Z). exact Z0.
        + lra.
      - exact Hi. }
    congruence. }
  unfold Math_max. simpl lt.
  apply Qltb_true in Hneg. rewrite Hneg. reflexivity.
Qed.

Lemma fractional_shift (q : Q) (k : Z) :
  fractional q -> fractional (q + - inject_Z k).
Proof.
  intros H z E. apply (H (z + k)%Z). rewrite inject_Z_plus. lra.
Qed.

Lemma adjusters_fractional (q : Q) :
  fractional q ->
  processLengthForDivisibility (Fin q) = Fin 0
  /\ processBreadthForDivisibility (Fin q) = Fin 0.
Proof.
  intros H. rewrite processLength_unfold, processBreadth_unfold. split.
  - destruct (lt (Fin q) (Fin 3)); [reflexivity |].
    change (sub (Fin q) (Fin 3)) with (Fin (q + - inject_Z 3)).
    apply after_loop_fractional, fractional_shift, H.
  - destruct (lt (Fin q) (Fin 2)); [reflexivity |].
    change (sub (Fin q) (Fin 2)) with (Fin (q + - inject_Z 2)).
    apply after_loop_fractional, fractional_shift, H.
Qed.

(** The area on a final length of 0. *)
Lemma area_result_zero_length (strategy : string) (b : Q) :
  exists r,
    area_result strategy (Fin 0) (Fin b) = Return r
    /\ same (squareFeet r) (Fin 0).
Proof.
  unfold area_result.
  change (mul (Fin 0) (Fin b)) with (Fin (0 * b)).
  change (div (Fin (0 * b)) (Fin 144)) with (Fin (0 * b / 144)).
  simpl isFinite. simpl lt.
  assert (Z0 : 0 * b / 144 == 0) by (field).
  assert (L : Qltb (0 * b / 144) 0 = false) by (apply Qltb_false; lra).
  rewrite L. cbn [negb orb try_catch].
  eexists. split; [reflexivity |].
  cbn [squareFeet]. unfold same, Math_round, mul, div.
  change (Qeq_bool 100 0) with false. cbv iota.
  assert (F : Qfloor (0 * b / 144 * 100 + (1 # 2)) = 0%Z).
  { assert (E : 0 * b / 144 * 100 + (1 # 2) == 1 # 2) by (rewrite Z0; reflexivity).
    rewrite (Qfloor_comp _ _ E). reflexivity. }
  rewrite F. reflexivity.
Qed.

(** X1.  For every finite length or breadth that is not a whole
    number, [processLengthForDivisibility] and
    [processBreadthForDivisibility] return 0: the loop never meets a
    multiple of 3.  So [calculateBuilders] and [calculateGraniteShops]
    bill an area of 0 for a fractional length, whatever the breadth. *)
Theorem fractional_dimension_adjusts_to_zero (q : Q) :
  fractional q ->
  processLengthForDivisibility (Fin q) = Fin 0
  /\ processBreadthForDivisibility (Fin q) = Fin 0
  /\ (forall b : Q,
        exists r,
          calculateBuilders (Fin q) (Fin b) = Return r
          /\ same (squareFeet r) (Fin 0))
  /\ (forall b : Q,
        exists r,
          calculateGraniteShops (Fin q) (Fin b) = Return r
          /\ same (squareFeet r) (Fin 0)).
Proof.
  intros H. destruct (adjusters_fractional q H) as [Hl Hb].
  split; [exact Hl |]. split; [exact Hb |]. split; intros b.
  - rewrite calculateBuilders_area, Hl. apply area_result_zero_length.
  - rewrite calculateGraniteShops_area, Hl.
    destruct (adjusters_nonneg b) as [_ [b' [Eb _]]]. rewrite Eb.
    apply area_result_zero_length.
Qed.

Lemma fractional_dimension_adjusts_to_zero_witness :
  processLengthForDivisibility (Fin 144.5) = Fin 0
  /\ exists r,
       calculateGraniteShops (Fin 144.5) (Fin 72) = Return r
       /\ same (squareFeet r) (Fin 0).
Proof.
  assert (H : fractional 144.5).
  { intros z E. unfold Qeq in E. simpl in E. lia. }
  destruct (fractional_dimension_adjusts_to_zero 144.5 H) as [Hl [_ [_ Hg]]].
  split; [exact Hl | apply Hg].
Defined.

(** ** How much an adjuster takes off *)

(** The loop only goes down. *)
Lemma divisibility_loop_le (fuel : nat) :
  forall q i,
    exists q', fst (divisibility_loop fuel (Fin q) i) = Fin q' /\ q' <= q.
Proof.
  induction fuel as [| fuel IH]; intros q i; simpl.
  - exists q. split; [reflexivity | lra].
  - destruct (loop_condition (Fin q) i).
    + change (sub (Fin q) (Fin 1)) with (Fin (q + - (1))).
      destruct (IH (q + - (1)) (S i)) as [q' [E L]].
      exists q'. split; [exact E | lra].
    + exists q. split; [reflexivity | lra].
Qed.

Lemma after_loop_le (q : Q) :
  0 <= q ->
  exists r,
    after_loop (divisibility_loop maxIterations (Fin q) 0) = Fin r
    /\ 0 <= r /\ r <= q.
Proof.
  intros Hq. unfold after_loop.
  destruct (maxIterations <=? _)%nat.
  - exists 0. split; [reflexivity | lra].
  - destruct (divisibility_loop_le maxIterations q 0) as [q' [E L]].
    rewrite E. unfold Math_max. simpl lt. destruct (Qltb q' 0) eqn:N.
    + exists 0. split; [reflexivity | lra].
    + apply Qltb_false in N. exists q'. split; [reflexivity | lra].
Qed.

(** An adjuster returns a value between 0 and what is left of the
    dimension after the subtrahend. *)
Lemma adjusters_le (q : Q) :
  (exists r, processLengthForDivisibility (Fin q) = Fin r
             /\ 0 <= r /\ (3 <= q -> r <= q - 3) /\ (q < 3 -> r == 0))
  /\ (exists r, processBreadthForDivisibility (Fin q) = Fin r
                /\ 0 <= r /\ (2 <= q -> r <= q - 2) /\ (q < 2 -> r == 0)).
Proof.
  rewrite processLength_unfold, processBreadth_unfold. split.
  - simpl lt. destruct (Qltb q 3) eqn:L.
    + apply Qltb_true in L. exists 0. split; [reflexivity |].
      split; [lra |]. split; [intros; lra | reflexivity].
    + apply Qltb_false in L.
      change (sub (Fin q) (Fin 3)) with (Fin (q + - (3))).
      destruct (after_loop_le (q + - (3))) as [r [E [R0 R1]]]; [lra |].
      exists r. split; [exact E |]. split; [exact R0 |].
      split; [intros; lra | intros; lra].
  - simpl lt. destruct (Qltb q 2) eqn:L.
    + apply Qltb_true in L. exists 0. split; [reflexivity |].
      split; [lra |]. split; [intros; lra | reflexivity].
    + apply Qltb_false in L.
      change (sub (Fin q) (Fin 2)) with (Fin (q + - (2))).
      destruct (after_loop_le (q + - (2))) as [r [E [R0 R1]]]; [lra |].
      exists r. split; [exact E |]. split; [exact R0 |].
      split; [intros; lra | intros; lra].
Qed.

(** An adjuster on a whole number at or above its subtrahend [k]. *)
Lemma adjuster_integer_value (z k : Z) :
  (k <= z)%Z ->
  exists q',
    after_loop (divisibility_loop maxIterations (Fin (inject_Z z + - inject_Z k)) 0)
    = Fin q'
    /\ q' == inject_Z ((z - k) - (z - k) mod 3).
Proof.
  intros Hz.
  assert (E : inject_Z z + - inject_Z k == inject_Z (z - k)).
  { unfold Z.sub. rewrite inject_Z_plus, inject_Z_opp. reflexivity. }
  destruct (after_loop_integer (z - k) _ E ltac:(lia)) as [q' [H1 [H2 _]]].
  exists q'. split; assumption.
Qed.

(** X2.  On a whole number of inches from the subtrahend up to
    [2 ^ 53] the adjusters take off between 3 and 5 inches of length
    and between 2 and 4 inches of breadth, and leave a multiple of 3,
    in the arithmetic of doubles as in exact arithmetic. *)
Theorem adjusters_take_off_bounded (zl zb : Z) :
  (3 <= zl <= 2 ^ 53)%Z -> (2 <= zb <= 2 ^ 53)%Z ->
  exists rl rb : Z,
    same (Binary64.processLengthForDivisibility (of_Z zl)) (of_Z rl)
    /\ same (Binary64.processBreadthForDivisibility (of_Z zb)) (of_Z rb)
    /\ same (processLengthForDivisibility (of_Z zl)) (of_Z rl)
    /\ same (processBreadthForDivisibility (of_Z zb)) (of_Z rb)
    /\ (zl - 5 <= rl <= zl - 3)%Z /\ (rl mod 3 = 0)%Z
    /\ (zb - 4 <= rb <= zb - 2)%Z /\ (rb mod 3 = 0)%Z.
Proof.
  intros [Hl Hlmax] [Hb Hbmax].
  exists ((zl - 3) - (zl - 3) mod 3)%Z, ((zb - 2) - (zb - 2) mod 3)%Z.
  pose proof (Z.mod_pos_bound (zl - 3) 3 ltac:(lia)) as Bl.
  pose proof (Z.mod_pos_bound (zb - 2) 3 ltac:(lia)) as Bb.
  assert (El : same (processLengthForDivisibility (of_Z zl))
                 (of_Z ((zl - 3) - (zl - 3) mod 3))).
  { rewrite processLength_unfold.
    assert (L : lt (of_Z zl) (Fin 3) = false).
    { apply Qltb_false. change 3 with (inject_Z 3). rewrite <- Zle_Qle. lia. }
    rewrite L.
    destruct (adjuster_integer_value zl 3 Hl) as [q' [E Hq']].
    change (sub (of_Z zl) (Fin 3)) with (Fin (inject_Z zl + - inject_Z 3)).
    rewrite E. exact Hq'. }
  assert (Eb : same (processBreadthForDivisibility (of_Z zb))
                 (of_Z ((zb - 2) - (zb - 2) mod 3))).
  { rewrite processBreadth_unfold.
    assert (L : lt (of_Z zb) (Fin 2) = false).
    { apply Qltb_false. change 2 with (inject_Z 2). rewrite <- Zle_Qle. lia. }
    rewrite L.
    destruct (adjuster_integer_value zb 2 Hb) as [q' [E Hq']].
    change (sub (of_Z zb) (Fin 2)) with (Fin (inject_Z zb + - inject_Z 2)).
    rewrite E. exact Hq'. }
  split; [| split; [| split; [exact El | split; [exact Eb |]]]].
  - eapply same_trans; [| exact El].
    apply (proj1 (adjusters_exact_on_safe_integers zl Hlmax)).
  - eapply same_trans; [| exact Eb].
    apply (proj2 (adjusters_exact_on_safe_integers zb Hbmax)).
  - split; [lia |]. split; [| split; [lia |]].
    + rewrite Zminus_mod, Zmod_mod, Z.sub_diag. reflexivity.
    + rewrite Zminus_mod, Zmod_mod, Z.sub_diag. reflexivity.
Qed.

Lemma adjusters_take_off_bounded_witness :
  exists rl rb : Z,
    same (Binary64.processLengthForDivisibility (of_Z 149)) (of_Z rl)
    /\ same (Binary64.processBreadthForDivisibility (of_Z 145)) (of_Z rb)
    /\ same (processLengthForDivisibility (of_Z 149)) (of_Z rl)
    /\ same (processBreadthForDivisibility (of_Z 145)) (of_Z rb)
    /\ (149 - 5 <= rl <= 149 - 3)%Z /\ (rl mod 3 = 0)%Z
    /\ (145 - 4 <= rb <= 145 - 2)%Z /\ (rb mod 3 = 0)%Z.
Proof.
  apply (adjusters_take_off_bounded 149 145);
    (split; [lia | vm_compute; discriminate]).
Defined.

(** ** Rounding never goes above a double *)

Lemma pow2_pos (e : Z) : 0 < Binary64.pow2 e.
Proof.
  unfold Binary64.pow2. destruct (Z.leb_spec 0 e) as [H | H].
  - change 0 with (inject_Z 0). rewrite <- Zlt_Qlt. apply Z.pow_pos_nonneg; lia.
  - apply Qinv_lt_0_compat. change 0 with (inject_Z 0). rewrite <- Zlt_Qlt.
    apply Z.pow_pos_nonneg; lia.
Qed.

Lemma pow2_succ (e : Z) : Binary64.pow2 (e + 1) == 2 * Binary64.pow2 e.
Proof.
  unfold Binary64.pow2.
  destruct (Z.leb_spec 0 e) as [H | H]; destruct (Z.leb_spec 0 (e + 1)) as [H1 | H1];
    try lia.
  - rewrite Z.pow_add_r by lia. rewrite inject_Z_mult. change (inject_Z (2 ^ 1)) with 2. ring.
  - assert (e = -1)%Z by lia. subst e. reflexivity.
  - replace (- e)%Z with (- (e + 1) + 1)%Z by lia.
    rewrite Z.pow_add_r by lia. rewrite inject_Z_mult. change (inject_Z (2 ^ 1)) with 2.
    assert (0 < inject_Z (2 ^ (- (e + 1)))).
    { change 0 with (inject_Z 0). rewrite <- Zlt_Qlt. apply Z.pow_pos_nonneg; lia. }
    field. lra.
Qed.

Lemma pow2_add_nat (e : Z) (n : nat) :
  Binary64.pow2 (e + Z.of_nat n) == inject_Z (2 ^ Z.of_nat n) * Binary64.pow2 e.
Proof.
  induction n as [| n IH].
  - change (Z.of_nat 0) with 0%Z. rewrite Z.add_0_r.
    change (inject_Z (2 ^ 0)) with 1. ring.
  - rewrite Nat2Z.inj_succ. unfold Z.succ. rewrite Z.add_assoc, pow2_succ, IH.
    rewrite Z.pow_add_r by lia. rewrite inject_Z_mult. change (inject_Z (2 ^ 1)) with 2. ring.
Qed.

Lemma pow2_add (e k : Z) :
  (0 <= k)%Z -> Binary64.pow2 (e + k) == inject_Z (2 ^ k) * Binary64.pow2 e.
Proof.
  intros Hk. rewrite <- (Z2Nat.id k Hk). apply pow2_add_nat.
Qed.

Lemma pow2_le (a b : Z) : (a <= b)%Z -> Binary64.pow2 a <= Binary64.pow2 b.
Proof.
  intros H. replace b with (a + (b - a))%Z by lia. rewrite pow2_add by lia.
  pose proof (pow2_pos a) as P.
  assert (1 <= inject_Z (2 ^ (b - a))).
  { change 1 with (inject_Z 1). rewrite <- Zle_Qle.
    pose proof (Z.pow_pos_nonneg 2 (b - a) ltac:(lia) ltac:(lia)). lia. }
  nra.
Qed.

Lemma pow2_lt_inv (a b : Z) : Binary64.pow2 a < Binary64.pow2 b -> (a < b)%Z.
Proof.
  intros H. destruct (Z.lt_ge_cases a b) as [L | G]; [exact L |].
  apply pow2_le in G. lra.
Qed.

Lemma pow2_nonneg_exp (a : Z) : (0 <= a)%Z -> Binary64.pow2 a = inject_Z (2 ^ a).
Proof.
  intros H. unfold Binary64.pow2. destruct (Z.leb_spec 0 a); [reflexivity | lia].
Qed.

Lemma floor_log2_spec (q : Q) :
  0 < q ->
  Binary64.pow2 (Binary64.floor_log2 q) <= q
  /\ q < Binary64.pow2 (Binary64.floor_log2 q + 1).
Proof.
  intros Hq. destruct q as [n d]. unfold Binary64.floor_log2. cbn [Qnum Qden].
  assert (Hn : (0 < n)%Z).
  { unfold Qlt in Hq. simpl in Hq. lia. }
  set (a := Z.log2 n). set (b := Z.log2 (Zpos d)).
  pose proof (Z.log2_spec n Hn) as [A1 A2]. fold a in A1, A2.
  pose proof (Z.log2_spec (Zpos d) ltac:(lia)) as [B1 B2]. fold b in B1, B2.
  pose proof (Z.log2_nonneg n) as a0. fold a in a0.
  pose proof (Z.log2_nonneg (Zpos d)) as b0. fold b in b0.
  set (e := (a - b)%Z).
  (* pow2 e * 2^b == 2^a *)
  assert (E : inject_Z (2 ^ b) * Binary64.pow2 e == inject_Z (2 ^ a)).
  { rewrite <- pow2_add by lia. unfold e. replace (a - b + b)%Z with a by lia.
    rewrite pow2_nonneg_exp by lia. reflexivity. }
  assert (Q : (n # d) * inject_Z (Zpos d) == inject_Z n).
  { unfold Qeq, Qmult, inject_Z. simpl. lia. }
  pose proof (pow2_pos e) as Pe.
  set (x := Binary64.pow2 e) in *.
  assert (A1q : inject_Z (2 ^ a) <= inject_Z n) by (rewrite <- Zle_Qle; exact A1).
  assert (A2q : inject_Z n < 2 * inject_Z (2 ^ a)).
  { change 2 with (inject_Z 2). rewrite <- inject_Z_mult, <- Zlt_Qlt.
    replace (Z.succ a) with (a + 1)%Z in A2 by lia.
    rewrite Z.pow_add_r in A2 by lia. lia. }
  assert (B1q : inject_Z (2 ^ b) <= inject_Z (Zpos d)) by (rewrite <- Zle_Qle; exact B1).
  assert (B2q : inject_Z (Zpos d) < 2 * inject_Z (2 ^ b)).
  { change 2 with (inject_Z 2). rewrite <- inject_Z_mult, <- Zlt_Qlt.
    replace (Z.succ b) with (b + 1)%Z in B2 by lia.
    rewrite Z.pow_add_r in B2 by lia. lia. }
  assert (Bp : 0 < inject_Z (2 ^ b)).
  { change 0 with (inject_Z 0). rewrite <- Zlt_Qlt. apply Z.pow_pos_nonneg; lia. }
  assert (Ap : 0 < inject_Z (2 ^ a)).
  { change 0 with (inject_Z 0). rewrite <- Zlt_Qlt. apply Z.pow_pos_nonneg; lia. }
  assert (Dp : 0 < inject_Z (Zpos d)).
  { change 0 with (inject_Z 0). rewrite <- Zlt_Qlt. lia. }
  set (N := inject_Z n) in *. set (D := inject_Z (Zpos d)) in *.
  set (A := inject_Z (2 ^ a)) in *. set (B := inject_Z (2 ^ b)) in *.
  set (q := n # d) in *.
  assert (Up : q < 2 * x).
  { apply (Qmult_lt_r _ _ (D * B)); [nra |].
    assert (T1 : q * (D * B) == N * B) by (rewrite <- Q; ring).
    assert (T2 : 2 * x * (D * B) == 2 * A * D) by (rewrite <- E; ring).
    rewrite T1, T2. nra. }
  assert (Lo : x < 2 * q).
  { apply (Qmult_lt_r _ _ (D * B)); [nra |].
    assert (T1 : 2 * q * (D * B) == 2 * N * B) by (rewrite <- Q; ring).
    assert (T2 : x * (D * B) == A * D) by (rewrite <- E; ring).
    rewrite T1, T2. nra. }
  destruct (Qle_bool x q) eqn:C.
  - apply Qle_bool_iff in C. split; [exact C |]. rewrite pow2_succ. exact Up.
  - assert (C' : q < x).
    { apply Qnot_le_lt. intros H. apply Qle_bool_iff in H. congruence. }
    replace (e - 1 + 1)%Z with e by lia. split; [| exact C'].
    assert (X : x == 2 * Binary64.pow2 (e - 1)).
    { unfold x. rewrite <- pow2_succ. replace (e - 1 + 1)%Z with e by lia. reflexivity. }
    lra.
Qed.

Lemma floor_log2_le (p q : Q) :
  0 < p -> p <= q -> (Binary64.floor_log2 p <= Binary64.floor_log2 q)%Z.
Proof.
  intros Hp Hpq.
  destruct (floor_log2_spec p Hp) as [P1 _].
  destruct (floor_log2_spec q ltac:(lra)) as [_ Q2].
  assert (H : Binary64.pow2 (Binary64.floor_log2 p)
              < Binary64.pow2 (Binary64.floor_log2 q + 1)) by lra.
  apply pow2_lt_inv in H. lia.
Qed.

Lemma nearest_even_le (y : Q) (K : Z) :
  y <= inject_Z K -> (Binary64.nearest_even y <= K)%Z.
Proof.
  intros H. unfold Binary64.nearest_even.
  pose proof (Qfloor_resp_le _ _ H) as F. rewrite Qfloor_Z in F.
  destruct (Z.eq_dec (Qfloor y) K) as [E | N].
  - assert (Y : y == inject_Z K).
    { apply Qle_antisym; [exact H |]. rewrite <- E. apply Qfloor_le. }
    assert (C : Qcompare (y - inject_Z (Qfloor y)) (1 # 2) = Lt).
    { apply Qlt_alt. rewrite E, Y. unfold Qminus. rewrite Qplus_opp_r. reflexivity. }
    rewrite C. lia.
  - destruct (Qcompare _ _); [destruct (Z.even _) | |]; lia.
Qed.

Lemma nearest_even_nonneg (y : Q) : 0 <= y -> (0 <= Binary64.nearest_even y)%Z.
Proof.
  intros H. unfold Binary64.nearest_even.
  pose proof (Qfloor_resp_le _ _ H) as F. change (Qfloor 0) with 0%Z in F.
  destruct (Qcompare _ _); [destruct (Z.even _) | |]; lia.
Qed.

Lemma inf_of_sign_not_Fin (s : Z) (q : Q) : inf_of_sign s <> Fin q.
Proof. destruct s; discriminate. Qed.

Lemma double_inv (d : Q) :
  0 < d -> is_double d ->
  exists M : Z,
    d == inject_Z M * Binary64.pow2 (Binary64.ulp_exponent (Qred d))
    /\ d < Binary64.pow2 1024.
Proof.
  intros Hd [d' [R E]]. unfold Binary64.round in R. cbv zeta in R.
  pose proof (Qred_correct d) as Rd.
  destruct (Qeq_bool (Qred d) 0) eqn:Z0.
  { apply Qeq_bool_eq in Z0. rewrite Rd in Z0. lra. }
  destruct (Qle_bool _ _) eqn:O in R.
  { exfalso. exact (inf_of_sign_not_Fin _ _ R). }
  injection R as R.
  exists (Binary64.nearest_even
            (Qred d / Binary64.pow2 (Binary64.ulp_exponent (Qred d)))).
  rewrite R. split; [symmetry; exact E |].
  rewrite R in O.
  apply Qnot_le_lt. intros H. 
  assert (A : Qabs d' == d) by (rewrite E; apply Qabs_pos; lra).
  assert (T : Qle_bool (Binary64.pow2 1024) (Qabs d') = true).
  { apply Qle_bool_iff. rewrite A. exact H. }
  congruence.
Qed.

Lemma ulp_exponent_le (x y : Q) :
  0 < x -> x <= y -> (Binary64.ulp_exponent x <= Binary64.ulp_exponent y)%Z.
Proof.
  intros Hx Hxy. unfold Binary64.ulp_exponent.
  assert (Ax : Qabs x == x) by (apply Qabs_pos; lra).
  assert (Ay : Qabs y == y) by (apply Qabs_pos; lra).
  assert (L : (Binary64.floor_log2 (Qabs x) <= Binary64.floor_log2 (Qabs y))%Z).
  { apply floor_log2_le; rewrite ?Ax, ?Ay; assumption. }
  lia.
Qed.

Lemma round_below (d x : Q) :
  0 < d -> is_double d -> x <= d -> below d (Binary64.round x).
Proof.
  intros Hd Dd Hx.
  destruct (double_inv d Hd Dd) as [M [EM Hmax]].
  unfold Binary64.round. cbv zeta.
  pose proof (Qred_correct x) as Rx. pose proof (Qred_correct d) as Rd.
  set (x0 := Qred x) in *. set (d0 := Qred d) in *.
  destruct (Qeq_bool x0 0) eqn:Z0; [simpl; lra |].
  apply Qeq_bool_false in Z0.
  set (e := Binary64.ulp_exponent x0).
  set (N := Binary64.nearest_even (x0 / Binary64.pow2 e)).
  pose proof (pow2_pos e) as Pe.
  destruct (Qlt_le_dec x0 0) as [Neg | Pos].
  - (* a negative value *)
    assert (HN : (N <= 0)%Z).
    { apply nearest_even_le. change (inject_Z 0) with 0.
      apply Qle_shift_div_r; [exact Pe | lra]. }
    assert (HR : inject_Z N * Binary64.pow2 e <= 0).
    { assert (inject_Z N <= 0) by (change 0 with (inject_Z 0); rewrite <- Zle_Qle; exact HN).
      nra. }
    destruct (Qle_bool _ _).
    + unfold Qsgn. destruct x0 as [[| n | n] dx]; [| | exact I];
        unfold Qlt in Neg; simpl in Neg; lia.
    + simpl. lra.
  - (* a positive value *)
    assert (Hx0 : 0 < x0).
    { destruct (Qle_lt_or_eq _ _ Pos) as [H | H]; [exact H |].
      exfalso. apply Z0. symmetry. exact H. }
    assert (Le : (e <= Binary64.ulp_exponent d0)%Z).
    { apply ulp_exponent_le; [exact Hx0 |]. rewrite Rx, Rd. exact Hx. }
    set (ed := Binary64.ulp_exponent d0) in *.
    assert (P : Binary64.pow2 ed == inject_Z (2 ^ (ed - e)) * Binary64.pow2 e).
    { rewrite <- pow2_add by lia. replace (e + (ed - e))%Z with ed by lia. reflexivity. }
    set (K := (M * 2 ^ (ed - e))%Z).
    assert (HK : d == inject_Z K * Binary64.pow2 e).
    { unfold K. rewrite inject_Z_mult, EM, P. ring. }
    assert (HN : (N <= K)%Z).
    { apply nearest_even_le. apply Qle_shift_div_r; [exact Pe |].
      rewrite <- HK, Rx. exact Hx. }
    assert (HN0 : (0 <= N)%Z).
    { apply nearest_even_nonneg. apply Qle_shift_div_l; [exact Pe | lra]. }
    assert (HR : inject_Z N * Binary64.pow2 e <= d).
    { rewrite HK. apply Qmult_le_compat_r; [| lra]. rewrite <- Zle_Qle. exact HN. }
    assert (HR0 : 0 <= inject_Z N * Binary64.pow2 e).
    { assert (0 <= inject_Z N) by (change 0 with (inject_Z 0); rewrite <- Zle_Qle; exact HN0).
      nra. }
    destruct (Qle_bool _ _) eqn:O.
    + exfalso. apply Qle_bool_iff in O. rewrite Qabs_pos in O by exact HR0. lra.
    + simpl. exact HR.
Qed.

Lemma binary64_loop_below (d : Q) :
  0 < d -> is_double d ->
  forall fuel v i,
    below d v -> below d (fst (Binary64.divisibility_loop fuel v i)).
Proof.
  intros Hd Dd. induction fuel as [| fuel IH]; intros v i Hv; [exact Hv |].
  simpl. destruct (loop_condition v i) eqn:C; [| exact Hv].
  apply IH. destruct v as [q | | |]; try contradiction.
  - change (Binary64.sub (Fin q) (Fin 1)) with (Binary64.round (q + - (1))).
    apply round_below; [exact Hd | exact Dd |]. simpl in Hv. lra.
  - discriminate C.
Qed.

Lemma after_loop_below (d : Q) (r : number * nat) :
  0 < d -> below d (fst r) ->
  exists q, after_loop r = Fin q /\ 0 <= q /\ q <= d.
Proof.
  intros Hd H. unfold after_loop.
  destruct (maxIterations <=? snd r)%nat.
  - exists 0. split; [reflexivity | lra].
  - destruct (fst r) as [q | | |]; try contradiction.
    + unfold Math_max. simpl lt. destruct (Qltb q 0) eqn:N.
      * exists 0. split; [reflexivity | lra].
      * apply Qltb_false in N. exists q. simpl in H. split; [reflexivity | lra].
    + exists 0. split; [reflexivity | lra].
Qed.

Lemma binary64_adjusters_below (q : Q) :
  is_double q ->
  (exists r, Binary64.processLengthForDivisibility (Fin q) = Fin r
             /\ 0 <= r /\ (3 <= q -> r <= q) /\ (q < 3 -> r == 0))
  /\ (exists r, Binary64.processBreadthForDivisibility (Fin q) = Fin r
                /\ 0 <= r /\ (2 <= q -> r <= q) /\ (q < 2 -> r == 0)).
Proof.
  intros Dq. rewrite binary64_length_unfold, binary64_breadth_unfold. split.
  - simpl lt. destruct (Qltb q 3) eqn:L.
    + apply Qltb_true in L. exists 0. split; [reflexivity |].
      split; [lra |]. split; [intros; lra | reflexivity].
    + apply Qltb_false in L.
      change (Binary64.sub (Fin q) (Fin 3)) with (Binary64.round (q + - (3))).
      destruct (after_loop_below q
                  (Binary64.divisibility_loop maxIterations
                     (Binary64.round (q + - (3))) 0)) as [r [E [R0 R1]]].
      * lra.
      * apply binary64_loop_below; [lra | exact Dq |].
        apply round_below; [lra | exact Dq | lra].
      * exists r. split; [exact E |]. split; [exact R0 |].
        split; [intros; exact R1 | intros; lra].
  - simpl lt. destruct (Qltb q 2) eqn:L.
    + apply Qltb_true in L. exists 0. split; [reflexivity |].
      split; [lra |]. split; [intros; lra | reflexivity].
    + apply Qltb_false in L.
      change (Binary64.sub (Fin q) (Fin 2)) with (Binary64.round (q + - (2))).
      destruct (after_loop_below q
                  (Binary64.divisibility_loop maxIterations
                     (Binary64.round (q + - (2))) 0)) as [r [E [R0 R1]]].
      * lra.
      * apply binary64_loop_below; [lra | exact Dq |].
        apply round_below; [lra | exact Dq | lra].
      * exists r. split; [exact E |]. split; [exact R0 |].
        split; [intros; exact R1 | intros; lra].
Qed.

(** X9.  On any double, whole or not, an adjuster returns a finite
    value that is at least 0 and at most the value itself, and 0 when
    the value is below the subtrahend: it never adds to a dimension.
    It can return the value itself: the double [3 * 2 ^ 54] less 3 is
    that double again, a multiple of 3, and both adjusters return
    it. *)
Theorem adjusters_never_add :
  (forall q : Q,
     is_double q ->
     exists rl rb : Q,
       Binary64.processLengthForDivisibility (Fin q) = Fin rl
       /\ Binary64.processBreadthForDivisibility (Fin q) = Fin rb
       /\ 0 <= rl /\ rl <= (if Qltb q 3 then 0 else q)
       /\ 0 <= rb /\ rb <= (if Qltb q 2 then 0 else q))
  /\ is_double (inject_Z (3 * 2 ^ 54))
  /\ same (Binary64.processLengthForDivisibility (of_Z (3 * 2 ^ 54)))
       (of_Z (3 * 2 ^ 54))
  /\ same (Binary64.processBreadthForDivisibility (of_Z (3 * 2 ^ 54)))
       (of_Z (3 * 2 ^ 54)).
Proof.
  split.
  - intros q Dq.
    destruct (binary64_adjusters_below q Dq)
      as [[rl [El [Hl0 [Hl1 Hl2]]]] [rb [Eb [Hb0 [Hb1 Hb2]]]]].
    exists rl, rb. repeat split; try assumption.
    + destruct (Qltb q 3) eqn:L.
      * apply Qltb_true in L. rewrite (Hl2 L). lra.
      * apply Qltb_false in L. apply Hl1, L.
    + destruct (Qltb q 2) eqn:L.
      * apply Qltb_true in L. rewrite (Hb2 L). lra.
      * apply Qltb_false in L. apply Hb1, L.
  - split.
    + eexists. split; vm_compute; reflexivity.
    + split; vm_compute; reflexivity.
Qed.

Lemma adjusters_never_add_witness :
  exists rl rb : Q,
    Binary64.processLengthForDivisibility (Fin 144.5) = Fin rl
    /\ Binary64.processBreadthForDivisibility (Fin 144.5) = Fin rb
    /\ 0 <= rl /\ rl <= (if Qltb 144.5 3 then 0 else 144.5)
    /\ 0 <= rb /\ rb <= (if Qltb 144.5 2 then 0 else 144.5).
Proof.
  apply (proj1 adjusters_never_add 144.5).
  eexists. split; vm_compute; reflexivity.
Defined.

(** ** Rounding and the order of the strategies *)

(** The shared tail on finite, non-negative final dimensions: what it
    returns. *)
Lemma area_result_value (strategy : string) (a b : Q) :
  0 <= a -> 0 <= b ->
  area_result strategy (Fin a) (Fin b)
  = Return (mkResult (Fin a) (Fin b)
              (Fin (inject_Z (Qfloor (a * b / 144 * 100 + (1 # 2))) / 100))).
Proof.
  intros Ha Hb. unfold area_result.
  change (mul (Fin a) (Fin b)) with (Fin (a * b)).
  change (div (Fin (a * b)) (Fin 144)) with (Fin (a * b / 144)).
  assert (Hsf : 0 <= a * b / 144).
  { apply Qle_shift_div_l; [reflexivity |]. rewrite Qmult_0_l.
    apply Qmult_le_0_compat; assumption. }
  simpl isFinite. simpl lt.
  assert (L : Qltb (a * b / 144) 0 = false) by (apply Qltb_false; exact Hsf).
  rewrite L. reflexivity.
Qed.

Lemma rounded_area_le (x y : Q) :
  x <= y ->
  inject_Z (Qfloor (x * 100 + (1 # 2))) / 100
  <= inject_Z (Qfloor (y * 100 + (1 # 2))) / 100.
Proof.
  intros H. apply Qmult_le_compat_r; [| compute; discriminate].
  rewrite <- Zle_Qle. apply Qfloor_resp_le. lra.
Qed.

Lemma area_result_le (s1 s2 : string) (a1 b1 a2 b2 : Q) :
  0 <= a1 -> a1 <= a2 -> 0 <= b1 -> b1 <= b2 ->
  area_le (area_result s1 (Fin a1) (Fin b1)) (area_result s2 (Fin a2) (Fin b2)).
Proof.
  intros Ha1 Ha Hb1 Hb.
  rewrite (area_result_value s1 a1 b1) by assumption.
  rewrite (area_result_value s2 a2 b2) by lra.
  unfold area_le. do 4 eexists.
  split; [reflexivity |]. split; [reflexivity |].
  split; [reflexivity |]. split; [reflexivity |].
  apply rounded_area_le.
  apply Qmult_le_compat_r; [| compute; discriminate].
  apply Qle_trans with (a1 * b2).
  - rewrite (Qmult_comm a1 b1), (Qmult_comm a1 b2).
    apply Qmult_le_compat_r; assumption.
  - apply Qmult_le_compat_r; lra.
Qed.

Lemma exporters_dimension (q k : Q) :
  exists e, Math_max (Fin (q + - k)) (Fin 0) = Fin e
            /\ 0 <= e /\ q - k <= e /\ (0 <= k -> 0 <= q -> e <= q).
Proof.
  unfold Math_max. simpl lt. destruct (Qltb (q + - k) 0) eqn:L.
  - apply Qltb_true in L. exists 0. split; [reflexivity |].
    split; [lra |]. split; [lra | intros; lra].
  - apply Qltb_false in L. exists (q + - k). split; [reflexivity |].
    split; [lra |]. split; [lra | intros; lra].
Qed.

(** X3.  For dimensions that pass validation (positive, at most
    10,000) the billed areas are ordered: Granite Shops (and
    Outstation Parties) at most Builders at most Retail, and Granite
    Shops at most Exporters at most Retail.  (In this range no product
    overflows and no adjuster adds, so the order also holds for the
    rounded values of doubles.) *)
Theorem strategies_ordered (l b : Q) :
  0 < l <= 10000 -> 0 < b <= 10000 ->
  area_le (calculateGraniteShops (Fin l) (Fin b)) (calculateBuilders (Fin l) (Fin b))
  /\ area_le (calculateBuilders (Fin l) (Fin b)) (calculateRetail (Fin l) (Fin b))
  /\ area_le (calculateGraniteShops (Fin l) (Fin b))
       (calculateExporters (Fin l) (Fin b))
  /\ area_le (calculateExporters (Fin l) (Fin b)) (calculateRetail (Fin l) (Fin b))
  /\ area_le (calculateOutstationParties (Fin l) (Fin b))
       (calculateBuilders (Fin l) (Fin b)).
Proof.
  intros [Hl _] [Hb _].
  destruct (adjusters_le l) as [[al [El [Al0 [Al1 Al2]]]] _].
  destruct (adjusters_le b) as [_ [ab [Eb [Ab0 [Ab1 Ab2]]]]].
  destruct (exporters_dimension l 3) as [el [Eel [Hel0 [Hel1 Hel2]]]].
  destruct (exporters_dimension b 2) as [eb [Eeb [Heb0 [Heb1 Heb2]]]].
  assert (Hal : al <= l).
  { destruct (Qlt_le_dec l 3) as [L | L]; [rewrite (Al2 L); lra |].
    specialize (Al1 L). lra. }
  assert (Hab : ab <= b).
  { destruct (Qlt_le_dec b 2) as [L | L]; [rewrite (Ab2 L); lra |].
    specialize (Ab1 L). lra. }
  assert (Hale : al <= el).
  { destruct (Qlt_le_dec l 3) as [L | L]; [rewrite (Al2 L); lra |].
    specialize (Al1 L). lra. }
  assert (Habe : ab <= eb).
  { destruct (Qlt_le_dec b 2) as [L | L]; [rewrite (Ab2 L); lra |].
    specialize (Ab1 L). lra. }
  assert (G : area_le (calculateGraniteShops (Fin l) (Fin b))
                (calculateBuilders (Fin l) (Fin b))).
  { rewrite calculateGraniteShops_area, calculateBuilders_area, El, Eb.
    apply area_result_le; lra. }
  split; [exact G |]. split; [| split; [| split; [| exact G]]].
  - rewrite calculateBuilders_area, calculateRetail_area, El.
    apply area_result_le; lra.
  - rewrite calculateGraniteShops_area, calculateExporters_area, El, Eb.
    change (sub (Fin l) (Fin 3)) with (Fin (l + - (3))).
    change (sub (Fin b) (Fin 2)) with (Fin (b + - (2))).
    rewrite Eel, Eeb. apply area_result_le; lra.
  - rewrite calculateExporters_area, calculateRetail_area.
    change (sub (Fin l) (Fin 3)) with (Fin (l + - (3))).
    change (sub (Fin b) (Fin 2)) with (Fin (b + - (2))).
    rewrite Eel, Eeb. apply area_result_le; [lra | | lra |].
    + apply Hel2; lra.
    + apply Heb2; lra.
Qed.

Lemma strategies_ordered_witness :
  area_le (calculateGraniteShops (Fin 150) (Fin 100))
    (calculateExporters (Fin 150) (Fin 100))
  /\ area_le (calculateExporters (Fin 150) (Fin 100))
       (calculateRetail (Fin 150) (Fin 100)).
Proof.
  assert (H1 : 0 < 150 <= 10000) by (split; [reflexivity | discriminate]).
  assert (H2 : 0 < 100 <= 10000) by (split; [reflexivity | discriminate]).
  destruct (strategies_ordered 150 100 H1 H2) as [_ [_ [G [X _]]]].
  split; [exact G | exact X].
Defined.

(** ** The entry point on valid arguments *)

Lemma valid_arguments (length breadth : argument) (customerType : option string) :
  validationErrors length breadth customerType = [] ->
  exists l b s,
    length = Value (Fin l) /\ breadth = Value (Fin b) /\ customerType = Some s
    /\ 0 < l /\ l <= 10000 /\ 0 < b /\ b <= 10000
    /\ In s CUSTOMER_TYPES.values.
Proof.
  intros H. unfold validationErrors in H.
  apply app_eq_nil in H as [Hl H]. apply app_eq_nil in H as [Hb Ht].
  apply validate_dimension_nil in Hl as [l [-> [Hl0 Hl1]]].
  apply validate_dimension_nil in Hb as [b [-> [Hb0 Hb1]]].
  apply validate_customerType_nil in Ht as [s [-> Hs]].
  exists l, b, s. repeat split; assumption.
Qed.

(** For a recognized type the [switch] runs the shared tail on the
    dimensions [processLength] and [processBreadth] give. *)
Lemma route_recognized (s : string) (l b : Q) :
  0 <= l -> 0 <= b -> In s CUSTOMER_TYPES.values ->
  exists name a' b',
    route (Some s) (Fin l) (Fin b) = area_result name (Fin a') (Fin b')
    /\ 0 <= a' /\ 0 <= b'
    /\ processLength (Fin l) s = Fin a'
    /\ processBreadth (Fin b) s = Fin b'.
Proof.
  intros Hl Hb Hs.
  destruct (adjusters_nonneg l) as [[al [El Hal]] _].
  destruct (adjusters_nonneg b) as [_ [ab [Eb Hab]]].
  destruct (Math_max_zero (l + - (3))) as [el [Eel Hel]].
  destruct (Math_max_zero (b + - (2))) as [eb [Eeb Heb]].
  simpl in Hs. destruct Hs as [<- | [<- | [<- | [<- | [<- | []]]]]].
  - exists "Retail"%string, l, b. repeat split; assumption.
  - exists "Granite Shops"%string, al, ab.
    split; [| repeat split; assumption].
    change (route (Some CUSTOMER_TYPES.GRANITE_SHOPS) (Fin l) (Fin b))
      with (calculateGraniteShops (Fin l) (Fin b)).
    rewrite calculateGraniteShops_area, El, Eb. reflexivity.
  - exists "Builders"%string, al, b.
    split; [| repeat split; assumption].
    change (route (Some CUSTOMER_TYPES.BUILDERS) (Fin l) (Fin b))
      with (calculateBuilders (Fin l) (Fin b)).
    rewrite calculateBuilders_area, El. reflexivity.
  - exists "Granite Shops"%string, al, ab.
    split; [| repeat split; assumption].
    change (route (Some CUSTOMER_TYPES.OUTSTATION_PARTIES) (Fin l) (Fin b))
      with (calculateGraniteShops (Fin l) (Fin b)).
    rewrite calculateGraniteShops_area, El, Eb. reflexivity.
  - exists "Exporters"%string, el, eb.
    split; [| repeat split; assumption].
    change (route (Some CUSTOMER_TYPES.EXPORTERS) (Fin l) (Fin b))
      with (calculateExporters (Fin l) (Fin b)).
    rewrite calculateExporters_area.
    change (sub (Fin l) (Fin 3)) with (Fin (l + - (3))).
    change (sub (Fin b) (Fin 2)) with (Fin (b + - (2))).
    rewrite Eel, Eeb. reflexivity.
Qed.

(** What the entry point returns on valid arguments. *)
Lemma calculateSquareFeet_value (length breadth : argument) (s : string) :
  validationErrors length breadth (Some s) = [] ->
  exists a b,
    0 <= a /\ 0 <= b
    /\ processLength (parseFloat length) s = Fin a
    /\ processBreadth (parseFloat breadth) s = Fin b
    /\ calculateSquareFeet length breadth (Some s)
       = Return (mkResult (Fin a) (Fin b)
                   (Fin (inject_Z (Qfloor (a * b / 144 * 100 + (1 # 2))) / 100))).
Proof.
  intros H. rewrite (calculateSquareFeet_valid _ _ _ H).
  destruct (valid_arguments _ _ _ H)
    as [l [b [s' [-> [-> [Es [Hl0 [_ [Hb0 [_ Hs]]]]]]]]]].
  injection Es as <-. simpl parseFloat.
  destruct (route_recognized s l b) as [name [a' [b' [R [Ha [Hb [Pl Pb]]]]]]];
    [lra | lra | exact Hs |].
  exists a', b'. repeat split; try assumption.
  rewrite R, (area_result_value name a' b' Ha Hb). reflexivity.
Qed.

(** X4.  On whole numbers of inches that pass validation the returned
    area is a whole number [n] of hundredths, the one nearest to
    [finalLength * finalBreadth / 144] (a tie goes up).  (On whole
    inches the product is exact in doubles, and [Math.round] meets the
    same [n]: a tie is an odd multiple of 1/8 square foot, which
    doubles hold exactly, and any other value is at least 1/36 of a
    hundredth away from a tie.) *)
Theorem area_rounded_to_hundredths (zl zb : Z) (s : string) :
  validationErrors (Value (of_Z zl)) (Value (of_Z zb)) (Some s) = [] ->
  exists r a b n,
    calculateSquareFeet (Value (of_Z zl)) (Value (of_Z zb)) (Some s) = Return r
    /\ finalLength r = Fin a /\ finalBreadth r = Fin b
    /\ squareFeet r = Fin (inject_Z n / 100)
    /\ a * b / 144 - (1 # 200) < inject_Z n / 100
    /\ inject_Z n / 100 <= a * b / 144 + (1 # 200).
Proof.
  intros H.
  destruct (calculateSquareFeet_value _ _ _ H) as [a [b [_ [_ [_ [_ E]]]]]].
  exists (mkResult (Fin a) (Fin b)
            (Fin (inject_Z (Qfloor (a * b / 144 * 100 + (1 # 2))) / 100))),
    a, b, (Qfloor (a * b / 144 * 100 + (1 # 2))).
  split; [exact E |]. split; [reflexivity |]. split; [reflexivity |].
  split; [reflexivity |].
  pose proof (Qfloor_le (a * b / 144 * 100 + (1 # 2))) as Lo.
  pose proof (Qlt_floor (a * b / 144 * 100 + (1 # 2))) as Hi.
  rewrite inject_Z_plus in Hi. change (inject_Z 1) with 1 in Hi.
  set (n := inject_Z (Qfloor (a * b / 144 * 100 + (1 # 2)))) in *.
  set (x := a * b / 144) in *.
  split.
  - apply Qlt_shift_div_l; [reflexivity |]. lra.
  - apply Qle_shift_div_r; [reflexivity |]. lra.
Qed.

Lemma area_rounded_to_hundredths_witness :
  exists r a b n,
    calculateSquareFeet (Value (of_Z 150)) (Value (of_Z 100)) (Some "builders")
    = Return r
    /\ finalLength r = Fin a /\ finalBreadth r = Fin b
    /\ squareFeet r = Fin (inject_Z n / 100)
    /\ a * b / 144 - (1 # 200) < inject_Z n / 100
    /\ inject_Z n / 100 <= a * b / 144 + (1 # 200).
Proof.
  apply (area_rounded_to_hundredths 150 100 "builders"%string).
  reflexivity.
Defined.

(** X5.  Whatever its arguments, [calculateSquareFeet] either returns
    or throws the validation error with all collected messages: the
    errors of type ['calculation'] and ['unsupported_customer_type']
    are never thrown. *)
Theorem only_validation_errors (length breadth : argument)
  (customerType : option string) :
  (exists r, calculateSquareFeet length breadth customerType = Return r)
  \/ calculateSquareFeet length breadth customerType
     = Throw (mkError "Validation failed" (Some "validation"%string)
                (Some (validationErrors length breadth customerType)) None).
Proof.
  destruct (validationErrors length breadth customerType) as [| m ms] eqn:E.
  - left.
    destruct (valid_arguments _ _ _ E) as [l [b [s [_ [_ [Es _]]]]]].
    subst customerType.
    destruct (calculateSquareFeet_value _ _ _ E) as [a [b' [_ [_ [_ [_ R]]]]]].
    eexists. exact R.
  - right. rewrite <- E. apply calculateSquareFeet_invalid.
    rewrite E. discriminate.
Qed.

(** X6.  On arguments that pass validation the final dimensions in the
    result of [calculateSquareFeet] are the values [processLength] and
    [processBreadth] give for the same customer type. *)
Theorem result_dimensions_are_processed (length breadth : argument) (s : string) :
  validationErrors length breadth (Some s) = [] ->
  exists r,
    calculateSquareFeet length breadth (Some s) = Return r
    /\ (finalLength r, finalBreadth r)
       = final_dimensions s (parseFloat length) (parseFloat breadth).
Proof.
  intros H.
  destruct (calculateSquareFeet_value _ _ _ H) as [a [b [_ [_ [Pl [Pb E]]]]]].
  eexists. split; [exact E |].
  unfold final_dimensions. rewrite Pl, Pb. reflexivity.
Qed.

Lemma result_dimensions_are_processed_witness :
  exists r,
    calculateSquareFeet (Value (Fin 149)) (Value (Fin 145)) (Some "granite_shops")
    = Return r
    /\ (finalLength r, finalBreadth r)
       = final_dimensions "granite_shops" (Fin 149) (Fin 145).
Proof.
  apply (result_dimensions_are_processed (Value (Fin 149)) (Value (Fin 145))
           "granite_shops"%string).
  reflexivity.
Defined.

(** ** The customer types of the server *)

Lemma customer_type_message (length breadth : argument) (s : string) :
  validate_customerType (Some s) <> [] ->
  throws_validation (calculateSquareFeet length breadth (Some s)).
Proof.
  intros H. rewrite calculateSquareFeet_invalid; [reflexivity |].
  unfold validationErrors. intros E.
  apply app_eq_nil in E as [_ E]. apply app_eq_nil in E as [_ E].
  contradiction.
Qed.

(** X7.  The customer types of the engine and of the server have
    nothing in common: for a type the server accepts (and the [CHECK]
    on [measurement_sheets.customer_type] lets in),
    [calculateSquareFeet] throws the validation error whatever the
    dimensions, and the type is none of the engine's. *)
Theorem customer_types_disjoint (s : string) (length breadth : argument) :
  In s validCustomerTypes ->
  throws_validation (calculateSquareFeet length breadth (Some s))
  /\ ~ In s CUSTOMER_TYPES.values.
Proof.
  intros Hs. simpl in Hs.
  split.
  - apply customer_type_message.
    destruct Hs as [<- | [<- | [<- | [<- | [<- | []]]]]]; discriminate.
  - intros Hv. simpl in Hv.
    destruct Hs as [<- | [<- | [<- | [<- | [<- | []]]]]];
      destruct Hv as [Hv | [Hv | [Hv | [Hv | [Hv | []]]]]]; discriminate Hv.
Qed.

Lemma customer_types_disjoint_witness :
  throws_validation
    (calculateSquareFeet (Value (Fin 144)) (Value (Fin 144)) (Some "Retail"))
  /\ ~ In "Retail"%string CUSTOMER_TYPES.values.
Proof.
  apply (customer_types_disjoint "Retail"%string).
  left. reflexivity.
Defined.

(** ** The three validators of a dimension *)

(** X8.  The engine, the form helper [validatePositiveNumber] and the
    API middleware accept the same dimensions: each returns no message
    exactly when the value is present and [parseFloat] gives a finite
    number above 0 and at most 10,000 (10,000 itself passes all
    three, and what passes satisfies the [CHECK (length > 0)] of the
    table). *)
Theorem dimension_validators_agree (name : string) (a : argument) :
  (validatePositiveNumber a name = [] <-> validate_dimension name a = [])
  /\ (validateSlabEntryData_dimension name a = []
      <-> validate_dimension name a = [])
  /\ (validate_dimension name a = []
      <-> exists q, a = Value (Fin q) /\ 0 < q /\ q <= 10000).
Proof.
  split; [| split].
  - unfold validatePositiveNumber, validate_dimension.
    destruct (is_missing a); [split; discriminate |].
    destruct (isNaN (parseFloat a)); [split; discriminate |].
    destruct (le (parseFloat a) (Fin 0)); [split; discriminate |].
    destruct (gt (parseFloat a) (Fin 10000)); [split; discriminate |].
    split; reflexivity.
  - unfold validateSlabEntryData_dimension, validate_dimension.
    destruct a as [| | | parsed];
      try (split; intros H; vm_compute in H; discriminate H).
    cbn [is_null_or_undefined is_missing parseFloat].
    destruct (isNaN parsed); [split; discriminate |].
    destruct (le parsed (Fin 0)); [split; discriminate |].
    destruct (gt parsed (Fin 10000)); [split; discriminate |].
    split; reflexivity.
  - split; [apply validate_dimension_nil |].
    intros [q [-> [H0 H1]]].
    pose proof (validate_dimension_length name (Value (Fin q))) as L.
    unfold dimension_valid in L.
    apply Qltb_true in H0. apply Qle_bool_iff in H1.
    rewrite H0, H1 in L.
    destruct (validate_dimension name (Value (Fin q))); [reflexivity | discriminate].
Qed.

(** ** Whole inches *)

(** An adjuster on a whole number of inches. *)
Lemma adjuster_on_integer (z k : Z) :
  exists a : Q,
    (if lt (of_Z z) (Fin (inject_Z k)) then Fin 0
     else after_loop
            (divisibility_loop maxIterations
               (Fin (inject_Z z + - inject_Z k)) 0))
    = Fin a
    /\ a == inject_Z (3 * (Z.max 0 (z - k) / 3)).
Proof.
  unfold of_Z. simpl lt.
  destruct (Qltb (inject_Z z) (inject_Z k)) eqn:L.
  - apply Qltb_true in L. rewrite <- Zlt_Qlt in L.
    exists 0. split; [reflexivity |].
    rewrite Z.max_l by lia. reflexivity.
  - apply Qltb_false in L. rewrite <- Zle_Qle in L.
    destruct (adjuster_integer_value z k L) as [q' [E Hq']].
    exists q'. split; [exact E |]. rewrite Hq'.
    rewrite Z.max_r by lia.
    pose proof (Z.div_mod (z - k) 3 ltac:(lia)) as D.
    replace ((z - k) - (z - k) mod 3)%Z with (3 * ((z - k) / 3))%Z by lia.
    reflexivity.
Qed.

Lemma adjusters_monotone_on_integers (z1 z2 : Z) :
  (z1 <= z2)%Z ->
  exists a1 a2 b1 b2 : Q,
    processLengthForDivisibility (of_Z z1) = Fin a1
    /\ processLengthForDivisibility (of_Z z2) = Fin a2
    /\ processBreadthForDivisibility (of_Z z1) = Fin b1
    /\ processBreadthForDivisibility (of_Z z2) = Fin b2
    /\ 0 <= a1 /\ a1 <= a2 /\ 0 <= b1 /\ b1 <= b2.
Proof.
  intros H.
  destruct (adjuster_on_integer z1 3) as [a1 [Ea1 Ha1]].
  destruct (adjuster_on_integer z2 3) as [a2 [Ea2 Ha2]].
  destruct (adjuster_on_integer z1 2) as [b1 [Eb1 Hb1]].
  destruct (adjuster_on_integer z2 2) as [b2 [Eb2 Hb2]].
  exists a1, a2, b1, b2.
  rewrite !processLength_unfold, !processBreadth_unfold.
  split; [exact Ea1 |]. split; [exact Ea2 |].
  split; [exact Eb1 |]. split; [exact Eb2 |].
  assert (M : forall k, (0 <= 3 * (Z.max 0 (z1 - k) / 3)
                         <= 3 * (Z.max 0 (z2 - k) / 3))%Z).
  { intros k. split.
    - apply Z.mul_nonneg_nonneg; [lia |]. apply Z.div_pos; lia.
    - apply Z.mul_le_mono_nonneg_l; [lia |]. apply Z.div_le_mono; lia. }
  rewrite Ha1, Ha2, Hb1, Hb2.
  change 0 with (inject_Z 0). rewrite <- !Zle_Qle.
  destruct (M 3%Z) as [M1 M2]. destruct (M 2%Z) as [M3 M4].
  repeat split; assumption.
Qed.

Lemma exporters_monotone (q1 q2 k : Q) :
  q1 <= q2 ->
  exists e1 e2 : Q,
    Math_max (Fin (q1 + - k)) (Fin 0) = Fin e1
    /\ Math_max (Fin (q2 + - k)) (Fin 0) = Fin e2
    /\ 0 <= e1 /\ e1 <= e2.
Proof.
  intros H. unfold Math_max. simpl lt.
  destruct (Qltb (q1 + - k) 0) eqn:L1; destruct (Qltb (q2 + - k) 0) eqn:L2;
    try apply Qltb_true in L1; try apply Qltb_false in L1;
    try apply Qltb_true in L2; try apply Qltb_false in L2.
  - exists 0, 0. repeat split; try reflexivity; lra.
  - exists 0, (q2 + - k). repeat split; try reflexivity; lra.
  - exfalso. lra.
  - exists (q1 + - k), (q2 + - k). repeat split; try reflexivity; lra.
Qed.

(** X24.  On whole numbers of inches that pass validation (at most
    10,000) every strategy is monotone: a slab that is at least as
    long and at least as broad never has a smaller area.  (Off the
    whole numbers this fails for the strategies with a divisibility
    adjustment, which give 0 for a dimension such as 144.5; the bound
    keeps the subtractions and products exact in doubles.) *)
Theorem area_monotone_on_whole_inches (l1 l2 b1 b2 : Z) :
  (0 < l1 <= l2)%Z -> (l2 <= 10000)%Z ->
  (0 < b1 <= b2)%Z -> (b2 <= 10000)%Z ->
  area_le (calculateRetail (of_Z l1) (of_Z b1))
    (calculateRetail (of_Z l2) (of_Z b2))
  /\ area_le (calculateGraniteShops (of_Z l1) (of_Z b1))
       (calculateGraniteShops (of_Z l2) (of_Z b2))
  /\ area_le (calculateBuilders (of_Z l1) (of_Z b1))
       (calculateBuilders (of_Z l2) (of_Z b2))
  /\ area_le (calculateExporters (of_Z l1) (of_Z b1))
       (calculateExporters (of_Z l2) (of_Z b2))
  /\ area_le (calculateOutstationParties (of_Z l1) (of_Z b1))
       (calculateOutstationParties (of_Z l2) (of_Z b2)).
Proof.
  intros [Hl0 Hl] _ [Hb0 Hb] _.
  assert (Ql0 : 0 <= inject_Z l1)
    by (change 0 with (inject_Z 0); rewrite <- Zle_Qle; lia).
  assert (Ql : inject_Z l1 <= inject_Z l2) by (rewrite <- Zle_Qle; exact Hl).
  assert (Qb0 : 0 <= inject_Z b1)
    by (change 0 with (inject_Z 0); rewrite <- Zle_Qle; lia).
  assert (Qb : inject_Z b1 <= inject_Z b2) by (rewrite <- Zle_Qle; exact Hb).
  destruct (adjusters_monotone_on_integers l1 l2 Hl)
    as [a1 [a2 [_ [_ [Ea1 [Ea2 [_ [_ [A0 [A _]]]]]]]]]].
  destruct (adjusters_monotone_on_integers b1 b2 Hb)
    as [_ [_ [c1 [c2 [_ [_ [Ec1 [Ec2 [_ [_ [C0 C]]]]]]]]]]].
  destruct (exporters_monotone (inject_Z l1) (inject_Z l2) 3 Ql)
    as [e1 [e2 [Ee1 [Ee2 [E0 E]]]]].
  destruct (exporters_monotone (inject_Z b1) (inject_Z b2) 2 Qb)
    as [f1 [f2 [Ef1 [Ef2 [F0 F]]]]].
  assert (G : area_le (calculateGraniteShops (of_Z l1) (of_Z b1))
                (calculateGraniteShops (of_Z l2) (of_Z b2))).
  { rewrite (calculateGraniteShops_area (of_Z l1)),
      (calculateGraniteShops_area (of_Z l2)), Ea1, Ea2, Ec1, Ec2.
    apply area_result_le; assumption. }
  split; [| split; [exact G | split; [| split; [| exact G]]]].
  - rewrite (calculateRetail_area (of_Z l1)), (calculateRetail_area (of_Z l2)).
    unfold of_Z. apply area_result_le; assumption.
  - rewrite (calculateBuilders_area (of_Z l1)),
      (calculateBuilders_area (of_Z l2)), Ea1, Ea2. unfold of_Z.
    apply area_result_le; assumption.
  - rewrite (calculateExporters_area (of_Z l1)),
      (calculateExporters_area (of_Z l2)). unfold of_Z.
    change (sub (Fin (inject_Z l1)) (Fin 3)) with (Fin (inject_Z l1 + - (3))).
    change (sub (Fin (inject_Z l2)) (Fin 3)) with (Fin (inject_Z l2 + - (3))).
    change (sub (Fin (inject_Z b1)) (Fin 2)) with (Fin (inject_Z b1 + - (2))).
    change (sub (Fin (inject_Z b2)) (Fin 2)) with (Fin (inject_Z b2 + - (2))).
    rewrite Ee1, Ee2, Ef1, Ef2. apply area_result_le; assumption.
Qed.

Lemma area_monotone_on_whole_inches_witness :
  area_le (calculateRetail (of_Z 100) (of_Z 50))
    (calculateRetail (of_Z 144) (of_Z 144))
  /\ area_le (calculateGraniteShops (of_Z 100) (of_Z 50))
       (calculateGraniteShops (of_Z 144) (of_Z 144))
  /\ area_le (calculateBuilders (of_Z 100) (of_Z 50))
       (calculateBuilders (of_Z 144) (of_Z 144))
  /\ area_le (calculateExporters (of_Z 100) (of_Z 50))
       (calculateExporters (of_Z 144) (of_Z 144))
  /\ area_le (calculateOutstationParties (of_Z 100) (of_Z 50))
       (calculateOutstationParties (of_Z 144) (of_Z 144)).
Proof.
  apply (area_monotone_on_whole_inches 100 144 50 144); lia.
Defined.

End EngineExtras.

(** * Properties of the cache on a working server *)

Module CacheExtras.

Import Stdlib.Strings.Ascii.
Import Cache Redis CacheProperties.

(** ** Reconnection *)

(** X10.  When [retry_strategy] asks for another attempt, the delay is
    [attempt * 100] milliseconds and at most one second: the cap of
    3000 in [Math.min] is never the smaller value, since the eleventh
    attempt already stops. *)
Theorem retry_delay_never_capped (options : retry_options) (delay : Z) :
  retry_strategy options = RetryAfter delay ->
  delay = (attempt options * 100)%Z
  /\ (delay <= 1000)%Z
  /\ (attempt options <= 10)%Z
  /\ (total_retry_time options <= 3600000)%Z
  /\ error_code options <> Some "ECONNREFUSED"%string.
Proof.
  unfold retry_strategy. intros H.
  destruct (error_code options) as [code |] eqn:Ecode.
  - destruct (String.eqb_spec code "ECONNREFUSED") as [-> | Hne];
      [discriminate |].
    destruct (Z.ltb_spec (1000 * 60 * 60) (total_retry_time options));
      [discriminate |].
    destruct (Z.ltb_spec 10 (attempt options)); [discriminate |].
    injection H as <-.
    repeat split; try lia. intros E. injection E as E. contradiction.
  - destruct (Z.ltb_spec (1000 * 60 * 60) (total_retry_time options));
      [discriminate |].
    destruct (Z.ltb_spec 10 (attempt options)); [discriminate |].
    injection H as <-.
    repeat split; try lia. discriminate.
Qed.

Lemma retry_delay_never_capped_witness :
  700%Z = (attempt (mkOptions None 5000 7) * 100)%Z
  /\ (700 <= 1000)%Z
  /\ (attempt (mkOptions None 5000 7) <= 10)%Z
  /\ (total_retry_time (mkOptions None 5000 7) <= 3600000)%Z
  /\ error_code (mkOptions None 5000 7) <> Some "ECONNREFUSED"%string.
Proof.
  apply (retry_delay_never_capped (mkOptions None 5000 7) 700).
  reflexivity.
Defined.

(** ** Key patterns *)

Lemma glob_star (key : string) : glob "*" key = true.
Proof.
  induction key as [| c key IH]; [reflexivity |].
  simpl in *. exact IH.
Qed.

(** A pattern made of a plain prefix and a final [*] matches the keys
    that begin with the prefix. *)
Lemma glob_prefix (prefix key : string) :
  plain prefix = true ->
  glob (prefix ++ "*") key = String.prefix prefix key.
Proof.
  revert key. induction prefix as [| c prefix IH]; intros key H.
  - rewrite glob_star. destruct key; reflexivity.
  - simpl in H. apply andb_true_iff in H as [H Hp].
    unfold literal in H. apply andb_true_iff in H as [H _].
    apply andb_true_iff in H as [H _].
    apply andb_true_iff in H as [Hs Hq].
    apply negb_true_iff in Hs, Hq.
    change ((String c prefix ++ "*")%string)
      with (String c (prefix ++ "*")%string).
    cbn [glob]. rewrite Hs. destruct key as [| c' key]; [reflexivity |].
    rewrite Hq. cbn [orb String.prefix].
    destruct (Ascii.eqb_spec c c') as [-> | Hne].
    + destruct (ascii_dec c' c') as [_ | Hn]; [| contradiction].
      apply IH, Hp.
    + destruct (ascii_dec c c') as [He | _]; [contradiction | reflexivity].
Qed.

(** ** The helper on a server that works *)

Section WorkingServer.

Context {value : Type} {json : JSON value}.
Variable pattern_matches : string -> string -> bool.
Variable REDIS_HOST : option string.
Hypothesis configured : not_configured REDIS_HOST = false.

Lemma server_set (key text : string) (v : value) (ttl : Z)
  (store : gmap string string) :
  JSON_stringify v = Ok text ->
  valid_expire ttl = true ->
  set (client := server pattern_matches) REDIS_HOST key v ttl store
  = (<[key := text]> store, Ok true).
Proof.
  intros H Httl. unfold set, try_catch, bind, pure_call. rewrite configured, H.
  simpl. rewrite Httl. reflexivity.
Qed.

(** With a time to live of 0 or less the server refuses [SETEX]:
    [set] returns [false] and stores nothing. *)
Lemma server_set_refused (key : string) (v : value) (ttl : Z)
  (store : gmap string string) :
  valid_expire ttl = false ->
  set (client := server pattern_matches) REDIS_HOST key v ttl store
  = (store, Ok false).
Proof.
  intros Httl. unfold set, try_catch, bind, pure_call. rewrite configured.
  destruct (JSON_stringify v) as [text |]; simpl; [| reflexivity].
  rewrite Httl. reflexivity.
Qed.

Lemma server_get (key : string) (store : gmap string string) :
  get (client := server pattern_matches) REDIS_HOST key store
  = (store,
     Ok match store !! key with
        | None => None
        | Some text =>
            if String.eqb text "" then None
            else match JSON_parse text with
                 | Ok v => Some v
                 | Fails => None
                 end
        end).
Proof.
  unfold get, try_catch, bind, pure_call. rewrite configured. simpl.
  destruct (store !! key) as [text |]; [| reflexivity].
  destruct (String.eqb text ""); [reflexivity |].
  destruct (JSON_parse text); reflexivity.
Qed.

Lemma server_del (key : string) (store : gmap string string) :
  del (client := server pattern_matches) REDIS_HOST key store
  = (delete key store, Ok true).
Proof.
  unfold del, try_catch, bind. rewrite configured. reflexivity.
Qed.

Lemma server_clearPattern (pattern : string) (store : gmap string string) :
  clearPattern (client := server pattern_matches) REDIS_HOST pattern store
  = (foldr delete store (matching pattern_matches pattern store), Ok true).
Proof.
  unfold clearPattern, try_catch, bind. rewrite configured. simpl.
  destruct (matching pattern_matches pattern store); reflexivity.
Qed.

Lemma lookup_foldr_delete (keys : list string) (store : gmap string string)
  (key : string) :
  foldr delete store keys !! key
  = if bool_decide (key ∈ keys) then None else store !! key.
Proof.
  induction keys as [| k keys IH]; simpl.
  - reflexivity.
  - destruct (decide (k = key)) as [-> | Hne].
    + rewrite lookup_delete_eq.
      rewrite bool_decide_eq_true_2; [reflexivity | left].
    + rewrite lookup_delete_ne by exact Hne. rewrite IH.
      destruct (bool_decide (key ∈ keys)) eqn:E.
      * apply bool_decide_eq_true_1 in E.
        rewrite bool_decide_eq_true_2; [reflexivity | right; exact E].
      * apply bool_decide_eq_false_1 in E.
        rewrite bool_decide_eq_false_2; [reflexivity |].
        intros Hin. apply elem_of_cons in Hin as [-> | Hin]; contradiction.
Qed.

Lemma elem_of_matching (pattern key : string) (store : gmap string string) :
  key ∈ matching pattern_matches pattern store
  <-> pattern_matches pattern key = true /\ is_Some (store !! key).
Proof.
  unfold matching. rewrite list_elem_of_In, filter_In, in_map_iff. split.
  - intros [[[k text] [Hk Hin]] Hm]. simpl in Hk. subst k.
    split; [exact Hm |].
    apply list_elem_of_In, elem_of_map_to_list in Hin. eauto.
  - intros [Hm [text Hl]]. split; [| exact Hm].
    exists (key, text). split; [reflexivity |].
    apply list_elem_of_In, elem_of_map_to_list. exact Hl.
Qed.

Lemma lookup_cleared (pattern key : string) (store : gmap string string) :
  foldr delete store (matching pattern_matches pattern store) !! key
  = if pattern_matches pattern key then None else store !! key.
Proof.
  rewrite lookup_foldr_delete.
  destruct (bool_decide (key ∈ matching pattern_matches pattern store)) eqn:E.
  - apply bool_decide_eq_true_1, elem_of_matching in E as [-> _]. reflexivity.
  - apply bool_decide_eq_false_1 in E.
    destruct (pattern_matches pattern key) eqn:Em; [| reflexivity].
    destruct (store !! key) as [text |] eqn:El; [| reflexivity].
    exfalso. apply E, elem_of_matching. eauto.
Qed.

End WorkingServer.

(** X11.  With a configured host, a server that works and a time to
    live of at least one second, a value whose JSON text is not empty
    and parses back to it is returned by [get] after [set] (while the
    entry has not expired), the other keys read as before; after [del]
    of the key [get] returns [null] again.  (With the empty text [get]
    returns [null]: the text is tested for truthiness before it is
    parsed.)  With a time to live of 0 or less the server refuses the
    command: [set] returns [false] and the store is as it was. *)
Theorem set_then_get_round_trip {value : Type} (json : JSON value)
  (pattern_matches : string -> string -> bool) (REDIS_HOST : option string)
  (key other text : string) (v : value) (ttl : Z)
  (store : gmap string string) :
  not_configured REDIS_HOST = false ->
  JSON_stringify v = Ok text ->
  JSON_parse text = Ok v ->
  (0 < ttl <= 2147483647)%Z ->
  (exists stored : gmap string string,
     set (client := server pattern_matches) REDIS_HOST key v ttl store
     = (stored, Ok true)
     /\ get (client := server pattern_matches) REDIS_HOST other stored
        = (stored,
           if String.eqb other key
           then Ok (if String.eqb text "" then None else Some v)
           else snd (get (client := server pattern_matches) (value := value)
                       REDIS_HOST other store))
     /\ exists deleted : gmap string string,
          del (client := server pattern_matches) REDIS_HOST key stored
          = (deleted, Ok true)
          /\ get (client := server pattern_matches) (value := value)
               REDIS_HOST key deleted
             = (deleted, Ok None))
  /\ (forall refused : Z,
        (refused <= 0)%Z ->
        set (client := server pattern_matches) REDIS_HOST key v refused store
        = (store, Ok false)).
Proof.
  intros Hc Hs Hp Httl.
  assert (Hv : valid_expire ttl = true).
  { unfold valid_expire. apply andb_true_iff. split;
      [apply Z.ltb_lt | apply Z.leb_le]; lia. }
  split.
  - exists (<[key := text]> store).
    split; [apply server_set; assumption |].
    split.
    + destruct (String.eqb_spec other key) as [-> | Hne].
      * rewrite (server_get _ _ Hc). rewrite lookup_insert_eq, Hp. reflexivity.
      * rewrite !(server_get _ _ Hc).
        rewrite lookup_insert_ne by congruence. reflexivity.
    + exists (delete key (<[key := text]> store)).
      split; [apply server_del; assumption |].
      rewrite (server_get _ _ Hc), lookup_delete_eq. reflexivity.
  - intros refused Hr. apply server_set_refused; [exact Hc |].
    unfold valid_expire. apply andb_false_iff. left. apply Z.ltb_ge. exact Hr.
Qed.

Lemma set_then_get_round_trip_witness :
  (exists stored : gmap string string,
     set (client := server Redis.glob) (json := Example.text_json)
       (Some "localhost"%string) "k" "{}"%string 3600 Example.store
     = (stored, Ok true)
     /\ get (client := server Redis.glob) (json := Example.text_json)
          (Some "localhost"%string) "k" stored
        = (stored,
           if String.eqb "k" "k"
           then Ok (if String.eqb "{}" "" then None else Some "{}"%string)
           else snd (get (client := server Redis.glob)
                       (json := Example.text_json)
                       (Some "localhost"%string) "k" Example.store))
     /\ exists deleted : gmap string string,
          del (client := server Redis.glob) (Some "localhost"%string) "k" stored
          = (deleted, Ok true)
          /\ get (client := server Redis.glob) (json := Example.text_json)
               (Some "localhost"%string) "k" deleted
             = (deleted, Ok None))
  /\ (forall refused : Z,
        (refused <= 0)%Z ->
        set (client := server Redis.glob) (json := Example.text_json)
          (Some "localhost"%string) "k" "{}"%string refused Example.store
        = (Example.store, Ok false)).
Proof.
  apply (set_then_get_round_trip Example.text_json Redis.glob
           (Some "localhost"%string) "k" "k" "{}" "{}"%string 3600
           Example.store);
    try reflexivity.
  lia.
Defined.

(** X12.  With a configured host and a server that works,
    [clearPattern] with a prefix of literal characters (none of [*],
    [?], the opening bracket and the backslash) followed by [*]
    returns [true] and removes exactly the keys that begin with the
    prefix: every other key keeps its value. *)
Theorem clearPattern_removes_prefix (REDIS_HOST : option string)
  (prefix : string) (store : gmap string string) :
  not_configured REDIS_HOST = false ->
  plain prefix = true ->
  exists cleared : gmap string string,
    clearPattern (client := server glob) REDIS_HOST (prefix ++ "*") store
    = (cleared, Ok true)
    /\ forall key : string,
         cleared !! key
         = if String.prefix prefix key then None else store !! key.
Proof.
  intros Hc Hp.
  exists (foldr delete store (matching glob (prefix ++ "*") store)).
  split; [apply server_clearPattern; exact Hc |].
  intros key. rewrite lookup_cleared, (glob_prefix prefix key Hp). reflexivity.
Qed.

Lemma clearPattern_removes_prefix_witness :
  exists cleared : gmap string string,
    clearPattern (client := server glob) (Some "localhost"%string)
      ("measurement_sheet_full:" ++ "*") Example.store
    = (cleared, Ok true)
    /\ forall key : string,
         cleared !! key
         = if String.prefix "measurement_sheet_full:" key then None
           else Example.store !! key.
Proof.
  apply (clearPattern_removes_prefix (Some "localhost"%string)
           "measurement_sheet_full:" Example.store);
    reflexivity.
Defined.

End CacheExtras.

(** * Properties of the measurement-sheet model and its cache entries *)

Module SheetsProperties.

Import Cache Redis Sheets CacheProperties.
Local Open Scope string_scope.

(** X13.  [MeasurementSheet.create] rejects whatever it is given and
    whatever the database holds: its [try] block reads
    [measurementSheetData] before the block's own declaration of that
    name has run.  After a successful [pool.connect()] it sends [BEGIN]
    and [ROLLBACK] and releases the client; no customer is looked up,
    no sheet inserted, and the cache is left alone. *)
Theorem create_always_rejects
  (to_string : jsvalue -> string) (parseFloat_text : string -> JS.number)
  {pg redis : Type} (pool : Pool pg) (client : RedisClient redis)
  (json : JSON object) (REDIS_HOST : option string)
  (measurementSheetData : object) (d : pg) (r : redis) :
  create to_string parseFloat_text REDIS_HOST measurementSheetData (d, r)
  = match pool_connect d with
    | (d1, Fails) => ((d1, r), Fails)
    | (d1, Ok _) =>
        let d2 := fst (client_query BEGIN [] d1) in
        let d3 := fst (client_query ROLLBACK [] d2) in
        ((client_release d3, r), Fails)
    end.
Proof.
  unfold create, bind, finally, catch_rethrow, on_db, read, throw. simpl.
  destruct (pool_connect d) as [d1 [[] |]]; [| reflexivity]. simpl.
  destruct (client_query BEGIN [] d1) as [d2 [rows |]]; simpl;
    destruct (client_query ROLLBACK [] d2) as [d3 [x |]]; reflexivity.
Qed.

(** ** Keys *)


Lemma plain_app (p q : string) :
  plain p = true -> plain q = true -> plain (p ++ q) = true.
Proof.
  intros Hp Hq. induction p as [| c p IH]; [exact Hq |].
  simpl in *. apply andb_true_iff in Hp as [Hc Hp].
  rewrite Hc. simpl. apply IH, Hp.
Qed.

Lemma append_assoc (a b c : string) : ((a ++ b) ++ c = a ++ (b ++ c))%string.
Proof.
  induction a as [| x a IH]; [reflexivity |].
  change (String x ((a ++ b) ++ c) = String x (a ++ (b ++ c))).
  rewrite IH. reflexivity.
Qed.

Section Working.

Variable to_string : jsvalue -> string.
Variable parseFloat_text : string -> JS.number.
Context {pg : Type} {pool : Pool pg} {json : JSON object}.
Variable REDIS_HOST : option string.
Hypothesis configured : not_configured REDIS_HOST = false.

Lemma sheet_key_not_full (id : jsvalue) :
  sheet_key to_string id <> full_sheet_key to_string id.
Proof. unfold sheet_key, full_sheet_key. simpl. discriminate. Qed.

(** What the cache calls of [SlabEntry.create] leave in the store. *)
Lemma clear_after_create_lookup (sid : jsvalue) (store : gmap string string)
  (key : string) :
  fst (clear_after_create (client := server glob) to_string REDIS_HOST sid
         store) !! key
  = if String.prefix "slab_entries:" key then None
    else if String.prefix "measurement_sheets:" key then None
    else if String.eqb key (full_sheet_key to_string sid) then None
    else store !! key.
Proof.
  unfold clear_after_create, bind.
  rewrite (CacheExtras.server_del glob REDIS_HOST configured).
  rewrite (CacheExtras.server_clearPattern glob REDIS_HOST configured).
  rewrite (CacheExtras.server_clearPattern glob REDIS_HOST configured).
  simpl fst. rewrite !CacheExtras.lookup_cleared.
  change "slab_entries:*" with ("slab_entries:" ++ "*").
  change "measurement_sheets:*" with ("measurement_sheets:" ++ "*").
  rewrite (CacheExtras.glob_prefix "slab_entries:" key eq_refl).
  rewrite (CacheExtras.glob_prefix "measurement_sheets:" key eq_refl).
  destruct (String.prefix "slab_entries:" key); [reflexivity |].
  destruct (String.prefix "measurement_sheets:" key); [reflexivity |].
  destruct (String.eqb_spec key (full_sheet_key to_string sid)) as [-> | Hne].
  - apply lookup_delete_eq.
  - apply lookup_delete_ne. congruence.
Qed.

(** ... and those of [slabEntry.update] and [slabEntry.delete]. *)
Lemma clear_after_change_lookup (sid : jsvalue) (store : gmap string string)
  (key : string) :
  plain (to_string sid) = true ->
  fst (clear_after_change (client := server glob) to_string REDIS_HOST sid
         store) !! key
  = if String.prefix ("slab_entries:sheet:" ++ to_string sid ++ ":") key
    then None
    else if String.prefix "measurement_sheets:" key then None
    else if String.eqb key (full_sheet_key to_string sid) then None
    else store !! key.
Proof.
  intros Hp. unfold clear_after_change, bind.
  rewrite (CacheExtras.server_del glob REDIS_HOST configured).
  rewrite (CacheExtras.server_clearPattern glob REDIS_HOST configured).
  rewrite (CacheExtras.server_clearPattern glob REDIS_HOST configured).
  simpl fst. rewrite !CacheExtras.lookup_cleared.
  assert (E : "slab_entries:sheet:" ++ to_string sid ++ ":*"
              = ("slab_entries:sheet:" ++ to_string sid ++ ":") ++ "*").
  { rewrite !append_assoc. reflexivity. }
  rewrite E.
  rewrite (CacheExtras.glob_prefix ("slab_entries:sheet:" ++ to_string sid ++ ":") key).
  2:{ apply (plain_app "slab_entries:sheet:"); [reflexivity |].
      apply plain_app; [exact Hp | reflexivity]. }
  change "measurement_sheets:*" with ("measurement_sheets:" ++ "*").
  rewrite (CacheExtras.glob_prefix "measurement_sheets:" key eq_refl).
  destruct (String.prefix ("slab_entries:sheet:" ++ to_string sid ++ ":") key);
    [reflexivity |].
  destruct (String.prefix "measurement_sheets:" key); [reflexivity |].
  destruct (String.eqb_spec key (full_sheet_key to_string sid)) as [-> | Hne].
  - apply lookup_delete_eq.
  - apply lookup_delete_ne. congruence.
Qed.

(** [findById] on a cache entry: the database is not asked. *)
Lemma findById_hit (id : jsvalue) (includeSlabEntries : bool)
  (text : string) (cached : object) (d : pg) (store : gmap string string) :
  store !! (if includeSlabEntries then full_sheet_key to_string id
            else sheet_key to_string id) = Some text ->
  text <> "" ->
  JSON_parse text = Ok cached ->
  findById (client := server glob) to_string parseFloat_text REDIS_HOST id
    includeSlabEntries (d, store)
  = ((d, store), Ok (Some (new_MeasurementSheet parseFloat_text cached))).
Proof.
  intros Hl Ht Hp. unfold findById, bind, on_cache. simpl snd.
  rewrite (CacheExtras.server_get glob REDIS_HOST configured), Hl.
  destruct (String.eqb_spec text "") as [-> | _]; [contradiction |].
  rewrite Hp. reflexivity.
Qed.

(** [findById] without a cache entry, on a database that has the
    sheet: the row is read, cached and returned. *)
Lemma findById_miss (id : jsvalue) (text : string) (row : object)
  (rest : list object) (d d1 d2 : pg) (store : gmap string string) :
  store !! sheet_key to_string id = None ->
  pool_connect d = (d1, Ok tt) ->
  client_query SELECT_sheet_with_customer [id] d1 = (d2, Ok (row :: rest)) ->
  JSON_stringify row = Ok text ->
  findById (client := server glob) to_string parseFloat_text REDIS_HOST id
    false (d, store)
  = ((client_release d2, <[sheet_key to_string id := text]> store),
     Ok (Some (new_MeasurementSheet parseFloat_text row))).
Proof.
  intros Hl Hc Hq Hs. unfold findById, bind, on_cache, on_db, finally. simpl snd.
  rewrite (CacheExtras.server_get glob REDIS_HOST configured), Hl.
  simpl. rewrite Hc. simpl. rewrite Hq. simpl.
  rewrite (CacheExtras.server_set glob REDIS_HOST configured _ text _ _ _ Hs)
    by reflexivity.
  reflexivity.
Qed.

(** [update], when it resolves, has stored the text of the instance
    under the basic key of the sheet. *)
Lemma update_caches_instance (this this' : MeasurementSheet)
  (updateData : object) (text : string) (d d' : pg)
  (store store' : gmap string string) :
  update (client := server glob) to_string REDIS_HOST this updateData
    (d, store)
  = ((d', store'), Ok this') ->
  JSON_stringify (toJSON this') = Ok text ->
  id this' = id this
  /\ store' !! sheet_key to_string (id this) = Some text.
Proof.
  unfold update, bind, finally, on_db, on_cache, throw. simpl fst. simpl snd.
  destruct (pool_connect d) as [d1 [[] |]]; cbv beta iota; cbn [fst snd];
    [| discriminate].
  destruct (truthy (prop updateData "status")
            && negb (is_one_of ["draft"; "completed"] (prop updateData "status")));
    cbv beta iota; cbn [fst snd]; [discriminate |].
  destruct (client_query UPDATE_status [prop updateData "status"; id this] d1)
    as [d2 [[| updatedData rows] |]]; cbv beta iota; cbn [fst snd];
    [discriminate | | discriminate].
  cbn [id fst snd].
  set (updated := {| id := id this;
                     measurementSheetNumber := measurementSheetNumber this;
                     customerId := customerId this;
                     customerType := customerType this;
                     totalSquareFeet := totalSquareFeet this;
                     status := prop updatedData "status";
                     createdAt := createdAt this;
                     updatedAt := prop updatedData "updated_at";
                     customerName := customerName this;
                     customerPhone := customerPhone this;
                     customerEmail := customerEmail this;
                     customerAddress := customerAddress this;
                     slabEntries := slabEntries this |}).
  destruct (JSON_stringify (toJSON updated)) as [text0 |] eqn:Es.
  - rewrite (CacheExtras.server_set glob REDIS_HOST configured _ text0 _ _ _ Es)
      by reflexivity.
    cbn [fst snd].
    rewrite (CacheExtras.server_del glob REDIS_HOST configured).
    cbn [fst snd].
    rewrite (CacheExtras.server_clearPattern glob REDIS_HOST configured).
    cbn [fst snd]. intros E Hs. injection E as _ <- <-.
    rewrite Es in Hs. injection Hs as ->.
    split; [reflexivity |].
    rewrite CacheExtras.lookup_cleared.
    change "measurement_sheets:*" with ("measurement_sheets:" ++ "*").
    rewrite (CacheExtras.glob_prefix "measurement_sheets:" _ eq_refl).
    change (String.prefix "measurement_sheets:" (sheet_key to_string (id this)))
      with false.
    rewrite lookup_delete_ne by (apply not_eq_sym, sheet_key_not_full).
    apply lookup_insert_eq.
  - rewrite (set_stringify_fails REDIS_HOST _ _ _ _ configured Es).
    cbn [fst snd].
    rewrite (CacheExtras.server_del glob REDIS_HOST configured).
    cbn [fst snd].
    rewrite (CacheExtras.server_clearPattern glob REDIS_HOST configured).
    cbn [fst snd]. intros E Hs. injection E as _ _ <-.
    rewrite Es in Hs. discriminate.
Qed.

End Working.

(** X14.  With a configured host and a Redis server that works: when
    [update] has resolved, [findById] of the sheet answers from the
    cache entry [update] wrote, without asking the database.  That
    entry is the text of the instance, whose properties have the names
    of the class, while the constructor reads the names of the columns:
    the sheet [findById] returns has no number, no customer, no
    customer type and no dates, and a total of 0. *)
Theorem findById_after_update_loses_fields
  (to_string : jsvalue -> string) (parseFloat_text : string -> JS.number)
  {pg : Type} (pool : Pool pg) (json : JSON object)
  (REDIS_HOST : option string)
  (this this' : MeasurementSheet) (updateData cached : object) (text : string)
  (d d' later : pg) (store store' : gmap string string) :
  not_configured REDIS_HOST = false ->
  update (client := server glob) to_string REDIS_HOST this updateData (d, store)
  = ((d', store'), Ok this') ->
  JSON_stringify (toJSON this') = Ok text ->
  text <> "" ->
  JSON_parse text = Ok cached ->
  read_back (toJSON this') cached ->
  exists found : MeasurementSheet,
    findById (client := server glob) to_string parseFloat_text REDIS_HOST
      (id this') false (later, store')
    = ((later, store'), Ok (Some found))
    /\ measurementSheetNumber found = Undefined
    /\ customerId found = Undefined
    /\ customerType found = Undefined
    /\ totalSquareFeet found = JS.Fin 0
    /\ createdAt found = Undefined
    /\ updatedAt found = Undefined
    /\ customerName found = Undefined.
Proof.
  intros Hc Hu Hs Ht Hp Hrb.
  destruct (update_caches_instance to_string REDIS_HOST Hc _ _ _ _ _ _ _ _ Hu Hs)
    as [Hid Hl].
  exists (new_MeasurementSheet parseFloat_text cached).
  split.
  - rewrite Hid.
    apply (findById_hit to_string parseFloat_text REDIS_HOST Hc (id this) false
             text cached later store' Hl Ht Hp).
  - pose proof (Hrb "measurement_sheet_number") as H1.
    pose proof (Hrb "customer_id") as H2.
    pose proof (Hrb "customer_type") as H3.
    pose proof (Hrb "total_square_feet") as H4.
    pose proof (Hrb "created_at") as H5.
    pose proof (Hrb "updated_at") as H6.
    pose proof (Hrb "customer_name") as H7.
    cbn in H1, H2, H3, H4, H5, H6, H7.
    unfold new_MeasurementSheet. cbn [measurementSheetNumber customerId
      customerType totalSquareFeet createdAt updatedAt customerName].
    rewrite H1, H2, H3, H4, H5, H6, H7. repeat split; reflexivity.
Qed.

Lemma example_read_back : read_back (toJSON Example.sheet) Example.parsed_sheet.
Proof.
  intros name. unfold Example.sheet, Example.parsed_sheet, Example.row.
  cbn -[String.eqb].
  repeat match goal with
         | |- context [String.eqb ?k name] =>
             destruct (String.eqb_spec k name) as [<- | _];
             [cbv; first [reflexivity | exact I] |]
         end.
  reflexivity.
Defined.

Lemma findById_after_update_loses_fields_witness :
  exists found : MeasurementSheet,
    findById (pool := Example.recording) (client := server glob)
      (json := Example.json) Example.text_of Example.number_of
      (Some "localhost") (id Example.sheet) false
      ([],
       snd (fst (update (pool := Example.recording) (client := server glob)
                   (json := Example.json) Example.text_of (Some "localhost")
                   Example.sheet [("status", Str "completed")] ([], ∅))))
    = (([],
        snd (fst (update (pool := Example.recording) (client := server glob)
                    (json := Example.json) Example.text_of (Some "localhost")
                    Example.sheet [("status", Str "completed")] ([], ∅)))),
       Ok (Some found))
    /\ measurementSheetNumber found = Undefined
    /\ customerId found = Undefined
    /\ customerType found = Undefined
    /\ totalSquareFeet found = JS.Fin 0
    /\ createdAt found = Undefined
    /\ updatedAt found = Undefined
    /\ customerName found = Undefined.
Proof.
  apply (findById_after_update_loses_fields Example.text_of Example.number_of
           Example.recording Example.json (Some "localhost")
           Example.sheet Example.sheet [("status", Str "completed")]
           Example.parsed_sheet "sheet" []
           (fst (fst (update (pool := Example.recording) (client := server glob)
                        (json := Example.json) Example.text_of (Some "localhost")
                        Example.sheet [("status", Str "completed")] ([], ∅))))
           [] ∅).
  - reflexivity.
  - vm_compute. reflexivity.
  - reflexivity.
  - discriminate.
  - reflexivity.
  - exact example_read_back.
Defined.

(** X15.  With a configured host and a Redis server that works: once
    [findById] has read a sheet from the database (and cached the row
    under the basic key), the cache calls of [SlabEntry.create] and
    [batchCreate], and those of [slabEntry.update] and [delete], for
    whatever sheet, leave that entry in place.  [findById] then still
    answers from the row it cached, total included, whatever the
    database holds by now. *)
Theorem sheet_entry_survives_slab_changes
  (to_string : jsvalue -> string) (parseFloat_text : string -> JS.number)
  {pg : Type} (pool : Pool pg) (json : JSON object)
  (REDIS_HOST : option string)
  (id sid : jsvalue) (row cached : object) (rest : list object) (text : string)
  (d d1 d2 later : pg) (store : gmap string string) :
  not_configured REDIS_HOST = false ->
  store !! sheet_key to_string id = None ->
  pool_connect d = (d1, Ok tt) ->
  client_query SELECT_sheet_with_customer [id] d1 = (d2, Ok (row :: rest)) ->
  JSON_stringify row = Ok text ->
  text <> "" ->
  JSON_parse text = Ok cached ->
  plain (to_string sid) = true ->
  exists store1 : gmap string string,
    findById (client := server glob) to_string parseFloat_text REDIS_HOST
      id false (d, store)
    = ((client_release d2, store1),
       Ok (Some (new_MeasurementSheet parseFloat_text row)))
    /\ findById (client := server glob) to_string parseFloat_text REDIS_HOST
         id false
         (later,
          fst (clear_after_create (client := server glob) to_string REDIS_HOST
                 sid store1))
       = ((later,
           fst (clear_after_create (client := server glob) to_string REDIS_HOST
                  sid store1)),
          Ok (Some (new_MeasurementSheet parseFloat_text cached)))
    /\ findById (client := server glob) to_string parseFloat_text REDIS_HOST
         id false
         (later,
          fst (clear_after_change (client := server glob) to_string REDIS_HOST
                 sid store1))
       = ((later,
           fst (clear_after_change (client := server glob) to_string REDIS_HOST
                  sid store1)),
          Ok (Some (new_MeasurementSheet parseFloat_text cached))).
Proof.
  intros Hc Hl Hcon Hq Hs Ht Hp Hplain.
  exists (<[sheet_key to_string id := text]> store).
  split; [| split].
  - apply (findById_miss to_string parseFloat_text REDIS_HOST Hc id text row
             rest d d1 d2 store Hl Hcon Hq Hs).
  - apply (findById_hit to_string parseFloat_text REDIS_HOST Hc id false text
             cached later); [| exact Ht | exact Hp].
    cbv beta iota.
    rewrite (clear_after_create_lookup to_string REDIS_HOST Hc).
    change (String.prefix "slab_entries:" (sheet_key to_string id)) with false.
    change (String.prefix "measurement_sheets:" (sheet_key to_string id))
      with false.
    change (String.eqb (sheet_key to_string id) (full_sheet_key to_string sid))
      with false.
    cbv beta iota. apply lookup_insert_eq.
  - apply (findById_hit to_string parseFloat_text REDIS_HOST Hc id false text
             cached later); [| exact Ht | exact Hp].
    cbv beta iota.
    rewrite (clear_after_change_lookup to_string REDIS_HOST Hc _ _ _ Hplain).
    change (String.prefix ("slab_entries:sheet:" ++ to_string sid ++ ":")
              (sheet_key to_string id)) with false.
    change (String.prefix "measurement_sheets:" (sheet_key to_string id))
      with false.
    change (String.eqb (sheet_key to_string id) (full_sheet_key to_string sid))
      with false.
    cbv beta iota. apply lookup_insert_eq.
Qed.

Lemma sheet_entry_survives_slab_changes_witness :
  exists store1 : gmap string string,
    findById (pool := Example.recording) (client := server glob)
      (json := Example.json) Example.text_of Example.number_of
      (Some "localhost") (Str "7f3c") false ([], ∅)
    = ((@client_release _ Example.recording [SELECT_sheet_with_customer], store1),
       Ok (Some (new_MeasurementSheet Example.number_of Example.row)))
    /\ findById (pool := Example.recording) (client := server glob)
         (json := Example.json) Example.text_of Example.number_of
         (Some "localhost") (Str "7f3c") false
         ([],
          fst (clear_after_create (client := server glob) Example.text_of
                 (Some "localhost") (Str "7f3c") store1))
       = (([],
           fst (clear_after_create (client := server glob) Example.text_of
                  (Some "localhost") (Str "7f3c") store1)),
          Ok (Some (new_MeasurementSheet Example.number_of Example.row)))
    /\ findById (pool := Example.recording) (client := server glob)
         (json := Example.json) Example.text_of Example.number_of
         (Some "localhost") (Str "7f3c") false
         ([],
          fst (clear_after_change (client := server glob) Example.text_of
                 (Some "localhost") (Str "7f3c") store1))
       = (([],
           fst (clear_after_change (client := server glob) Example.text_of
                  (Some "localhost") (Str "7f3c") store1)),
          Ok (Some (new_MeasurementSheet Example.number_of Example.row))).
Proof.
  apply (sheet_entry_survives_slab_changes Example.text_of Example.number_of
           Example.recording Example.json (Some "localhost")
           (Str "7f3c") (Str "7f3c") Example.row Example.row [] "row"
           [] [] [SELECT_sheet_with_customer] [] ∅).
  - reflexivity.
  - reflexivity.
  - reflexivity.
  - reflexivity.
  - reflexivity.
  - discriminate.
  - reflexivity.
  - reflexivity.
Defined.

(** ** What the cache calls of the slab entries do remove *)




End SheetsProperties.

(** * More properties of the slab entries *)

Module PersistenceExtras.

Import Persistence Queries PersistenceProperties.

(** ** Increasing serial numbers *)

Lemma increasing_app (l1 l2 : list Z) :
  increasing l1 -> increasing l2 ->
  (forall x y, In x l1 -> In y l2 -> (x < y)%Z) ->
  increasing (l1 ++ l2).
Proof.
  induction l1 as [| a l1 IH]; intros H1 H2 H; [exact H2 |].
  simpl in *. destruct H1 as [Ha H1]. split.
  - apply List.Forall_app. split; [exact Ha |].
    apply List.Forall_forall. intros y Hy. apply H; [left; reflexivity | exact Hy].
  - apply IH; [exact H1 | exact H2 |]. intros x y Hx Hy. apply H; [right |]; assumption.
Qed.

Lemma consecutive_above (n : nat) :
  forall first, Forall (Z.lt first) (consecutive first n).
Proof.
  induction n as [| n IH]; intros first; [constructor |].
  rewrite consecutive_S. constructor; [lia |].
  eapply List.Forall_impl; [| apply IH]. intros y Hy. simpl in Hy. lia.
Qed.

Lemma increasing_consecutive (n : nat) :
  forall first, increasing (consecutive first n).
Proof.
  induction n as [| n IH]; intros first; [exact I |].
  rewrite consecutive_S. split; [apply consecutive_above | apply IH].
Qed.

Lemma increasing_filter (p : slab_row -> bool) (l : list slab_row) :
  increasing (map serial_number l) ->
  increasing (map serial_number (List.filter p l)).
Proof.
  induction l as [| a l IH]; intros H; [exact I |].
  simpl in H. destruct H as [Ha H]. simpl.
  destruct (p a); [| exact (IH H)].
  simpl. split; [| exact (IH H)].
  apply List.Forall_forall. intros y Hy.
  apply in_map_iff in Hy as [r [<- Hr]]. apply filter_In in Hr as [Hr _].
  rewrite List.Forall_forall in Ha. apply Ha. apply in_map. exact Hr.
Qed.

Lemma increasing_NoDup (l : list Z) : increasing l -> List.NoDup l.
Proof.
  induction l as [| a l IH]; intros H; [constructor |].
  destruct H as [Ha H]. constructor; [| exact (IH H)].
  intros Hin. rewrite List.Forall_forall in Ha. specialize (Ha a Hin). lia.
Qed.

(** [ORDER BY serial_number] leaves rows with increasing serial numbers
    in their order. *)
Lemma ORDER_BY_increasing (l : list slab_row) :
  increasing (map serial_number l) -> ORDER_BY_serial_number l = l.
Proof.
  induction l as [| a l IH]; intros H; [reflexivity |].
  simpl in H. destruct H as [Ha H].
  unfold ORDER_BY_serial_number in *. simpl. rewrite (IH H).
  destruct l as [| b l]; [reflexivity |].
  simpl. inversion Ha as [| ? ? Hab _]; subst.
  apply Z.ltb_lt in Hab. rewrite Hab. reflexivity.
Qed.

(** What an operation that deletes nothing does to the serial numbers
    of a sheet: it appends serial numbers above the highest one, in
    increasing order. *)
Lemma INSERT_serials (sid0 sid : uuid) (vs : list insert_values)
  (db db' : database) (rs : list slab_row) :
  INSERT vs db = Done db' rs ->
  map v_measurement_sheet_id vs = repeat sid0 (List.length vs) ->
  map v_serial_number vs = consecutive (max_serial sid0 db) (List.length vs) ->
  exists added,
    serials sid db' = serials sid db ++ added
    /\ Forall (Z.lt (max_serial sid db)) added
    /\ increasing added.
Proof.
  intros H Hsid Hser.
  apply INSERT_spec in H as [E [Esid Eser]].
  rewrite Hsid in Esid. rewrite Hser in Eser.
  exists (map serial_number
            (List.filter (fun r => Nat.eqb (measurement_sheet_id r) sid) rs)).
  split.
  - rewrite E. unfold serials, entries_of_sheet. simpl.
    rewrite List.filter_app, map_app. reflexivity.
  - destruct (Nat.eq_dec sid sid0) as [-> | Hne].
    + rewrite (filter_sheet_all _ _ _ Esid), Eser.
      split; [apply consecutive_above | apply increasing_consecutive].
    + rewrite (filter_sheet_other _ _ _ _ Esid Hne). split; [constructor | exact I].
Qed.

Lemma batch_update_statements_serials (sid : uuid)
  (updates : list (uuid * updateData)) :
  forall db db' rs,
    batch_update_statements updates db = Some (db', rs) ->
    serials sid db' = serials sid db.
Proof.
  induction updates as [| [target u] updates IH]; intros db db' rs H;
    simpl in H.
  - inversion H; subst. reflexivity.
  - destruct (UPDATE u target db) as [db1 rows |] eqn:E; [| discriminate].
    destruct (batch_update_statements updates db1) as [[db2 rs2] |] eqn:E2;
      [| discriminate].
    inversion H; subst. rewrite (IH _ _ _ E2).
    apply UPDATE_spec in E as [E _]. rewrite E.
    unfold serials, entries_of_sheet. simpl. apply serials_updated.
Qed.

Lemma perform_appends (o : operation) (sid : uuid) (db : database) :
  deletes o = false ->
  exists added,
    serials sid (perform o db) = serials sid db ++ added
    /\ Forall (Z.lt (max_serial sid db)) added
    /\ increasing added.
Proof.
  intros Ho.
  assert (Same : forall db', serials sid db' = serials sid db ->
                 exists added,
                   serials sid db' = serials sid db ++ added
                   /\ Forall (Z.lt (max_serial sid db)) added
                   /\ increasing added).
  { intros db' E. exists []. rewrite app_nil_r.
    split; [exact E |]. split; [constructor | exact I]. }
  destruct o as [d | sid0 l | this u | this | updates | ids | d | sid0 l];
    try discriminate; unfold perform.
  - unfold create. destruct (Nat.eqb _ 0); apply Same; reflexivity.
  - unfold batchCreate. destruct (Nat.eqb _ 0); apply Same; reflexivity.
  - unfold update.
    destruct (UPDATE u (id this) db) as [db' rows |] eqn:E;
      [| apply Same; reflexivity].
    assert (H : serials sid db' = serials sid db).
    { apply UPDATE_spec in E as [E _]. rewrite E.
      unfold serials, entries_of_sheet. simpl. apply serials_updated. }
    destruct rows; apply Same; exact H.
  - unfold batchUpdate.
    destruct (batch_update_statements updates db) as [[db' rs] |] eqn:E;
      [| apply Same; reflexivity].
    apply Same. simpl. eapply batch_update_statements_serials; eassumption.
  - destruct (createSlabEntry_database d db) as [E | [rows E]];
      [rewrite E; apply Same; reflexivity |].
    eapply (INSERT_serials (measurementSheetId d)); try eassumption; reflexivity.
  - destruct (batchCreateSlabEntries_database sid0 l db) as [E | [rows E]];
      [rewrite E; apply Same; reflexivity |].
    eapply (INSERT_serials sid0); try eassumption.
    + rewrite batch_values_sheet, batch_values_length. reflexivity.
    + rewrite batch_values_serials, batch_values_length. reflexivity.
Qed.

Lemma filter_filter_comm {A : Type} (p q : A -> bool) (l : list A) :
  List.filter p (List.filter q l) = List.filter q (List.filter p l).
Proof.
  induction l as [| a l IH]; [reflexivity |].
  simpl. destruct (q a) eqn:Eq; destruct (p a) eqn:Ep; simpl;
    rewrite ?Eq, ?Ep, IH; reflexivity.
Qed.

Lemma DELETE_serials (targets : list uuid) (sid : uuid) (db db' : database)
  (rs : list slab_row) :
  DELETE targets db = Done db' rs ->
  serials sid db'
  = map serial_number
      (List.filter (fun r => negb (existsb (Nat.eqb (id r)) targets))
         (entries_of_sheet sid db)).
Proof.
  intros H. apply DELETE_spec in H as [E _]. rewrite E.
  unfold serials, entries_of_sheet. simpl. f_equal.
  apply filter_filter_comm.
Qed.

Lemma perform_increasing (o : operation) (sid : uuid) (db : database) :
  increasing (serials sid db) -> increasing (serials sid (perform o db)).
Proof.
  intros H. destruct (deletes o) eqn:Ho.
  - destruct o as [d | sid0 l | this u | this | updates | ids | d | sid0 l];
      try discriminate; unfold perform.
    + unfold delete.
      destruct (DELETE [id this] db) as [db' rows |] eqn:E; [| exact H].
      assert (H' : increasing (serials sid db')).
      { rewrite (DELETE_serials _ _ _ _ _ E). apply increasing_filter. exact H. }
      destruct rows; exact H'.
    + unfold batchDelete.
      destruct (DELETE ids db) as [db' rows |] eqn:E; [| exact H].
      simpl. rewrite (DELETE_serials _ _ _ _ _ E).
      apply increasing_filter. exact H.
  - destruct (perform_appends o sid db Ho) as [added [E [Habove Hinc]]].
    rewrite E. apply increasing_app; [exact H | exact Hinc |].
    intros x y Hx Hy.
    rewrite List.Forall_forall in Habove. specialize (Habove y Hy).
    pose proof (max_serial_bound sid db) as B.
    rewrite List.Forall_forall in B. specialize (B x Hx). lia.
Qed.

(** X17.  Under any sequence of operations (the methods of the model
    and the creating handlers of the controller), deletes included,
    the serial numbers of a sheet stay strictly increasing in the order
    of insertion: no two entries of a sheet ever share a serial number,
    and [ORDER BY serial_number] returns the entries in the order in
    which they were inserted. *)
Theorem serials_stay_increasing (ops : list operation) (sid : uuid)
  (db : database) :
  increasing (serials sid db) ->
  increasing (serials sid (perform_all ops db))
  /\ List.NoDup (serials sid (perform_all ops db))
  /\ ORDER_BY_serial_number (entries_of_sheet sid (perform_all ops db))
     = entries_of_sheet sid (perform_all ops db).
Proof.
  intros H.
  assert (Hinc : increasing (serials sid (perform_all ops db))).
  { revert db H. induction ops as [| o ops IH]; intros db H; [exact H |].
    simpl. apply IH. apply perform_increasing. exact H. }
  split; [exact Hinc |]. split.
  - apply increasing_NoDup. exact Hinc.
  - apply ORDER_BY_increasing. exact Hinc.
Qed.

Lemma serials_stay_increasing_witness :
  increasing (serials 7 (perform_all Example.mutations Example.db))
  /\ List.NoDup (serials 7 (perform_all Example.mutations Example.db))
  /\ ORDER_BY_serial_number
       (entries_of_sheet 7 (perform_all Example.mutations Example.db))
     = entries_of_sheet 7 (perform_all Example.mutations Example.db).
Proof.
  apply (serials_stay_increasing Example.mutations 7%nat Example.db).
  exact I.
Defined.

(** ** Gaps *)

Lemma COALESCE_MAX_app (l added : list Z) :
  Forall (Z.lt (COALESCE (MAX l) 0%Z)) added ->
  (COALESCE (MAX l) 0 <= COALESCE (MAX (l ++ added)) 0)%Z.
Proof.
  intros H. destruct added as [| y added].
  - rewrite app_nil_r. lia.
  - inversion H as [| ? ? Hy _]; subst.
    pose proof (COALESCE_MAX_bound (l ++ y :: added)) as B.
    rewrite List.Forall_forall in B.
    assert (Hin : In y (l ++ y :: added))
      by (apply in_or_app; right; left; reflexivity).
    specialize (B y Hin). lia.
Qed.

Lemma perform_keeps_gap (o : operation) (sid : uuid) (db : database) (k : Z) :
  deletes o = false ->
  ~ In k (serials sid db) -> (k <= max_serial sid db)%Z ->
  ~ In k (serials sid (perform o db))
  /\ (k <= max_serial sid (perform o db))%Z.
Proof.
  intros Ho Hk Hmax.
  destruct (perform_appends o sid db Ho) as [added [E [Habove _]]].
  split.
  - rewrite E. intros Hin. apply in_app_or in Hin as [Hin | Hin];
      [exact (Hk Hin) |].
    rewrite List.Forall_forall in Habove. specialize (Habove k Hin). lia.
  - pose proof (COALESCE_MAX_app (serials sid db) added Habove) as M.
    unfold max_serial in *. fold (serials sid db) in *.
    fold (serials sid (perform o db)). rewrite E. lia.
Qed.

(** X18.  The database never renumbers: a serial number that is
    missing among the entries of a sheet and is not above the highest
    one stays missing, whatever entries are created and updated
    afterwards. *)
Theorem missing_serial_stays_missing (ops : list operation) (sid : uuid)
  (db : database) (k : Z) :
  forallb (fun o => negb (deletes o)) ops = true ->
  ~ In k (serials sid db) ->
  (k <= max_serial sid db)%Z ->
  ~ In k (serials sid (perform_all ops db))
  /\ (k <= max_serial sid (perform_all ops db))%Z.
Proof.
  revert db. induction ops as [| o ops IH]; intros db Hops Hk Hmax;
    [split; assumption |].
  simpl in Hops. apply andb_true_iff in Hops as [Ho Hops].
  apply negb_true_iff in Ho.
  destruct (perform_keeps_gap o sid db k Ho Hk Hmax) as [Hk' Hmax'].
  simpl. apply IH; assumption.
Qed.

Lemma missing_serial_stays_missing_witness :
  ~ In 1%Z
      (serials 7
         (perform_all [CreateSlabEntry (Example.slab 24 24 4);
                       Update Example.first_row (Example.resize 120)]
            (perform_all (Example.inserts ++ [Delete Example.first_row])
               Example.db)))
  /\ (1 <= max_serial 7
            (perform_all [CreateSlabEntry (Example.slab 24 24 4);
                          Update Example.first_row (Example.resize 120)]
               (perform_all (Example.inserts ++ [Delete Example.first_row])
                  Example.db)))%Z.
Proof.
  apply (missing_serial_stays_missing
           [CreateSlabEntry (Example.slab 24 24 4);
            Update Example.first_row (Example.resize 120)]
           7%nat
           (perform_all (Example.inserts ++ [Delete Example.first_row])
              Example.db)
           1%Z).
  - reflexivity.
  - vm_compute. intuition discriminate.
  - vm_compute. discriminate.
Defined.

(** ** Finding an entry *)

Lemma no_row_with_new_id (db : database) :
  ids_generated db ->
  List.filter (fun r => Nat.eqb (id r) (uuids_generated db)) (slab_entries db)
  = [].
Proof.
  unfold ids_generated. induction (slab_entries db) as [| a l IH]; intros H;
    [reflexivity |].
  inversion H as [| ? ? Ha Hl]; subst. simpl.
  destruct (Nat.eqb_spec (id a) (uuids_generated db)) as [E | _]; [lia |].
  exact (IH Hl).
Qed.

(** X19.  In a database whose identifiers all come from
    [uuid_generate_v4()]: the entry with which [createSlabEntry]
    answers 201 has an identifier no entry had; [findById] of it
    returns exactly that entry, and [findById] of any other identifier
    returns what it returned before.  Deleting the entry again
    resolves to [true] and leaves the entries the database had before
    the request. *)
Theorem created_entry_is_found (d : slabEntryData) (db db' : database)
  (r : slab_row) (other : uuid) :
  ids_generated db ->
  createSlabEntry d db = (db', Created (Some r)) ->
  findById (id r) db = None
  /\ findById other db'
     = (if Nat.eqb other (id r) then Some r else findById other db)
  /\ ids_generated db'
  /\ exists db'',
       delete r db' = (db'', Resolved true)
       /\ slab_entries db'' = slab_entries db
       /\ findById (id r) db'' = None.
Proof.
  intros Hids Hc.
  destruct (createSlabEntry_created d db db' r Hc) as [_ [_ [Hrows [Hid Hgen]]]].
  pose proof (no_row_with_new_id db Hids) as Hnew.
  assert (Hbefore : findById (id r) db = None).
  { unfold findById. rewrite Hid, Hnew. reflexivity. }
  split; [exact Hbefore |]. split; [| split].
  - destruct (Nat.eqb_spec other (id r)) as [-> | Hne].
    + unfold findById. rewrite Hrows, List.filter_app, Hid, Hnew. simpl.
      rewrite <- Hid, Nat.eqb_refl. reflexivity.
    + unfold findById. rewrite Hrows, List.filter_app. simpl.
      destruct (Nat.eqb_spec (id r) other) as [E | _]; [congruence |].
      rewrite app_nil_r. reflexivity.
  - unfold ids_generated. rewrite Hrows, Hgen. apply List.Forall_app. split.
    + eapply List.Forall_impl; [| exact Hids]. intros a Ha. simpl in Ha. lia.
    + constructor; [lia | constructor].
  - assert (Hhit : List.filter (fun r0 => existsb (Nat.eqb (id r0)) [id r])
                     (slab_entries db') = [r]).
    { rewrite Hrows, List.filter_app. simpl. rewrite Nat.eqb_refl. simpl.
      replace (List.filter (fun r0 => Nat.eqb (id r0) (id r) || false)
                 (slab_entries db)) with (@nil slab_row); [reflexivity |].
      rewrite <- Hnew, Hid. apply List.filter_ext. intros a.
      symmetry. apply orb_false_r. }
    assert (Hkeep : List.filter
                      (fun r0 => negb (existsb (Nat.eqb (id r0)) [id r]))
                      (slab_entries db') = slab_entries db).
    { rewrite Hrows, List.filter_app. simpl. rewrite Nat.eqb_refl. simpl.
      rewrite app_nil_r. clear Hhit Hrows Hbefore Hnew.
      unfold ids_generated in Hids.
      induction (slab_entries db) as [| a l IH]; [reflexivity |].
      inversion Hids as [| ? ? Ha Hl]; subst. simpl.
      destruct (Nat.eqb_spec (id a) (id r)) as [E | _]; [lia |].
      simpl. f_equal. exact (IH Hl). }
    unfold delete, DELETE. rewrite Hhit, Hkeep.
    rewrite fire_row_triggers_recompute.
    eexists. split; [reflexivity |]. split; [reflexivity |].
    unfold findById. simpl. rewrite Hid, Hnew. reflexivity.
Qed.

Lemma created_entry_is_found_witness :
  findById 0 Example.db = None
  /\ findById 0 (fst (createSlabEntry (Example.slab 144 144 144) Example.db))
     = (if Nat.eqb 0 0 then Some Example.first_row
        else findById 0 Example.db)
  /\ ids_generated (fst (createSlabEntry (Example.slab 144 144 144) Example.db))
  /\ exists db'',
       delete Example.first_row
         (fst (createSlabEntry (Example.slab 144 144 144) Example.db))
       = (db'', Resolved true)
       /\ slab_entries db'' = slab_entries Example.db
       /\ findById 0 db'' = None.
Proof.
  apply (created_entry_is_found (Example.slab 144 144 144) Example.db
           (fst (createSlabEntry (Example.slab 144 144 144) Example.db))
           Example.first_row 0%nat).
  - constructor.
  - reflexivity.
Defined.

(** ** Pages *)

Lemma firstn_add_skipn {A : Type} (a b : nat) (l : list A) :
  firstn (a + b) l = firstn a l ++ firstn b (skipn a l).
Proof.
  revert l. induction a as [| a IH]; intros l; [reflexivity |].
  destruct l as [| x l]; simpl.
  - rewrite firstn_nil. reflexivity.
  - rewrite IH. reflexivity.
Qed.

Lemma concat_chunks {A : Type} (k : nat) (l : list A) (n : nat) :
  concat (map (fun i => firstn k (skipn (i * k) l)) (seq 0 n))
  = firstn (n * k) l.
Proof.
  induction n as [| n IH]; [reflexivity |].
  rewrite seq_S, map_app, concat_app, IH. simpl.
  rewrite app_nil_r, (Nat.add_comm k (n * k)). symmetry.
  apply firstn_add_skipn.
Qed.

Lemma insert_by_serial_length (r : slab_row) (rows : list slab_row) :
  List.length (insert_by_serial r rows) = S (List.length rows).
Proof.
  induction rows as [| a rows IH]; [reflexivity |].
  simpl. destruct (serial_number r <? serial_number a)%Z; simpl;
    [reflexivity | rewrite IH; reflexivity].
Qed.

Lemma ORDER_BY_length (rows : list slab_row) :
  List.length (ORDER_BY_serial_number rows) = List.length rows.
Proof.
  induction rows as [| a rows IH]; [reflexivity |].
  unfold ORDER_BY_serial_number in *. simpl.
  rewrite insert_by_serial_length, IH. reflexivity.
Qed.

(** The pages cover the count: [pages * limit >= total]. *)
Lemma ceil_quotient_covers (total limit : Z) :
  (0 < limit)%Z -> (total <= ceil_quotient total limit * limit)%Z.
Proof.
  intros H. unfold ceil_quotient.
  pose proof (Z.div_mod (total + limit - 1) limit ltac:(lia)) as D.
  pose proof (Z.mod_pos_bound (total + limit - 1) limit H) as B.
  rewrite (Z.mul_comm _ limit). lia.
Qed.

Lemma ceil_quotient_nonneg (total limit : Z) :
  (0 < limit)%Z -> (0 <= total)%Z -> (0 <= ceil_quotient total limit)%Z.
Proof.
  intros H Ht. unfold ceil_quotient. apply Z.div_pos; lia.
Qed.

(** What a call with a positive page and a positive limit returns. *)
Lemma page_of_positive (sid : uuid) (i : nat) (limit : Z) (db : database) :
  (0 < limit)%Z ->
  findByMeasurementSheetId sid (Some (Z.of_nat (S i))) (Some limit) db
  = Resolved
      (firstn (Z.to_nat limit)
         (skipn (i * Z.to_nat limit)
            (ORDER_BY_serial_number (entries_of_sheet sid db))),
       Some (mkPagination (Z.of_nat (S i)) limit
               (Z.of_nat (List.length (entries_of_sheet sid db)))
               (ceil_quotient
                  (Z.of_nat (List.length (entries_of_sheet sid db))) limit))).
Proof.
  intros H. unfold findByMeasurementSheetId.
  destruct (Z.eqb_spec (Z.of_nat (S i)) 0) as [E | _]; [lia |].
  destruct (Z.eqb_spec limit 0) as [E | _]; [lia |].
  destruct (Z.ltb_spec limit 0) as [E | _]; [lia |].
  destruct (Z.ltb_spec ((Z.of_nat (S i) - 1) * limit) 0) as [E | _]; [nia |].
  simpl orb. cbv beta iota.
  replace (Z.to_nat ((Z.of_nat (S i) - 1) * limit)) with (i * Z.to_nat limit)%nat;
    [reflexivity |].
  replace (Z.of_nat (S i) - 1)%Z with (Z.of_nat i) by lia.
  rewrite Z2Nat.inj_mul by lia. rewrite Nat2Z.id. reflexivity.
Qed.

(** X20.  For a positive limit, [findByMeasurementSheetId] resolves
    for every positive page with at most [limit] entries and with
    [pages = ceil(total / limit)]; the pages [1 .. pages], one after
    the other, are the entries of the sheet in the order of their
    serial numbers, each entry once; and a page after the last one is
    empty. *)
Theorem pages_cover_the_sheet (sid : uuid) (page limit : Z) (db : database) :
  (0 < limit)%Z ->
  (0 < page)%Z ->
  concat
    (map (fun p => page_rows sid (Z.of_nat p) limit db)
       (seq 1 (Z.to_nat
                 (ceil_quotient
                    (Z.of_nat (List.length (entries_of_sheet sid db))) limit))))
  = ORDER_BY_serial_number (entries_of_sheet sid db)
  /\ exists rows,
       findByMeasurementSheetId sid (Some page) (Some limit) db
       = Resolved
           (rows,
            Some (mkPagination page limit
                    (Z.of_nat (List.length (entries_of_sheet sid db)))
                    (ceil_quotient
                       (Z.of_nat (List.length (entries_of_sheet sid db)))
                       limit)))
       /\ (Z.of_nat (List.length rows) <= limit)%Z
       /\ ((page
            <= ceil_quotient
                 (Z.of_nat (List.length (entries_of_sheet sid db))) limit)%Z
           \/ rows = []).
Proof.
  intros H Hp.
  set (rows := ORDER_BY_serial_number (entries_of_sheet sid db)).
  set (total := Z.of_nat (List.length (entries_of_sheet sid db))).
  pose proof (ceil_quotient_covers total limit H) as Hcover.
  pose proof (ceil_quotient_nonneg total limit H ltac:(unfold total; lia)) as Hn.
  assert (Hlen : Z.of_nat (List.length rows) = total).
  { unfold rows, total. rewrite ORDER_BY_length. reflexivity. }
  split.
  - rewrite <- seq_shift, map_map.
    rewrite (map_ext _ (fun i => firstn (Z.to_nat limit)
                                   (skipn (i * Z.to_nat limit) rows))).
    + rewrite concat_chunks. apply firstn_all2.
      apply Nat2Z.inj_le. rewrite Hlen, Nat2Z.inj_mul, !Z2Nat.id by lia.
      exact Hcover.
    + intros i. unfold page_rows. rewrite (page_of_positive sid i limit db H).
      reflexivity.
  - replace page with (Z.of_nat (S (Z.to_nat (page - 1)))) by lia.
    rewrite (page_of_positive sid (Z.to_nat (page - 1)) limit db H).
    fold rows. fold total. eexists. split; [reflexivity |]. split.
    + rewrite length_firstn. lia.
    + destruct (Z_le_gt_dec (Z.of_nat (S (Z.to_nat (page - 1))))
                  (ceil_quotient total limit)) as [Hle | Hlast];
        [left; exact Hle | right].
      rewrite skipn_all2; [apply firstn_nil |].
      apply Nat2Z.inj_le. rewrite Hlen, Nat2Z.inj_mul, !Z2Nat.id by lia.
      nia.
Qed.

Lemma pages_cover_the_sheet_witness :
  concat
    (map (fun p =>
            page_rows 7 (Z.of_nat p) 2
              (perform_all Example.mutations Example.db))
       (seq 1 (Z.to_nat
                 (ceil_quotient
                    (Z.of_nat
                       (List.length
                          (entries_of_sheet 7
                             (perform_all Example.mutations Example.db))))
                    2))))
  = ORDER_BY_serial_number
      (entries_of_sheet 7 (perform_all Example.mutations Example.db))
  /\ exists rows,
       findByMeasurementSheetId 7 (Some 2%Z) (Some 2%Z)
         (perform_all Example.mutations Example.db)
       = Resolved
           (rows,
            Some (mkPagination 2 2
                    (Z.of_nat
                       (List.length
                          (entries_of_sheet 7
                             (perform_all Example.mutations Example.db))))
                    (ceil_quotient
                       (Z.of_nat
                          (List.length
                             (entries_of_sheet 7
                                (perform_all Example.mutations Example.db))))
                       2)))
       /\ (Z.of_nat (List.length rows) <= 2)%Z
       /\ ((2 <= ceil_quotient
                   (Z.of_nat
                      (List.length
                         (entries_of_sheet 7
                            (perform_all Example.mutations Example.db))))
                   2)%Z
           \/ rows = []).
Proof.
  apply (pages_cover_the_sheet 7%nat 2%Z 2%Z
           (perform_all Example.mutations Example.db)); lia.
Defined.

End PersistenceExtras.

(** * Properties of the sheet numbers *)

Module SheetNumberProperties.

Import SheetNumber.

Lemma all_from_spec (p : N -> bool) (count : nat) :
  forall start n,
    all_from count start p = true ->
    (start <= n)%N -> (n < start + N.of_nat count)%N ->
    p n = true.
Proof.
  induction count as [| count IH]; intros start n H Hs Hn; [lia |].
  simpl in H. apply andb_true_iff in H as [Hp H].
  destruct (N.eq_dec n start) as [-> | Hne]; [exact Hp |].
  apply (IH (N.succ start) n H); lia.
Qed.

Lemma numbers_decode :
  all_from (N.to_nat 9999) 1
    (fun n =>
       N.eqb (value_of (measurement_sheet_number n)) n
       && Nat.eqb (String.length (measurement_sheet_number n)) 7)
  = true.
Proof. vm_compute. reflexivity. Qed.

Lemma numbers_repeat :
  all_from (N.to_nat 90000) 10000
    (fun n =>
       String.eqb (measurement_sheet_number n) (measurement_sheet_number (n / 10)))
  = true.
Proof. vm_compute. reflexivity. Qed.

(** X21.  The first 9999 values of the sequence give 9999 different
    sheet numbers of seven characters; from 10000 on [LPAD] cuts the
    text to its first four digits, so that each value from 10000 to
    99999 gives the number an earlier value gave, that of its tenth. *)
Theorem sheet_numbers_repeat_after_9999 (m n k : N) :
  (1 <= m <= 9999)%N ->
  (1 <= n <= 9999)%N ->
  (10000 <= k <= 99999)%N ->
  m <> n ->
  String.length (measurement_sheet_number n) = 7%nat
  /\ measurement_sheet_number m <> measurement_sheet_number n
  /\ measurement_sheet_number k = measurement_sheet_number (k / 10)
  /\ (1000 <= k / 10 <= 9999)%N.
Proof.
  intros Hm Hn Hk Hmn.
  pose proof (all_from_spec _ _ 1%N m numbers_decode ltac:(lia) ltac:(lia)) as Dm.
  pose proof (all_from_spec _ _ 1%N n numbers_decode ltac:(lia) ltac:(lia)) as Dn.
  cbv beta in Dm, Dn.
  apply andb_true_iff in Dm as [Dm _]. apply andb_true_iff in Dn as [Dn Ln].
  apply N.eqb_eq in Dm, Dn. apply Nat.eqb_eq in Ln.
  split; [exact Ln |]. split; [| split].
  - intros E. apply Hmn. rewrite <- Dm, <- Dn, E. reflexivity.
  - pose proof (all_from_spec _ _ 10000%N k numbers_repeat ltac:(lia) ltac:(lia))
      as R.
    cbv beta in R. apply String.eqb_eq in R. exact R.
  - split.
    + apply N.div_le_lower_bound; lia.
    + assert (k / 10 < 10000)%N by (apply N.Div0.div_lt_upper_bound; lia).
      lia.
Qed.

Lemma sheet_numbers_repeat_after_9999_witness :
  String.length (measurement_sheet_number 42) = 7%nat
  /\ measurement_sheet_number 41 <> measurement_sheet_number 42
  /\ measurement_sheet_number 10000 = measurement_sheet_number (10000 / 10)
  /\ (1000 <= 10000 / 10 <= 9999)%N.
Proof.
  apply (sheet_numbers_repeat_after_9999 41 42 10000); lia.
Defined.

End SheetNumberProperties.

(** * The view and the database *)

Module SheetViewProperties.

Import JS Persistence Queries SheetView PersistenceProperties PersistenceExtras.
Local Open Scope Q_scope.

(** ** Lists by index *)





(** ** Deleting a row with a primary key *)



Lemma increasing_one_to (n : nat) : increasing (one_to n).
Proof.
  pose proof (consecutive_one_to 0 n) as E. simpl in E. rewrite <- E.
  apply increasing_consecutive.
Qed.



End SheetViewProperties.

(** * The request for a new slab entry: middleware and controller *)

Module RequestProperties.

Import JS CalculationEngine Validators Request EngineProperties.
Local Open Scope string_scope.

Lemma if_nil {A : Type} (c : bool) (x : A) :
  (if c then [x] else []) = [] -> c = false.
Proof. destruct c; [discriminate | reflexivity]. Qed.

(** X23.  A request that [validateSlabEntryData] hands on also passes
    the validation at the start of [createSlabEntry].  The body the
    middleware leaves holds a block number of 1 to 50 characters, a
    length and a breadth above 0 and at most 10,000, and one of the
    four slab categories.  A request whose block number is a value
    other than a string, and truthy, gets no response 422: the
    middleware throws. *)
Theorem validated_request_passes_controller (b : body) :
  (forall s, validateSlabEntryData b = Next s ->
     s = sanitize b
     /\ createSlabEntry_validation s = None
     /\ (exists text, blockNumber b = Text text
                      /\ s_blockNumber s = trim text
                      /\ (1 <= String.length (trim text) <= 50)%nat)
     /\ (exists l, s_length s = Fin l /\ (0 < l)%Q /\ (l <= 10000)%Q)
     /\ (exists w, s_breadth s = Fin w /\ (0 < w)%Q /\ (w <= 10000)%Q)
     /\ (exists c, s_slabCategory s = Text c
                   /\ In c Persistence.valid_categories))
  /\ (validateSlabEntryData b = TypeError
      <-> blockNumber b = NotText true).
Proof.
  split.
  - intros s H. unfold validateSlabEntryData in H.
    destruct (validateSlabEntryData_errors b) as [| e errors] eqn:He.
    2:{ destruct (field_errors_throw b); discriminate H. }
    injection H as <-. unfold validateSlabEntryData_errors in He.
    apply app_eq_nil in He as [Hid H]. apply app_eq_nil in H as [Hblock H].
    apply app_eq_nil in H as [Hl H]. apply app_eq_nil in H as [Hw Hcat].
    apply if_nil in Hid. apply if_nil in Hcat.
    apply orb_false_iff in Hcat as [Hcat1 Hcat2].
    apply negb_false_iff in Hcat2.
    destruct (not_field (blockNumber b) || not_a_string (blockNumber b)
              || (String.length (trimmed (blockNumber b)) =? 0)%nat) eqn:Eb;
      [discriminate |].
    apply if_nil in Hblock.
    apply orb_false_iff in Eb as [Eb Eb3].
    apply orb_false_iff in Eb as [Eb1 Eb2].
    apply Nat.eqb_neq in Eb3. apply Nat.ltb_ge in Hblock.
    assert (Vl : validate_dimension "Length" (length b) = []).
    { destruct (length b) as [| | | parsed]; try discriminate Hl.
      unfold validateSlabEntryData_dimension in Hl. unfold validate_dimension.
      exact Hl. }
    assert (Vw : validate_dimension "Breadth" (breadth b) = []).
    { destruct (breadth b) as [| | | parsed]; try discriminate Hw.
      unfold validateSlabEntryData_dimension in Hw. unfold validate_dimension.
      exact Hw. }
    apply validate_dimension_nil in Vl as [l [El [Hl0 Hl1]]].
    apply validate_dimension_nil in Vw as [w [Ew [Hw0 Hw1]]].
    assert (Lz : Qeq_bool l 0 = false).
    { apply Qeq_bool_false. intros E. rewrite E in Hl0.
      exact (Qlt_irrefl _ Hl0). }
    assert (Wz : Qeq_bool w 0 = false).
    { apply Qeq_bool_false. intros E. rewrite E in Hw0.
      exact (Qlt_irrefl _ Hw0). }
    assert (Ll : Qle_bool l 0 = false).
    { destruct (Qle_bool l 0) eqn:E; [| reflexivity].
      apply Qle_bool_iff in E. exfalso. exact (Qlt_not_le _ _ Hl0 E). }
    assert (Wl : Qle_bool w 0 = false).
    { destruct (Qle_bool w 0) eqn:E; [| reflexivity].
      apply Qle_bool_iff in E. exfalso. exact (Qlt_not_le _ _ Hw0 E). }
    destruct (blockNumber b) as [| text | truthy] eqn:Ebn;
      [discriminate Eb2 | | discriminate Eb2].
    destruct (slabCategory b) as [| c | truthy] eqn:Ec;
      [discriminate Hcat2 | | discriminate Hcat2].
    cbn [trimmed] in Eb3, Hblock. cbn [is_category] in Hcat2.
    split; [reflexivity |].
    split.
    { unfold createSlabEntry_validation, sanitize. cbn [s_measurementSheetId
        s_blockNumber s_length s_breadth s_slabCategory].
      rewrite Hid, Ebn, Ec, El, Ew. unfold not_number.
      cbn [parseFloat isNaN strict_eq le trimmed is_category].
      rewrite Lz, Wz, Ll, Wl.
      destruct (String.eqb_spec (trim text) "") as [E | _].
      - rewrite E in Eb3. simpl in Eb3. contradiction.
      - cbn [not_field] in Hcat1 |- *. rewrite Hcat1, Hcat2. reflexivity. }
    split.
    { exists text. unfold sanitize. cbn [s_blockNumber]. rewrite Ebn.
      cbn [trimmed]. split; [reflexivity |]. split; [reflexivity | lia]. }
    split.
    { exists l. unfold sanitize. cbn [s_length]. rewrite El.
      split; [reflexivity |]. split; assumption. }
    split.
    { exists w. unfold sanitize. cbn [s_breadth]. rewrite Ew.
      split; [reflexivity |]. split; assumption. }
    exists c. unfold sanitize. cbn [s_slabCategory]. rewrite Ec.
    split; [reflexivity |].
    apply existsb_exists in Hcat2 as [c' [Hin E]].
    apply String.eqb_eq in E. subst c'. exact Hin.
  - unfold validateSlabEntryData, field_errors_throw. split.
    + destruct (validateSlabEntryData_errors b) as [| e errors];
        [discriminate |].
      destruct (blockNumber b) as [| text | [|]]; try discriminate.
      reflexivity.
    + intros E. unfold validateSlabEntryData_errors. rewrite E.
      cbn [not_field not_a_string negb orb].
      destruct (if not_field (measurementSheetId b)
                then ["Measurement sheet ID is required"] else []);
        reflexivity.
Qed.

Lemma validated_request_passes_controller_witness :
  validateSlabEntryData
    (mkBody (Text "7f3c") (Text "  B-12 ") (Value (Fin 144))
       (Value (Fin 144)) (Text "F"))
  = Next (mkSanitized (Text "7f3c") "B-12" (Fin 144) (Fin 144) (Text "F"))
  /\ createSlabEntry_validation
       (mkSanitized (Text "7f3c") "B-12" (Fin 144) (Fin 144) (Text "F"))
     = None
  /\ validateSlabEntryData
       (mkBody (Text "7f3c") (NotText true) (Value (Fin 144))
          (Value (Fin 144)) (Text "F"))
     = TypeError
  /\ validateSlabEntryData
       (mkBody (Text "7f3c") (NotText false) (Value (Fin 144))
          (Value (Fin 144)) (Text "F"))
     = Unprocessable
         ["Block number is required and must be a non-empty string"].
Proof.
  split; [reflexivity |].
  split.
  - exact (proj1 (proj2
             (proj1 (validated_request_passes_controller
                       (mkBody (Text "7f3c") (Text "  B-12 ")
                          (Value (Fin 144)) (Value (Fin 144)) (Text "F")))
                _ eq_refl))).
  - split; [| reflexivity].
    exact (proj2
             (proj2 (validated_request_passes_controller
                       (mkBody (Text "7f3c") (NotText true) (Value (Fin 144))
                          (Value (Fin 144)) (Text "F"))))
             eq_refl).
Defined.

End RequestProperties.

(** * Properties of the slab entry controller *)

Module ControllerProperties.

Import Persistence PersistenceProperties.



(** X26.  On the routes of the controller the serial numbers of a sheet
    are dense from 1.  When [createSlabEntry] answers 201 the entry is
    stored with the serial number [max + 1] of its sheet (1 on a sheet
    without entries); when [batchCreateSlabEntries] answers 201 the N
    entries are stored with [max + 1 .. max + N]; with another answer
    either handler leaves the database as it was.  Hence, from a sheet
    without entries, any sequence of operations without deletes leaves
    the sheet with the serial numbers [1, ..., N], [N] its number of
    entries. *)
Theorem controller_serials_dense_from_one (ops : list operation) (sid : uuid)
  (db : database) :
  forallb (fun o => negb (deletes o)) ops = true ->
  entries_of_sheet sid db = [] ->
  serials sid (perform_all ops db)
  = one_to (List.length (entries_of_sheet sid (perform_all ops db)))
  /\ max_serial sid db = 0%Z
  /\ (forall d db0 db' r,
        createSlabEntry d db0 = (db', Created (Some r)) ->
        measurement_sheet_id r = measurementSheetId d
        /\ serial_number r = (max_serial (measurementSheetId d) db0 + 1)%Z
        /\ slab_entries db' = slab_entries db0 ++ [r])
  /\ (forall d db0 db',
        createSlabEntry d db0 = (db', BadRequest)
        \/ createSlabEntry d db0 = (db', NotFound)
        \/ createSlabEntry d db0 = (db', ServerError) ->
        db' = db0)
  /\ (forall sid0 l db0 db' rs,
        batchCreateSlabEntries sid0 l db0 = (db', Created rs) ->
        map measurement_sheet_id rs = repeat sid0 (List.length l)
        /\ map serial_number rs
           = consecutive (max_serial sid0 db0) (List.length l)
        /\ slab_entries db' = slab_entries db0 ++ rs)
  /\ (forall sid0 l db0 db',
        batchCreateSlabEntries sid0 l db0 = (db', BadRequest)
        \/ batchCreateSlabEntries sid0 l db0 = (db', NotFound)
        \/ batchCreateSlabEntries sid0 l db0 = (db', ServerError) ->
        db' = db0).
Proof.
  intros Hops Hempty.
  split; [| split; [| split; [| split; [| split]]]].
  - apply (perform_all_dense ops sid db Hops).
    unfold dense, serials. rewrite Hempty. reflexivity.
  - unfold max_serial. rewrite Hempty. reflexivity.
  - intros d db0 db' r H.
    destruct (createSlabEntry_created d db0 db' r H) as [H1 [H2 [H3 _]]].
    auto.
  - intros d db0 db'. unfold createSlabEntry.
    destruct (_ || _ || _ || _);
      [intros [H | [H | H]]; injection H as <-; reflexivity |].
    destruct (_ || _);
      [intros [H | [H | H]]; injection H as <-; reflexivity |].
    destruct (negb _);
      [intros [H | [H | H]]; injection H as <-; reflexivity |].
    destruct (Nat.eqb _ 0);
      [intros [H | [H | H]]; injection H as <-; reflexivity |].
    cbn [serial_query].
    destruct (INSERT _ db0) as [db1 rows |];
      intros [H | [H | H]]; try discriminate H; injection H as <-; reflexivity.
  - intros sid0 l db0 db' rs H.
    exact (batchCreateSlabEntries_created sid0 l db0 db' rs H).
  - intros sid0 l db0 db'. unfold batchCreateSlabEntries.
    destruct (Nat.eqb (List.length l) 0);
      [intros [H | [H | H]]; injection H as <-; reflexivity |].
    destruct (Nat.eqb _ 0);
      [intros [H | [H | H]]; injection H as <-; reflexivity |].
    destruct (insert_one_by_one sid0 l db0) as [[db1 rows] |];
      intros [H | [H | H]]; try discriminate H; injection H as <-; reflexivity.
Qed.

Lemma controller_serials_dense_from_one_witness :
  serials 7 (perform_all Example.inserts Example.db)
  = one_to (List.length
              (entries_of_sheet 7 (perform_all Example.inserts Example.db)))
  /\ serials 7 (perform_all Example.inserts Example.db) = [1; 2; 3; 4]%Z.
Proof.
  split.
  - apply (controller_serials_dense_from_one Example.inserts 7%nat Example.db);
      reflexivity.
  - vm_compute. reflexivity.
Defined.

End ControllerProperties.
